(** * Logic-Pro-MCP: accessibility extraction, coordinator, catalog parser, MIDI

    A shallow embedding of
    - [swift-helper/Sources/LogicAccessibility/main.swift] (module [Swift]),
    - the JXA script and the coordinator of [src/bridges/accessibility.ts]
      (modules [JXA] and [Bridge]),
    - [parseAuvalOutput] and the [plugin_set_parameter] handler of
      [src/tools/plugins.ts] (module [Plugins]),
    - the send primitives and [sendNotes] of [src/bridges/midi-bridge.ts]
      (module [Midi]),
    - the [midi_send_chord] handler of [src/tools/midi.ts] (module
      [MidiTools]),
    - the request handler of [src/index.ts] (module [Server]),
    followed by the properties proved about them. *)

From Stdlib Require Import ZArith NArith List Bool Lia String Ascii.
From Stdlib Require Import Decimal DecimalPos DecimalZ.
From stdpp Require Import base option list gmap.
Import ListNotations.

Set Default Proof Using "Type".
Local Open Scope nat_scope.

(* ===================================================================== *)
(** * Text *)
(* ===================================================================== *)

(** Strings are sequences of code points: Unicode scalars for Swift, UTF-16
    code units for JavaScript.  Every character the two programs test for
    lies in the Basic Multilingual Plane, where the two coincide.  Swift
    compares strings up to canonical equivalence and splits them at
    characters (grapheme clusters); the model compares the scalar
    sequences and takes every scalar for a character, i.e. it reads labels
    in one normal form and without combining marks after a space or a
    quote. *)
Module Text.

Definition char := N.
Definition ustring := list char.

Definition eqb (a b : ustring) : bool := bool_decide (a = b).

Definition isEmptyList {A} (l : list A) : bool :=
  match l with [] => true | _ => false end.

(** ** Literals: UTF-8 source text to code points *)

Fixpoint bytes_of_string (s : string) : list N :=
  match s with
  | EmptyString => []
  | String a r => N_of_ascii a :: bytes_of_string r
  end.

Definition cont (b : N) : N := N.land b 63.

Fixpoint utf8_decode (fuel : nat) (bs : list N) : ustring :=
  match fuel with
  | O => []
  | S fuel' =>
    match bs with
    | [] => []
    | b0 :: r0 =>
      if (b0 <? 128)%N then b0 :: utf8_decode fuel' r0
      else if (b0 <? 224)%N then
        match r0 with
        | b1 :: r1 => (N.land b0 31 * 64 + cont b1)%N :: utf8_decode fuel' r1
        | _ => []
        end
      else if (b0 <? 240)%N then
        match r0 with
        | b1 :: b2 :: r2 =>
            (N.land b0 15 * 4096 + cont b1 * 64 + cont b2)%N :: utf8_decode fuel' r2
        | _ => []
        end
      else
        match r0 with
        | b1 :: b2 :: b3 :: r3 =>
            (N.land b0 7 * 262144 + cont b1 * 4096 + cont b2 * 64 + cont b3)%N
              :: utf8_decode fuel' r3
        | _ => []
        end
    end
  end.

Definition lit (s : string) : ustring :=
  let bs := bytes_of_string s in utf8_decode (List.length bs) bs.

(** ** Named characters *)

Definition SPACE : char := 32%N.
Definition DQUOTE : char := 34%N.          (* straight double quote *)
Definition PLUS : char := 43%N.
Definition MINUS : char := 45%N.
Definition LOW9 : char := 8222%N.          (* U+201E, German opening quote *)
Definition LDQUO : char := 8220%N.         (* U+201C *)
Definition RDQUO : char := 8221%N.         (* U+201D *)
Definition LAQUO : char := 171%N.          (* U+00AB, left guillemet *)
Definition RAQUO : char := 187%N.          (* U+00BB, right guillemet *)

(** ** Searching *)

Fixpoint hasPrefix (p s : ustring) : bool :=
  match p, s with
  | [], _ => true
  | _ :: _, [] => false
  | a :: p', b :: s' => (a =? b)%N && hasPrefix p' s'
  end.

(** First position at which [pat] occurs ([String.indexOf],
    [String.range(of:)] for a non-empty literal pattern). *)
Fixpoint indexOf (pat s : ustring) : option nat :=
  if hasPrefix pat s then Some 0
  else match s with
       | [] => None
       | _ :: r => S <$> indexOf pat r
       end.

Definition contains (pat s : ustring) : bool :=
  match indexOf pat s with Some _ => true | None => false end.

(** Last position of the character [c] ([String.lastIndexOf] with a
    one-character pattern). *)
Fixpoint lastIndexOfChar (c : char) (s : ustring) : option nat :=
  match s with
  | [] => None
  | x :: r =>
    match lastIndexOfChar c r with
    | Some i => Some (S i)
    | None => if (x =? c)%N then Some 0 else None
    end
  end.

(** Removing every occurrence of a one-character pattern
    (Swift [replacingOccurrences] and JavaScript [replace] with the empty
    replacement). *)
Definition removeChar (c : char) (s : ustring) : ustring :=
  List.filter (fun x => negb (x =? c)%N) s.

(** ** Trimming *)

Fixpoint dropWhile (p : char -> bool) (s : ustring) : ustring :=
  match s with
  | [] => []
  | c :: r => if p c then dropWhile p r else s
  end.

Definition dropWhileEnd (p : char -> bool) (s : ustring) : ustring :=
  rev (dropWhile p (rev s)).

Definition trimBy (p : char -> bool) (s : ustring) : ustring :=
  dropWhileEnd p (dropWhile p s).

(** [CharacterSet.whitespaces]: general category Zs and U+0009. *)
Definition isSwiftWhitespace (c : char) : bool :=
  ((c =? 9) || (c =? 32) || (c =? 160) || (c =? 5760)
   || ((8192 <=? c) && (c <=? 8202)) || (c =? 8239) || (c =? 8287)
   || (c =? 12288))%N.

(** JavaScript line terminators: LF, CR, U+2028, U+2029. *)
Definition isLineTerminator (c : char) : bool :=
  ((c =? 10) || (c =? 13) || (c =? 8232) || (c =? 8233))%N.

(** JavaScript WhiteSpace and LineTerminator: what [String.prototype.trim]
    strips and what the regular-expression class [\s] matches. *)
Definition isJSWhitespace (c : char) : bool :=
  ((c =? 9) || (c =? 11) || (c =? 12) || (c =? 32) || (c =? 160)
   || (c =? 5760) || ((8192 <=? c) && (c <=? 8202)) || (c =? 8239)
   || (c =? 8287) || (c =? 12288) || (c =? 65279))%N
  || isLineTerminator c.

(** The regular-expression class [\w]: [A-Za-z0-9_]. *)
Definition isWordChar (c : char) : bool :=
  (((48 <=? c) && (c <=? 57)) || ((65 <=? c) && (c <=? 90))
   || ((97 <=? c) && (c <=? 122)) || (c =? 95))%N.

Definition swiftTrim : ustring -> ustring := trimBy isSwiftWhitespace.
Definition jsTrim : ustring -> ustring := trimBy isJSWhitespace.

(** ** Splitting *)

Definition lastPiece (omitEmpty : bool) (piece : ustring) : list ustring :=
  if negb (isEmptyList piece) || negb omitEmpty then [piece] else [].

(** The loop of Swift's [Collection.split(separator:maxSplits:
    omittingEmptySubsequences:)]: [cur] is the subsequence being read and
    [count] the number of pieces appended so far.  After [maxSplits] pieces
    the remainder is appended as it is. *)
Fixpoint swiftSplitLoop (sep : char) (maxSplits : option nat) (omitEmpty : bool)
    (s cur : ustring) (count : nat) : list ustring :=
  match s with
  | [] => lastPiece omitEmpty cur
  | c :: rest =>
    if (c =? sep)%N then
      if isEmptyList cur && omitEmpty
      then swiftSplitLoop sep maxSplits omitEmpty rest [] count
      else if bool_decide (maxSplits = Some (S count))
           then cur :: lastPiece omitEmpty rest
           else cur :: swiftSplitLoop sep maxSplits omitEmpty rest [] (S count)
    else swiftSplitLoop sep maxSplits omitEmpty rest (cur ++ [c]) count
  end.

(** [s.split(separator: sep, maxSplits: n)]; [None] is the default
    [Int.max]; empty subsequences are omitted, as by default. *)
Definition swiftSplit (sep : char) (maxSplits : option nat) (s : ustring)
  : list ustring :=
  if bool_decide (maxSplits = Some 0) || isEmptyList s
  then lastPiece true s
  else swiftSplitLoop sep maxSplits true s [] 0.

(** JavaScript [s.split(sep)] with a one-character separator: every
    occurrence splits, empty pieces are kept. *)
Fixpoint jsSplitLoop (sep : char) (s cur : ustring) : list ustring :=
  match s with
  | [] => [cur]
  | c :: rest =>
    if (c =? sep)%N then cur :: jsSplitLoop sep rest []
    else jsSplitLoop sep rest (cur ++ [c])
  end.

Definition jsSplit (sep : char) (s : ustring) : list ustring :=
  jsSplitLoop sep s [].

(** ** Numerals *)

Definition isDigit (c : char) : bool := ((48 <=? c) && (c <=? 57))%N.

Definition digitVal (c : char) : option Z :=
  if ((48 <=? c) && (c <=? 57))%N then Some (Z.of_N c - 48)%Z else None.

Definition hexDigitVal (c : char) : option Z :=
  if ((48 <=? c) && (c <=? 57))%N then Some (Z.of_N c - 48)%Z
  else if ((65 <=? c) && (c <=? 70))%N then Some (Z.of_N c - 55)%Z
  else if ((97 <=? c) && (c <=? 102))%N then Some (Z.of_N c - 87)%Z
  else None.

(** Value of a string made of decimal digits only. *)
Fixpoint digitsVal (s : ustring) (acc : Z) : option Z :=
  match s with
  | [] => Some acc
  | c :: r =>
    match digitVal c with
    | Some d => digitsVal r (acc * 10 + d)%Z
    | None => None
    end
  end.

Definition Int_min : Z := (- 2 ^ 63)%Z.
Definition Int_max : Z := (2 ^ 63 - 1)%Z.

(** Swift's [Int(_ description: String)]: an optional sign followed by one
    or more ASCII digits, [nil] on anything else and on 64-bit overflow. *)
Definition Int_of_string (s : ustring) : option Z :=
  let '(neg, ds) :=
    match s with
    | c :: r => if (c =? MINUS)%N then (true, r)
                else if (c =? PLUS)%N then (false, r) else (false, s)
    | [] => (false, [])
    end in
  match ds with
  | [] => None
  | _ =>
    match digitsVal ds 0 with
    | Some v =>
      let z := if neg then (- v)%Z else v in
      if ((Int_min <=? z) && (z <=? Int_max))%Z then Some z else None
    | None => None
    end
  end.

(** The longest prefix of digits of the radix, read as a number. *)
Fixpoint leadingDigits (digit : char -> option Z) (radix : Z) (s : ustring)
    (acc : option Z) : option Z :=
  match s with
  | [] => acc
  | c :: r =>
    match digit c with
    | Some d => leadingDigits digit radix r (Some (default 0%Z acc * radix + d)%Z)
    | None => acc
    end
  end.

(** An integer-valued JavaScript Number, or NaN.  The integer is the
    mathematical value; it is the Number itself within the safe range
    [|z| <= 2^53]. *)
Inductive JSNumber := JSInt (z : Z) | JSNaN.

(** JavaScript [parseInt(s)] without a radix: leading white space is
    skipped, then an optional sign, an optional [0x]/[0X] prefix and the
    longest run of digits; NaN when that run is empty. *)
Definition parseInt (s : ustring) : JSNumber :=
  let s1 := dropWhile isJSWhitespace s in
  let '(neg, s2) :=
    match s1 with
    | c :: r => if (c =? MINUS)%N then (true, r)
                else if (c =? PLUS)%N then (false, r) else (false, s1)
    | [] => (false, [])
    end in
  let v :=
    match s2 with
    | z :: x :: r =>
      if ((z =? 48) && ((x =? 120) || (x =? 88)))%N
      then leadingDigits hexDigitVal 16 r None
      else leadingDigits digitVal 10 s2 None
    | _ => leadingDigits digitVal 10 s2 None
    end in
  match v with
  | Some z => JSInt (if neg then - z else z)
  | None => JSNaN
  end.

(** Decimal rendering of an integer: Swift string interpolation of an
    [Int]; JavaScript [String(n)] for a safe integer (see [numberToString]
    below for the integers beyond). *)
Fixpoint uintChars (d : Decimal.uint) : ustring :=
  match d with
  | Nil => []
  | D0 r => 48%N :: uintChars r
  | D1 r => 49%N :: uintChars r
  | D2 r => 50%N :: uintChars r
  | D3 r => 51%N :: uintChars r
  | D4 r => 52%N :: uintChars r
  | D5 r => 53%N :: uintChars r
  | D6 r => 54%N :: uintChars r
  | D7 r => 55%N :: uintChars r
  | D8 r => 56%N :: uintChars r
  | D9 r => 57%N :: uintChars r
  end.

Definition decimal (z : Z) : ustring :=
  match Z.to_int z with
  | Decimal.Pos d => uintChars d
  | Decimal.Neg d => MINUS :: uintChars d
  end.

(** ** JavaScript Numbers that hold an integer *)

(** A Number is a binary64 value; one that holds an integer is modelled by
    that integer.  [toNumber z] is the Number nearest to the integer [z]
    (to nearest, ties to the even significand of 53 bits), which is what a
    numeral of [z] denotes; it is [z] itself exactly when [z] is a Number.
    From [2^1024] on in magnitude the result stands for an infinity. *)
Definition toNumber (z : Z) : Z :=
  let a := Z.abs z in
  let shift := (Z.log2 a - 52)%Z in
  if (shift <=? 0)%Z then z
  else
    let q := (a / 2 ^ shift)%Z in
    let r := (a mod 2 ^ shift)%Z in
    let half := (2 ^ (shift - 1))%Z in
    let q' := if (half <? r)%Z || ((r =? half)%Z && Z.odd q) then (q + 1)%Z else q in
    (Z.sgn z * (q' * 2 ^ shift))%Z.

(** [Number::toString] picks the shortest decimal numeral that denotes the
    Number [x], and the one nearest to [x] among the shortest (of two
    equally near, the one with the even last digit).  For a positive
    integer [x] the candidates with at least [j] trailing zeros are the two
    multiples of [10^j] around [x]; the search goes from many zeros to
    none. *)
Fixpoint shortestFrom (x : Z) (j : nat) : Z :=
  let p := (10 ^ Z.of_nat j)%Z in
  let lo := (x - x mod p)%Z in
  let hi := (lo + p)%Z in
  let okLo := (0 <? lo)%Z && (toNumber lo =? x)%Z in
  let okHi := (toNumber hi =? x)%Z in
  match okLo, okHi with
  | true, true =>
    if (x - lo <? hi - x)%Z then lo
    else if (hi - x <? x - lo)%Z then hi
    else if Z.even (lo / p) then lo else hi
  | true, false => lo
  | false, true => hi
  | false, false =>
    match j with
    | O => x
    | S j' => shortestFrom x j'
    end
  end.

Definition shortest (x : Z) : Z := shortestFrom x (Z.to_nat (Z.log2 x + 1)).

(** [String(x)] for a positive Number [x] below the infinities: the digits
    of the shortest numeral when there are at most 21 of them, the
    exponent form otherwise. *)
Definition exponentForm (digits : ustring) : ustring :=
  let exponent := uintChars (Nat.to_uint (length digits - 1)) in
  let significand := rev (dropWhile (fun c => (c =? 48)%N) (rev digits)) in
  match significand with
  | [] => []
  | [d] => d :: lit "e+" ++ exponent
  | d :: more => d :: 46%N :: more ++ lit "e+" ++ exponent
  end.

Definition renderPositive (x : Z) : ustring :=
  let v := shortest x in
  if (v <? 10 ^ 21)%Z then decimal v else exponentForm (decimal v).

(** [String(n)] for the Number that the integer [n] denotes. *)
Definition numberToString (n : Z) : ustring :=
  let x := toNumber n in
  if (x =? 0)%Z then lit "0"
  else
    let sign := if (x <? 0)%Z then [MINUS] else [] in
    if (2 ^ 1024 <=? Z.abs x)%Z then sign ++ lit "Infinity"
    else sign ++ renderPositive (Z.abs x).

(** [Number.isSafeInteger]. *)
Definition isSafeInteger (n : Z) : Prop := (Z.abs n <= 2 ^ 53 - 1)%Z.

(** The character [c] does not occur in [s]. *)
Definition absent (c : char) (s : ustring) : Prop :=
  forallb (fun x => negb (x =? c)%N) s = true.

(** A track label: prefix, number, and the name between an opening and a
    closing quote character. *)
Definition label (prefix : ustring) (number : Z) (opening : char)
    (name : ustring) (closing : char) : ustring :=
  prefix ++ SPACE :: decimal number ++ SPACE :: opening :: name ++ [closing].

(** What precedes the opening quote of a label. *)
Definition labelHead (prefix : ustring) (number : Z) : ustring :=
  prefix ++ SPACE :: decimal number ++ [SPACE].

(** ** ASCII case *)

Definition isASCII (c : char) : bool := (c <? 128)%N.

Definition asciiLower (c : char) : char :=
  if ((65 <=? c) && (c <=? 90))%N then (c + 32)%N else c.

(** The text does not start with a character of the class. *)
Definition startsClean (p : char -> bool) (s : ustring) : Prop :=
  match s with
  | c :: _ => p c = false
  | [] => True
  end.

End Text.

(* ===================================================================== *)
(** * The privileged backend: swift-helper/Sources/LogicAccessibility/main.swift *)
(* ===================================================================== *)

Module Swift.
Import Text.

(** One dictionary appended by [collectTrackElements]. *)
Record Track := mkTrack {
  index : Z;
  trackNumber : Z;
  name : ustring;
  muted : bool;
  solo : bool;
  recordEnabled : bool;
  volume : Z;
  plugins : list ustring
}.

(** One dictionary appended by [findParameters]. *)
Record Param := mkParam {
  paramName : ustring;
  paramValue : ustring;
  paramRole : ustring
}.

(** One dictionary appended by [dumpElementInfo]. *)
Record DumpEntry := mkDumpEntry {
  dumpDepth : ustring;
  dumpRole : ustring;
  dumpTitle : ustring;
  dumpDescription : ustring;
  dumpValue : ustring
}.

(** The functions of the Swift standard library and of Foundation whose
    results the helper only passes on: the [Float] parser, [NSNumber]'s
    [stringValue], [String.lowercased] and [JSONSerialization].  Of
    [lowercased] the one law used is what it does to ASCII text. *)
Class Foundation := {
  Float : Type;
  Float_of_string : ustring -> option Float;
  stringValue : Float -> ustring;
  lowercased : ustring -> ustring;
  serializeTracks : list Track -> ustring;
  serializeParams : list Param -> ustring;
  serializeDump : list DumpEntry -> ustring;
  lowercased_ascii :
    forall s, forallb isASCII s = true -> lowercased s = map asciiLower s
}.

Section Helper.
Context `{Foundation}.

(** ** Element model *)

(** What [kAXValueAttribute] can hold: a string, a number, or something
    else, of which only its description is ever read. *)
Inductive AXValue :=
| AXString (s : ustring)
| AXNumber (f : Float)
| AXOther (description : ustring).

Record Attrs := mkAttrs {
  axRole : option ustring;
  axTitle : option ustring;
  axDescription : option ustring;
  axValue : option AXValue
}.

#[warnings="-register-all"]
Inductive Element := mkElement {
  attrs : Attrs;
  axChildren : list Element
}.

Definition getChildren (element : Element) : list Element := axChildren element.
Definition getRole (element : Element) : option ustring := axRole (attrs element).
Definition getTitle (element : Element) : option ustring := axTitle (attrs element).
Definition getDescription (element : Element) : option ustring :=
  axDescription (attrs element).

Definition getValue (element : Element) : option ustring :=
  match axValue (attrs element) with
  | None => None
  | Some (AXString str) => Some str
  | Some (AXNumber num) => Some (stringValue num)
  | Some (AXOther d) => Some d
  end.

(** [AXUIElementSetAttributeValue(element, kAXValueAttribute, v)]: the host
    stores the value; the helper ignores the returned status. *)
Definition setValueAttribute (element : Element) (v : AXValue) : Element :=
  mkElement
    (mkAttrs (axRole (attrs element)) (axTitle (attrs element))
             (axDescription (attrs element)) (Some v))
    (axChildren element).

(** The running application: its children (the windows among them) and
    which of them the main-window attribute designates. *)
Record App := mkApp {
  appChildren : list Element;
  mainWindowIndex : option nat
}.

(** The machine the helper runs on: Logic Pro, when it is running, and
    whether the helper process is trusted for accessibility. *)
Record Host := mkHost {
  logicPro : option App;
  trusted : bool
}.

Definition mainWindow (app : App) : option Element :=
  match mainWindowIndex app with
  | Some i => appChildren app !! i
  | None => None
  end.

(** ** What a run of the helper leaves behind *)

Record Run := mkRun {
  stdout : list ustring;     (* one entry per [print] *)
  stderr : list ustring;     (* one entry per [printError] *)
  exitCode : Z
}.

Definition printError (message : ustring) : ustring :=
  lit "[logic-ax] " ++ message ++ lit "
".

Definition usageText : ustring :=
  lit "Usage: LogicAccessibility <command> [args...]

Commands:
  check-access                             Check if accessibility access is granted
  list-tracks                              List all tracks with plugins
  get-params <trackIndex> <slotIndex>      Get plugin parameters
  set-param <trackIndex> <slotIndex> <p> <v>  Set a plugin parameter
  query [depth]                            Debug: dump main window UI tree
  query-spuren [depth]                     Debug: dump only the Spuren/Tracks area".

(** ** Pattern matchers *)

Definition isTrackDescription (desc : ustring) : bool :=
  hasPrefix (lit "Spur ") desc || hasPrefix (lit "Track ") desc.

Definition extractTrackName (desc : ustring) : ustring :=
  match indexOf [LOW9] desc with
  | Some i =>
    let name := drop (i + 1) desc in
    let name := removeChar LDQUO name in
    let name := removeChar RDQUO name in
    let name := removeChar DQUOTE name in
    swiftTrim name
  | None =>
    match indexOf [DQUOTE] desc with
    | Some i =>
      let name := drop (i + 1) desc in
      let name := match indexOf [DQUOTE] name with
                  | Some j => take j name
                  | None => name
                  end in
      swiftTrim name
    | None =>
      let parts := swiftSplit SPACE (Some 2) desc in
      if 3 <=? length parts then default [] (parts !! 2) else desc
    end
  end.

Definition extractTrackNumber (desc : ustring) : Z :=
  let parts := swiftSplit SPACE None desc in
  match parts !! 1 with
  | Some p => match Int_of_string p with
              | Some num => num
              | None => (-1)%Z
              end
  | None => (-1)%Z
  end.

(** The test on line 388, [name.lowercased() == paramName.lowercased()]. *)
Definition matchesControlName (name paramName : ustring) : bool :=
  eqb (lowercased name) (lowercased paramName).

(** ** Track extraction *)

Record Meta := mkMeta {
  metaMuted : bool;
  metaSolo : bool;
  metaRecordEnabled : bool;
  metaVolume : Z
}.

Definition extractTrackMetaStep (meta : Meta) (child : Element) : Meta :=
  let role := default [] (getRole child) in
  let desc := default [] (getDescription child) in
  let value := default [] (getValue child) in
  if eqb role (lit "AXCheckBox") then
    if eqb desc (lit "Mute") then
      mkMeta (eqb value (lit "1")) (metaSolo meta) (metaRecordEnabled meta) (metaVolume meta)
    else if eqb desc (lit "Solo") then
      mkMeta (metaMuted meta) (eqb value (lit "1")) (metaRecordEnabled meta) (metaVolume meta)
    else if contains (lit "Aufnahme") desc || contains (lit "Record") desc then
      mkMeta (metaMuted meta) (metaSolo meta) (eqb value (lit "1")) (metaVolume meta)
    else meta
  else if eqb role (lit "AXSlider") && eqb desc (lit "Volume") then
    mkMeta (metaMuted meta) (metaSolo meta) (metaRecordEnabled meta)
           (default 0%Z (Int_of_string value))
  else meta.

Definition extractTrackMeta (children : list Element) : Meta :=
  fold_left extractTrackMetaStep children (mkMeta false false false 0%Z).

Definition isPluginButton (element : Element) : bool :=
  let role := default [] (getRole element) in
  let title := default [] (getTitle element) in
  eqb role (lit "AXButton") && negb (isEmptyList title)
  && negb (eqb title (lit "M")) && negb (eqb title (lit "S"))
  && negb (eqb title (lit "R")).

(** The body of the loop of [findPluginNames] for one element: its own
    title when it qualifies, then the names found below it.  There is no
    depth parameter. *)
Fixpoint findPluginNamesAt (element : Element) (plugins : list ustring)
  : list ustring :=
  let plugins1 :=
    if isPluginButton element
    then plugins ++ [default [] (getTitle element)] else plugins in
  let children := getChildren element in
  if negb (isEmptyList children)
  then plugins1 ++ fold_left (fun acc e => findPluginNamesAt e acc) children []
  else plugins1.

Definition findPluginNames (elements : list Element) : list ustring :=
  fold_left (fun plugins e => findPluginNamesAt e plugins) elements [].

Definition isTrackElement (element : Element) : bool :=
  eqb (default [] (getRole element)) (lit "AXLayoutItem")
  && isTrackDescription (default [] (getDescription element)).

(** The dictionary appended for a matching element, given the tracks
    collected so far. *)
Definition trackOf (tracks : list Track) (element : Element) : Track :=
  let desc := default [] (getDescription element) in
  let children := getChildren element in
  let trackMeta := extractTrackMeta children in
  mkTrack (Z.of_nat (length tracks)) (extractTrackNumber desc)
          (extractTrackName desc)
          (metaMuted trackMeta) (metaSolo trackMeta)
          (metaRecordEnabled trackMeta) (metaVolume trackMeta)
          (findPluginNames children).

(** The body of the loop of [collectTrackElements] for one element at
    [depth]; the recursive call on the children carries its guard. *)
Fixpoint collectTrackElementsAt (element : Element) (tracks : list Track)
    (depth maxDepth : Z) : list Track :=
  let tracks1 :=
    if isTrackElement element then tracks ++ [trackOf tracks element]
    else tracks in
  let children := getChildren element in
  if negb (isEmptyList children) then
    if (depth + 1 <? maxDepth)%Z
    then fold_left
           (fun acc e => collectTrackElementsAt e acc (depth + 1) maxDepth)
           children tracks1
    else tracks1
  else tracks1.

Definition collectTrackElements (elements : list Element) (tracks : list Track)
    (depth maxDepth : Z) : list Track :=
  if (depth <? maxDepth)%Z
  then fold_left (fun acc e => collectTrackElementsAt e acc depth maxDepth)
                 elements tracks
  else tracks.

Definition extractTracks (spurenGroup : Element) : list Track :=
  collectTrackElements (getChildren spurenGroup) [] 0 12.

(** First result of [f] over the list, in order. *)
Fixpoint firstSome {A B} (f : A -> option B) (l : list A) : option B :=
  match l with
  | [] => None
  | x :: r => match f x with Some y => Some y | None => firstSome f r end
  end.

Fixpoint findElementByDescription (root : Element) (description : ustring)
    (maxDepth : Z) : option Element :=
  let children := getChildren root in
  match List.find
          (fun child => eqb (default [] (getDescription child)) description)
          children with
  | Some child => Some child
  | None =>
    if (0 <? maxDepth)%Z
    then firstSome
           (fun child => findElementByDescription child description (maxDepth - 1))
           children
    else None
  end.

Definition outputTracks (tracks : list Track) : Run :=
  mkRun [serializeTracks tracks] [] 0.

Definition listTracks (host : Host) : Run :=
  match logicPro host with
  | None => mkRun [lit "[]"] [printError (lit "Logic Pro is not running")] 0
  | Some app =>
    match mainWindow app with
    | None => mkRun [lit "[]"] [] 0
    | Some mainWindow =>
      match findElementByDescription mainWindow (lit "Spuren") 4 with
      | Some spurenGroup => outputTracks (extractTracks spurenGroup)
      | None =>
        match findElementByDescription mainWindow (lit "Tracks") 4 with
        | Some tracksGroup => outputTracks (extractTracks tracksGroup)
        | None =>
          mkRun [lit "[]"]
                [printError (lit "Could not find tracks area in Logic Pro window")]
                0
        end
      end
    end
  end.

(** ** Reading parameters *)

Definition isParameterRole (role : ustring) : bool :=
  eqb role (lit "AXSlider") || eqb role (lit "AXTextField")
  || eqb role (lit "AXPopUpButton").

(** The label of a control: its description, or its title when the
    description is empty. *)
Definition controlName (element : Element) : ustring :=
  let title := default [] (getTitle element) in
  let desc := default [] (getDescription element) in
  if negb (isEmptyList desc) then desc else title.

(** What [findParameters] appends for one element, if anything. *)
Definition paramOf (element : Element) : option Param :=
  let role := default [] (getRole element) in
  if isParameterRole role then
    let name := controlName element in
    if negb (isEmptyList name)
    then Some (mkParam name (default [] (getValue element)) role)
    else None
  else None.

Fixpoint findParametersAt (element : Element) (params : list Param)
    (depth maxDepth : Z) : list Param :=
  let params1 :=
    match paramOf element with
    | Some p => params ++ [p]
    | None => params
    end in
  let children := getChildren element in
  if negb (isEmptyList children) then
    if (depth + 1 <? maxDepth)%Z
    then fold_left (fun acc e => findParametersAt e acc (depth + 1) maxDepth)
                   children params1
    else params1
  else params1.

Definition findParameters (elements : list Element) (params : list Param)
    (depth maxDepth : Z) : list Param :=
  if (depth <? maxDepth)%Z
  then fold_left (fun acc e => findParametersAt e acc depth maxDepth)
                 elements params
  else params.

Definition getPluginParameters (trackIndex slotIndex : Z) (host : Host) : Run :=
  match logicPro host with
  | None => mkRun [lit "[]"] [printError (lit "Logic Pro is not running")] 0
  | Some app =>
    match mainWindow app with
    | None => mkRun [lit "[]"] [] 0
    | Some _ =>
      let windows := appChildren app in
      let params :=
        fold_left (fun params window =>
                     findParameters (getChildren window) params 0 8)
                  windows [] in
      mkRun [serializeParams params] [] 0
    end
  end.

(** ** Writing a parameter *)

(** A loop that returns at the first element on which [step] succeeds;
    the second component is the list as the loop leaves it. *)
Fixpoint untilFound {A} (step : A -> bool * A) (l : list A) : bool * list A :=
  match l with
  | [] => (false, [])
  | x :: r =>
    let '(found, x') := step x in
    if found then (true, x' :: r)
    else let '(found', r') := untilFound step r in (found', x' :: r')
  end.

(** The write attempted on a matching element (lines 388 to 398): a
    number for a slider when the text parses as one, the text itself for a
    text field, nothing otherwise. *)
Definition writeFor (element : Element) (paramName value : ustring)
  : option AXValue :=
  let role := default [] (getRole element) in
  if matchesControlName (controlName element) paramName then
    if eqb role (lit "AXSlider") then
      match Float_of_string value with
      | Some numValue => Some (AXNumber numValue)
      | None => None
      end
    else if eqb role (lit "AXTextField") then Some (AXString value)
    else None
  else None.

(** The body of the loop of [findAndSetParameter] for one element at
    [depth]: whether it returned [true], and the element afterwards. *)
Fixpoint findAndSetParameterAt (element : Element) (paramName value : ustring)
    (depth maxDepth : Z) : bool * Element :=
  match writeFor element paramName value with
  | Some v => (true, setValueAttribute element v)
  | None =>
    let children := getChildren element in
    if negb (isEmptyList children) then
      if (depth + 1 <? maxDepth)%Z then
        let '(found, children') :=
          untilFound
            (fun e => findAndSetParameterAt e paramName value (depth + 1) maxDepth)
            children in
        (found, mkElement (attrs element) children')
      else (false, element)
    else (false, element)
  end.

Definition findAndSetParameter (elements : list Element)
    (paramName value : ustring) (depth maxDepth : Z) : bool * list Element :=
  if (depth <? maxDepth)%Z
  then untilFound
         (fun e => findAndSetParameterAt e paramName value depth maxDepth)
         elements
  else (false, elements).

Definition notFoundMessage (paramName : ustring) : ustring :=
  lit "Parameter '" ++ paramName
  ++ lit "' not found. Ensure the plugin window is open in Controls view.".

Definition setPluginParameter (trackIndex slotIndex : Z)
    (paramName value : ustring) (host : Host) : Run * Host :=
  match logicPro host with
  | None =>
    (mkRun [] [printError (lit "Logic Pro is not running");
               printError (lit "Logic Pro not running")] 0, host)
  | Some app =>
    let windows := appChildren app in
    let '(found, windows') :=
      untilFound
        (fun window =>
           let '(found, children') :=
             findAndSetParameter (getChildren window) paramName value 0 8 in
           (found, mkElement (attrs window) children'))
        windows in
    if found
    then (mkRun [lit "Parameter set successfully"] [] 0,
          mkHost (Some (mkApp windows' (mainWindowIndex app))) (trusted host))
    else (mkRun [] [printError (notFoundMessage paramName)] 0, host)
  end.

(** ** Debug dumps and the entry point *)

Fixpoint dumpElementInfo (element : Element) (result : list DumpEntry)
    (depth maxDepth : Z) : list DumpEntry :=
  if (depth <? maxDepth)%Z then
    let entry :=
      mkDumpEntry (decimal depth)
                  (default (lit "unknown") (getRole element))
                  (default [] (getTitle element))
                  (default [] (getDescription element))
                  (default [] (getValue element)) in
    fold_left (fun acc child => dumpElementInfo child acc (depth + 1) maxDepth)
              (getChildren element) (result ++ [entry])
  else result.

Definition queryElement (maxDepth : Z) (host : Host) : Run :=
  match logicPro host with
  | None => mkRun [lit "{}"] [printError (lit "Logic Pro is not running")] 0
  | Some app =>
    match mainWindow app with
    | None => mkRun [lit "{}"] [] 0
    | Some mainWindow =>
      mkRun [serializeDump (dumpElementInfo mainWindow [] 0 maxDepth)] [] 0
    end
  end.

Definition querySpuren (maxDepth : Z) (host : Host) : Run :=
  match logicPro host with
  | None => mkRun [lit "{}"] [printError (lit "Logic Pro is not running")] 0
  | Some app =>
    match mainWindow app with
    | None => mkRun [lit "{}"] [] 0
    | Some mainWindow =>
      match findElementByDescription mainWindow (lit "Spuren") 4 with
      | Some spuren =>
        mkRun [serializeDump (dumpElementInfo spuren [] 0 maxDepth)] [] 0
      | None =>
        match findElementByDescription mainWindow (lit "Tracks") 4 with
        | Some tracks =>
          mkRun [serializeDump (dumpElementInfo tracks [] 0 maxDepth)] [] 0
        | None => mkRun [lit "[]"] [] 0
        end
      end
    end
  end.

Definition checkAccessibility (host : Host) : Run :=
  if trusted host then mkRun [lit "accessibility: granted"] [] 0
  else mkRun
         [lit "accessibility: denied – please grant access in System Settings → Privacy → Accessibility"]
         [] 0.

Definition usageFailure (message : ustring) : Run :=
  mkRun [] [printError message] 1.

(** The top-level code: [args] is [CommandLine.arguments], program name
    first. *)
Definition main (args : list ustring) (host : Host) : Run * Host :=
  match args with
  | _ :: command :: rest =>
    if eqb command (lit "check-access") then (checkAccessibility host, host)
    else if eqb command (lit "list-tracks") then (listTracks host, host)
    else if eqb command (lit "get-params") then
      match rest with
      | a2 :: a3 :: _ =>
        match Int_of_string a2, Int_of_string a3 with
        | Some trackIdx, Some slotIdx =>
          (getPluginParameters trackIdx slotIdx host, host)
        | _, _ =>
          (usageFailure (lit "Usage: logic-ax get-params <trackIndex> <slotIndex>"), host)
        end
      | _ =>
        (usageFailure (lit "Usage: logic-ax get-params <trackIndex> <slotIndex>"), host)
      end
    else if eqb command (lit "set-param") then
      match rest with
      | a2 :: a3 :: paramName :: value :: _ =>
        match Int_of_string a2, Int_of_string a3 with
        | Some trackIdx, Some slotIdx =>
          setPluginParameter trackIdx slotIdx paramName value host
        | _, _ =>
          (usageFailure
             (lit "Usage: logic-ax set-param <trackIndex> <slotIndex> <paramName> <value>"),
           host)
        end
      | _ =>
        (usageFailure
           (lit "Usage: logic-ax set-param <trackIndex> <slotIndex> <paramName> <value>"),
         host)
      end
    else if eqb command (lit "query") then
      (queryElement
         (match rest with a2 :: _ => default 6%Z (Int_of_string a2) | [] => 6%Z end)
         host, host)
    else if eqb command (lit "query-spuren") then
      (querySpuren
         (match rest with a2 :: _ => default 10%Z (Int_of_string a2) | [] => 10%Z end)
         host, host)
    else (mkRun [usageText] [printError (lit "Unknown command: " ++ command)] 1, host)
  | _ => (mkRun [usageText] [] 1, host)
  end.

(** ** Vocabulary for the properties *)

(** The elements of a forest in pre-order (an element before its
    children, siblings in order), each with its depth; the roots are at
    [depth]. *)
Fixpoint preorderAt (depth : Z) (element : Element) : list (Z * Element) :=
  (depth, element)
    :: flat_map (preorderAt (depth + 1)) (axChildren element).

Definition preorder (depth : Z) (elements : list Element) : list (Z * Element) :=
  flat_map (preorderAt depth) elements.

(** The attributes of the elements in pre-order, with their depths: two
    forests with the same listing are the same forest. *)
Definition entry (x : Z * Element) : Z * Attrs := (x.1, attrs x.2).

Definition listing (depth : Z) (elements : list Element) : list (Z * Attrs) :=
  map entry (preorder depth elements).

(** The entries a walk bounded by [maxDepth] reaches. *)
Definition within (maxDepth : Z) {A} (l : list (Z * A)) : list (Z * A) :=
  List.filter (fun '(d, _) => (d <? maxDepth)%Z) l.

(** The elements a walk from [elements] bounded by [maxDepth] reaches, in
    the order it reaches them. *)
Definition reached (maxDepth : Z) (elements : list Element) : list Element :=
  map snd (within maxDepth (preorder 0 elements)).

(** The attributes of the elements a bounded walk reaches, with their
    depths. *)
Definition reachedListing (maxDepth : Z) (elements : list Element)
  : list (Z * Attrs) :=
  within maxDepth (listing 0 elements).

(** What identifies a collected track: position, number and name. *)
Definition trackKey (t : Track) : Z * Z * ustring :=
  (index t, trackNumber t, name t).

(** The dictionaries of the given track elements, numbered as they are
    appended. *)
Definition tracksFrom (tracks : list Track) (elements : list Element)
  : list Track :=
  fold_left (fun acc e => acc ++ [trackOf acc e]) elements tracks.

(** The titles of the plugin buttons among the given elements. *)
Definition pluginTitles (elements : list Element) : list ustring :=
  map (fun e => default [] (getTitle e)) (List.filter isPluginButton elements).

(** What the loops of [collectTrackElements] and [findParameters] do to
    their accumulator at one element, before they descend. *)
Definition trackStep (tracks : list Track) (e : Element) : list Track :=
  if isTrackElement e then tracks ++ [trackOf tracks e] else tracks.

Definition paramStep (params : list Param) (e : Element) : list Param :=
  match paramOf e with Some p => params ++ [p] | None => params end.

(** Position of the first entry that satisfies [p]. *)
Fixpoint findIndex {A} (p : A -> bool) (l : list A) : option nat :=
  match l with
  | [] => None
  | x :: r => if p x then Some 0 else S <$> findIndex p r
  end.

(** An element on which [findAndSetParameter] writes: its label matches
    and its role takes the value. *)
Definition accepts (paramName value : ustring) (element : Element) : bool :=
  match writeFor element paramName value with Some _ => true | None => false end.

(** An entry of a listing that a search bounded by [maxDepth] writes on. *)
Definition accepting (paramName value : ustring) (maxDepth : Z)
    (x : Z * Element) : bool :=
  accepts paramName value x.2 && (x.1 <? maxDepth)%Z.

(** What a search that writes on the first accepting entry, and on nothing
    else, leaves of a listing: [found] and the listing [after]. *)
Definition writeOutcome (paramName value : ustring) (maxDepth : Z)
    (before : list (Z * Element)) (found : bool) (after : list (Z * Attrs))
  : Prop :=
  match findIndex (accepting paramName value maxDepth) before with
  | Some i =>
    found = true
    /\ exists d e v,
         before !! i = Some (d, e)
         /\ writeFor e paramName value = Some v
         /\ after = <[i := (d, attrs (setValueAttribute e v))]> (map entry before)
  | None => found = false /\ after = map entry before
  end.

(** A control of a writable role (slider or text field) whose label
    matches the parameter name. *)
Definition writableMatch (paramName : ustring) (element : Element) : bool :=
  let role := default [] (getRole element) in
  matchesControlName (controlName element) paramName
  && (eqb role (lit "AXSlider") || eqb role (lit "AXTextField")).

(** The attributes hold the new value: as text, or as the number the text
    denotes. *)
Definition holdsValue (value : ustring) (a : Attrs) : Prop :=
  match axValue a with
  | Some (AXString s) => s = value
  | Some (AXNumber f) => Float_of_string value = Some f
  | _ => False
  end.

(** The depth bound as the description states it, for a walk: elements
    deeper than [maxDepth] play no part in it, so that two forests which
    agree on their elements of depth up to [maxDepth] give the same
    result. *)
Definition boundAsStated {R} (walk : list Element -> Z -> R) : Prop :=
  forall maxDepth elements elements',
    reachedListing (maxDepth + 1) elements
    = reachedListing (maxDepth + 1) elements' ->
    walk elements maxDepth = walk elements' maxDepth.

(** Two elements that the collection of tracks cannot tell apart: the
    same attributes and, when they are track rows, the same children. *)
Definition alikeForTracks (e e' : Element) : Prop :=
  attrs e = attrs e'
  /\ (isTrackElement e = true -> axChildren e = axChildren e').


(** The tie-break as the description states it, for a search from
    [elements]: when the first writable control with a matching label is
    at position [i] of the pre-order and another one follows at [j], the
    search succeeds, the one at [i] holds the new value afterwards and the
    one at [j] is as it was. *)
Definition tieBreakAsStated (elements : list Element)
    (paramName value : ustring) (maxDepth : Z) : Prop :=
  forall i j y,
    findIndex (fun x => writableMatch paramName x.2) (preorder 0 elements)
    = Some i ->
    i < j ->
    preorder 0 elements !! j = Some y ->
    writableMatch paramName y.2 = true ->
    let r := findAndSetParameter elements paramName value 0 maxDepth in
    r.1 = true
    /\ (exists d a, listing 0 r.2 !! i = Some (d, a) /\ holdsValue value a)
    /\ listing 0 r.2 !! j = Some (entry y).

(** ** Vocabulary for the searches, the dumps and the track flags *)

(** The test of [findElementByDescription] on one element. *)
Definition describedAs (description : ustring) (element : Element) : bool :=
  eqb (default [] (getDescription element)) description.

(** The number of levels below the root that a search with [maxDepth]
    looks at: the children always, and one more level for every unit of a
    positive [maxDepth]. *)
Definition searchLevels (maxDepth : Z) : Z := (Z.max maxDepth 0 + 1)%Z.

(** The dictionary [dumpElementInfo] appends for an element at a depth. *)
Definition dumpEntryOf (x : Z * Element) : DumpEntry :=
  mkDumpEntry (decimal x.1)
              (default (lit "unknown") (getRole x.2))
              (default [] (getTitle x.2))
              (default [] (getDescription x.2))
              (default [] (getValue x.2)).

(** The children [extractTrackMeta] reads a field from. *)
Definition isCheckBox (child : Element) : bool :=
  eqb (default [] (getRole child)) (lit "AXCheckBox").

Definition isMuteBox (child : Element) : bool :=
  isCheckBox child && eqb (default [] (getDescription child)) (lit "Mute").

Definition isSoloBox (child : Element) : bool :=
  isCheckBox child && eqb (default [] (getDescription child)) (lit "Solo").

Definition isRecordBox (child : Element) : bool :=
  isCheckBox child
  && (contains (lit "Aufnahme") (default [] (getDescription child))
      || contains (lit "Record") (default [] (getDescription child))).

Definition isVolumeSlider (child : Element) : bool :=
  eqb (default [] (getRole child)) (lit "AXSlider")
  && eqb (default [] (getDescription child)) (lit "Volume").

(** The value reads as switched on. *)
Definition isOn (child : Element) : bool :=
  eqb (default [] (getValue child)) (lit "1").

Definition volumeOf (child : Element) : Z :=
  default 0%Z (Int_of_string (default [] (getValue child))).

(** The parameters [getPluginParameters] collects below one window. *)
Definition windowParameters (window : Element) : list Param :=
  omap paramOf (reached 8 (getChildren window)).

(** The text a written value reads back as. *)
Definition valueText (v : AXValue) : ustring :=
  match v with
  | AXString s => s
  | AXNumber f => stringValue f
  | AXOther d => d
  end.

(** Some control below the window, within the eight levels that
    [setPluginParameter] searches, takes the value. *)
Definition windowAccepts (paramName value : ustring) (window : Element) : bool :=
  existsb (accepting paramName value 8) (preorder 0 (getChildren window)).

(** The command lines [main] runs a command for; every other one is a
    usage error. *)
Definition wellFormed (args : list ustring) : bool :=
  match args with
  | _ :: command :: rest =>
    if eqb command (lit "check-access") || eqb command (lit "list-tracks")
       || eqb command (lit "query") || eqb command (lit "query-spuren")
    then true
    else if eqb command (lit "get-params") then
      match rest with
      | a2 :: a3 :: _ =>
        bool_decide (is_Some (Int_of_string a2))
        && bool_decide (is_Some (Int_of_string a3))
      | _ => false
      end
    else if eqb command (lit "set-param") then
      match rest with
      | a2 :: a3 :: _ :: _ :: _ =>
        bool_decide (is_Some (Int_of_string a2))
        && bool_decide (is_Some (Int_of_string a3))
      | _ => false
      end
    else false
  | _ => false
  end.

(** An entry of a listing, [j] levels further down. *)
Definition deeper (j : Z) (x : Z * Element) : Z * Element := ((x.1 + j)%Z, x.2).

(** Whether [setPluginParameter] finds a control to write on. *)
Definition parameterTaken (paramName value : ustring) (host : Host) : bool :=
  match logicPro host with
  | Some app => existsb (windowAccepts paramName value) (appChildren app)
  | None => false
  end.

End Helper.
End Swift.

(* ===================================================================== *)
(** * The fallback backend: the JXA script of src/bridges/accessibility.ts *)
(* ===================================================================== *)

(** The script walks the same accessibility tree through System Events.
    [element.groups()] are the children of role [AXGroup],
    [element.uiElements()] all children; an attribute that is absent makes
    the accessor throw or return [null], and either way the surrounding
    [try] or the [desc &&] test skips the element. *)
Module JXA.
Import Text.

(** The object pushed by [findTracks], on the fields the properties read.
    [muted], [solo], [recordEnabled] and [volume] come from JavaScript's
    loose comparison [cv == 1] and [parseInt(cv) || 0] on the children's
    values and are left out. *)
Record Track := mkTrack {
  index : Z;
  trackNumber : JSNumber;
  name : ustring;
  plugins : list ustring
}.

Definition removeQuotes (s : ustring) : ustring :=
  List.filter
    (fun x => negb ((x =? LDQUO)%N || (x =? RDQUO)%N || (x =? DQUOTE)%N)) s.

(** Lines 110 to 123: the name of a track from its description. *)
Definition trackName (desc : ustring) : ustring :=
  match indexOf [LOW9] desc with
  | Some qStart => jsTrim (removeQuotes (drop (qStart + 1) desc))
  | None =>
    match indexOf [DQUOTE] desc with
    | Some dqStart =>
      let name := drop (dqStart + 1) desc in
      match lastIndexOfChar DQUOTE name with
      | Some dqEnd => take dqEnd name
      | None => name
      end
    | None => desc
    end
  end.

(** Lines 126 and 127. *)
Definition trackNum (desc : ustring) : JSNumber :=
  let parts := jsSplit SPACE desc in
  if 2 <=? length parts then parseInt (default [] (parts !! 1))
  else JSInt (-1).

Section Script.
Context `{Swift.Foundation}.

Definition isGroup (element : Swift.Element) : bool :=
  eqb (default [] (Swift.getRole element)) (lit "AXGroup").

Definition isTracksArea (element : Swift.Element) : bool :=
  match Swift.getDescription element with
  | Some desc => eqb desc (lit "Spuren") || eqb desc (lit "Tracks")
  | None => false
  end.

Fixpoint findSpurenGroup (element : Swift.Element) (depth : Z)
  : option Swift.Element :=
  if (5 <? depth)%Z then None
  else Swift.firstSome
         (fun g =>
            if isGroup g then
              if isTracksArea g then Some g
              else findSpurenGroup g (depth + 1)
            else None)
         (Swift.axChildren element).

Definition isTrackItem (el : Swift.Element) : bool :=
  match Swift.getRole el, Swift.getDescription el with
  | Some role, Some desc =>
    eqb role (lit "AXLayoutItem")
    && (hasPrefix (lit "Spur ") desc || hasPrefix (lit "Track ") desc)
  | _, _ => false
  end.

Definition trackOf (tracks : list Track) (el : Swift.Element) : Track :=
  let desc := default [] (Swift.getDescription el) in
  mkTrack (Z.of_nat (length tracks)) (trackNum desc) (trackName desc) [].

Fixpoint findTracks (element : Swift.Element) (depth : Z) (tracks : list Track)
  : list Track :=
  if (12 <? depth)%Z then tracks
  else fold_left
         (fun acc el =>
            let acc1 := if isTrackItem el then acc ++ [trackOf acc el] else acc in
            findTracks el (depth + 1) acc1)
         (Swift.axChildren element) tracks.

(** The end of the script, from the first window of the process. *)
Definition listTracksScript (win : option Swift.Element) : list Track :=
  match win with
  | None => []
  | Some w =>
    match findSpurenGroup w 0 with
    | None => []
    | Some spurenGroup => findTracks spurenGroup 0 []
    end
  end.

(** What the loop of [findTracks] does to its accumulator at one element,
    before it descends. *)
Definition trackStep (tracks : list Track) (el : Swift.Element) : list Track :=
  if isTrackItem el then tracks ++ [trackOf tracks el] else tracks.

End Script.
End JXA.

(* ===================================================================== *)
(** * The coordinator: src/bridges/accessibility.ts *)
(* ===================================================================== *)

Module Bridge.
Import Text.

Record TrackInfo := mkTrackInfo {
  index : Z;
  name : ustring;
  trackNumber : option Z;
  muted : option bool;
  solo : option bool;
  recordEnabled : option bool;
  volume : option Z;
  plugins : list ustring
}.

(** [JSON.parse] at the type the bridge casts its result to; [None] is a
    [SyntaxError].  The cast to an array of [TrackInfo] is unchecked in
    TypeScript and is taken at its word: a document that parses is a list
    of [TrackInfo].  (On [null], and on a document without a positive
    [length], the test on [tracks.length] leads to the fallback, as for
    [None] and for the empty list.) *)
Class JSRuntime := {
  JSON_parse : ustring -> option (list TrackInfo);
  JSON_parse_empty_array : JSON_parse (lit "[]") = Some []
}.

Inductive Script := ListTracksScript.

(** The two programs the bridge spawns. *)
Inductive Call :=
| CallHelper (args : list ustring)       (* SWIFT_HELPER_PATH args *)
| CallOsascript (script : Script).       (* osascript -l JavaScript -e script *)

(** How [execFileAsync] settles: resolved with the output of a process that
    exited with status 0, or rejected (the binary is missing, the process
    exited with another status, or the timeout killed it). *)
Inductive ExecOutcome :=
| Resolved (stdout stderr : ustring)
| Rejected (message : ustring).

(** What the processes would do, and which of them have been spawned. *)
Record World := mkWorld {
  exec : Call -> ExecOutcome;
  calls : list Call
}.

Inductive Result (A : Type) :=
| Ok (a : A)
| Throw (message : ustring).
Arguments Ok {A} a.
Arguments Throw {A} message.

(** Computations of the bridge: they may spawn processes and may throw. *)
Definition M (A : Type) : Type := World -> Result A * World.

Definition ret {A} (a : A) : M A := fun w => (Ok a, w).
Definition throw {A} (message : ustring) : M A := fun w => (Throw message, w).

Definition bind {A B} (m : M A) (k : A -> M B) : M B :=
  fun w => match m w with
           | (Ok a, w') => k a w'
           | (Throw e, w') => (Throw e, w')
           end.

Definition tryCatch {A} (m : M A) (handler : ustring -> M A) : M A :=
  fun w => match m w with
           | (Ok a, w') => (Ok a, w')
           | (Throw e, w') => handler e w'
           end.

#[global] Instance M_ret : MRet M := @ret.
#[global] Instance M_bind : MBind M := fun A B k m => bind m k.

(** The world once [call] has been spawned. *)
Definition spawned (w : World) (call : Call) : World :=
  mkWorld (exec w) (calls w ++ [call]).

Definition execFileAsync (call : Call) : M ustring :=
  fun w =>
    let w' := spawned w call in
    match exec w call with
    | Resolved stdout _ => (Ok stdout, w')
    | Rejected message => (Throw message, w')
    end.

Definition runAxHelper (args : list ustring) : M ustring :=
  tryCatch
    (stdout ← execFileAsync (CallHelper args); ret (jsTrim stdout))
    (fun msg =>
       if contains (lit "ENOENT") msg
       then throw (lit "Swift accessibility helper not found. Run: cd swift-helper && swift build -c release")
       else throw (lit "Accessibility helper error: " ++ msg)).

Definition runJXA (script : Script) : M ustring :=
  stdout ← execFileAsync (CallOsascript script); ret (jsTrim stdout).

Section Coordinator.
Context `{JSRuntime}.

Definition listTracksJXA : M (list TrackInfo) :=
  result ← runJXA ListTracksScript;
  match JSON_parse result with
  | Some tracks => ret tracks
  | None => ret []
  end.

(** The first [try] of [listTracks]: the tracks it returns, if it does. *)
Definition trySwiftHelper : M (option (list TrackInfo)) :=
  tryCatch
    (result ← runAxHelper [lit "list-tracks"];
     match JSON_parse result with
     | Some tracks =>
       if 0 <? length tracks then ret (Some tracks) else ret None
     | None => throw (lit "SyntaxError")
     end)
    (fun _ => ret None).

(** The error [listTracks] throws when the fallback fails too. *)
Definition couldNotList (msg : ustring) : ustring :=
  lit "Could not list tracks. Ensure Logic Pro is open and Accessibility is granted. Details: "
  ++ msg.

Definition listTracks : M (list TrackInfo) :=
  early ← trySwiftHelper;
  match early with
  | Some tracks => ret tracks
  | None =>
    tryCatch listTracksJXA (fun msg => throw (couldNotList msg))
  end.

End Coordinator.

(** [String(n)] for an argument that holds an integer (the Number nearest
    to [n] when [n] itself is no Number); a Number that holds no integer is
    outside the model. *)
Definition String_of_number (n : Z) : ustring := numberToString n.

Definition setPluginParameter (trackIndex slotIndex : Z)
    (paramName value : ustring) : M ustring :=
  runAxHelper [lit "set-param"; String_of_number trackIndex;
               String_of_number slotIndex; paramName; value].

(** ** The helper as the process behind [CallHelper] *)

Definition newline : ustring := [10%N].

Definition printed (lines : list ustring) : ustring :=
  concat (map (fun l => l ++ newline) lines).

(** What [execFileAsync] makes of a finished run: only a non-zero exit
    status rejects, with the standard error in the message. *)
Definition outcomeOfRun (r : Swift.Run) : ExecOutcome :=
  if (Swift.exitCode r =? 0)%Z
  then Resolved (printed (Swift.stdout r)) (concat (Swift.stderr r))
  else Rejected (lit "Command failed: LogicAccessibility" ++ newline
                 ++ concat (Swift.stderr r)).

Definition helperOn `{Swift.Foundation} (host : Swift.Host)
    (args : list ustring) : ExecOutcome :=
  outcomeOfRun (fst (Swift.main (lit "LogicAccessibility" :: args) host)).

(** ** The other calls of the helper *)

Definition checkAccessibility : M bool :=
  tryCatch
    (result ← runAxHelper [lit "check-access"];
     ret (contains (lit "granted") result))
    (fun _ => ret false).

Record PluginParameter := mkPluginParameter {
  parameterName : ustring;
  parameterValue : ustring;
  parameterRole : ustring
}.

(** [JSON.parse] at the type [getPluginParameters] casts its result to;
    a [SyntaxError] carries the message of the engine. *)
Class ParameterRuntime := {
  JSON_parse_parameters : ustring -> Result (list PluginParameter)
}.

(** A value or an exception, as a computation. *)
Definition settle {A} (r : Result A) : M A := fun w => (r, w).

Definition getPluginParameters `{ParameterRuntime} (trackIndex slotIndex : Z)
  : M (list PluginParameter) :=
  result ← runAxHelper [lit "get-params"; String_of_number trackIndex;
                        String_of_number slotIndex];
  settle (JSON_parse_parameters result).

End Bridge.

(* ===================================================================== *)
(** * src/tools/plugins.ts *)
(* ===================================================================== *)

Module Plugins.
Import Text.

Record AudioUnit := mkAudioUnit {
  type : ustring;
  subtype : ustring;
  manufacturer : ustring;
  name : ustring
}.

(** ** Regular expressions made of quantified character classes *)

(** One quantified class, [c{min,max}], greedy, possibly a capture group. *)
Record Piece := mkPiece {
  cls : char -> bool;
  minCount : nat;
  maxCount : option nat;
  capture : bool
}.

Fixpoint runLength (p : char -> bool) (s : ustring) : nat :=
  match s with
  | c :: r => if p c then S (runLength p r) else 0
  | [] => 0
  end.

Definition longest (p : Piece) (s : ustring) : nat :=
  match maxCount p with
  | Some m => Nat.min m (runLength (cls p) s)
  | None => runLength (cls p) s
  end.

(** One piece against [s], trying [n] characters first and one fewer each
    time the continuation [k] fails on what follows. *)
Fixpoint tryCounts (p : Piece) (k : ustring -> option (list ustring))
    (s : ustring) (n : nat) : option (list ustring) :=
  let attempt :=
    if minCount p <=? n then
      match k (drop n s) with
      | Some caps => Some (if capture p then take n s :: caps else caps)
      | None => None
      end
    else None in
  match attempt with
  | Some r => Some r
  | None => match n with
            | O => None
            | S n' => tryCounts p k s n'
            end
  end.

(** Matching [^ pieces $] against [s] with backtracking: each piece first
    takes as much as it can.  The result lists the captures in order. *)
Fixpoint matchPieces (ps : list Piece) (s : ustring) : option (list ustring) :=
  match ps with
  | [] => if isEmptyList s then Some [] else None
  | p :: ps' => tryCounts p (matchPieces ps') s (longest p s)
  end.

(** A run of a piece: within its class and its bounds. *)
Definition isRun (p : Piece) (run : ustring) : Prop :=
  forallb (cls p) run = true
  /\ minCount p <= length run
  /\ (forall m, maxCount p = Some m -> length run <= m).

Definition ws (minCount : nat) : Piece := mkPiece isJSWhitespace minCount None false.
Definition word4 : Piece := mkPiece isWordChar 4 (Some 4) true.
Definition dash : Piece := mkPiece (fun c => (c =? MINUS)%N) 1 (Some 1) false.
Definition rest : Piece := mkPiece (fun c => negb (isLineTerminator c)) 1 None true.

(** [/^\s*(\w{4})\s+(\w{4})\s+(\w{4})\s+-\s+(.+)$/] *)
Definition auvalLine : list Piece :=
  [ws 0; word4; ws 1; word4; ws 1; word4; ws 1; dash; ws 1; rest].



Definition token (t : ustring) : Prop :=
  length t = 4 /\ forallb isWordChar t = true.



(** The record pushed for one line, if the line matches. *)
Definition parseLine (line : ustring) : option AudioUnit :=
  match matchPieces auvalLine line with
  | Some [m1; m2; m3; m4] => Some (mkAudioUnit m1 m2 m3 (jsTrim m4))
  | _ => None
  end.

Definition parseAuvalOutput (output : ustring) : list AudioUnit :=
  fold_left
    (fun plugins line =>
       match parseLine line with
       | Some u => plugins ++ [u]
       | None => plugins
       end)
    (jsSplit 10%N output) [].

(** ** The [plugin_set_parameter] handler *)

Record ToolResponse := mkToolResponse {
  text : ustring;
  isError : bool
}.

Definition plugin_set_parameter (trackIndex slotIndex : Z)
    (parameterName value : ustring) : Bridge.M ToolResponse :=
  Bridge.tryCatch
    (result ← Bridge.setPluginParameter trackIndex slotIndex parameterName value;
     Bridge.ret
       (mkToolResponse
          (lit "Parameter " ++ [DQUOTE] ++ parameterName ++ [DQUOTE]
           ++ lit " set to " ++ [DQUOTE] ++ value ++ [DQUOTE] ++ lit ". "
           ++ result)
          false))
    (fun msg =>
       Bridge.ret (mkToolResponse (lit "Failed to set parameter: " ++ msg) true)).

(** ** Vocabulary for the records *)

(** The runs of the capture groups among the runs of the pieces. *)
Fixpoint captured (ps : list Piece) (runs : list ustring) : list ustring :=
  match ps, runs with
  | p :: ps', run :: runs' =>
    if capture p then run :: captured ps' runs' else captured ps' runs'
  | _, _ => []
  end.

(** A record as [parseAuvalOutput] builds it: three codes of four word
    characters and a name on one line without white space at its ends. *)
Definition wellFormedUnit (u : AudioUnit) : Prop :=
  token (type u) /\ token (subtype u) /\ token (manufacturer u)
  /\ jsTrim (name u) = name u
  /\ forallb (fun c => negb (isLineTerminator c)) (name u) = true.

End Plugins.

(* ===================================================================== *)
(** * src/bridges/midi-bridge.ts *)
(* ===================================================================== *)

Module Midi.
Import Text.
Local Open Scope Z_scope.

(** ToInt32 on an integer-valued Number. *)
Definition toInt32 (z : Z) : Z := (z + 2 ^ 31) mod 2 ^ 32 - 2 ^ 31.

(** JavaScript's [a & b]. *)
Definition bitAnd (a b : Z) : Z := Z.land (toInt32 a) (toInt32 b).

(** The port object: the messages handed to [sendMessage], oldest first. *)
Record Output := mkOutput { sent : list (list Z) }.

(** The module variable [output]. *)
Definition State := option Output.

Definition openMidiPort (output : State) : State :=
  match output with
  | Some o => Some o
  | None => Some (mkOutput [])
  end.

Definition closeMidiPort (output : State) : State := None.

Definition isMidiPortOpen (output : State) : bool :=
  match output with Some _ => true | None => false end.

Definition sendMessage (message : list Z) (output : State)
  : Bridge.Result unit * State :=
  match output with
  | None => (Bridge.Throw (lit "MIDI port not open"), None)
  | Some o => (Bridge.Ok tt, Some (mkOutput (sent o ++ [message])))
  end.

Definition sendNoteOn (channel note velocity : Z) : State -> Bridge.Result unit * State :=
  sendMessage [0x90 + bitAnd channel 0x0f; bitAnd note 0x7f; bitAnd velocity 0x7f].

Definition sendNoteOff (channel note : Z) : State -> Bridge.Result unit * State :=
  sendMessage [0x80 + bitAnd channel 0x0f; bitAnd note 0x7f; 0].

Definition sendCC (channel controller value : Z) : State -> Bridge.Result unit * State :=
  sendMessage [0xb0 + bitAnd channel 0x0f; bitAnd controller 0x7f; bitAnd value 0x7f].

Definition sendProgramChange (channel program : Z) : State -> Bridge.Result unit * State :=
  sendMessage [0xc0 + bitAnd channel 0x0f; bitAnd program 0x7f].

(** ** Sequences of notes *)

Record NoteEvent := mkNoteEvent {
  note : Z;
  velocity : Z;
  channel : option Z;
  duration : option Z;        (* milliseconds *)
  delay : option Z            (* milliseconds *)
}.

(** What a call does that can be observed from outside, in order: a
    message handed to the port, or a timer awaited for [ms] milliseconds. *)
Inductive Step :=
| Message (bytes : list Z)
| Sleep (ms : Z).

(** The module variable, and the steps taken so far. *)
Record Session := mkSession {
  port : State;
  timeline : list Step
}.

(** Computations that send, wait and may throw. *)
Definition Play (A : Type) : Type := Session -> Bridge.Result A * Session.

Definition done {A} (a : A) : Play A := fun s => (Bridge.Ok a, s).

Definition raise {A} (message : ustring) : Play A :=
  fun s => (Bridge.Throw message, s).

Definition andThen {A B} (m : Play A) (k : A -> Play B) : Play B :=
  fun s => match m s with
           | (Bridge.Ok a, s') => k a s'
           | (Bridge.Throw e, s') => (Bridge.Throw e, s')
           end.

Definition sentBy (output : State) : list (list Z) :=
  match output with
  | Some o => sent o
  | None => []
  end.

(** A send primitive run on the module variable; the messages it hands to
    the port are noted on the timeline. *)
Definition call (f : State -> Bridge.Result unit * State) : Play unit :=
  fun s =>
    let '(r, output) := f (port s) in
    (r, mkSession output
          (timeline s
           ++ map Message (drop (length (sentBy (port s))) (sentBy output)))).

Definition sleep (ms : Z) : Play unit :=
  fun s => (Bridge.Ok tt, mkSession (port s) (timeline s ++ [Sleep ms])).

Fixpoint forEach {A} (body : A -> Play unit) (l : list A) : Play unit :=
  match l with
  | [] => done tt
  | x :: r => andThen (body x) (fun _ => forEach body r)
  end.

(** The durations are whole milliseconds. *)
Definition sendNotes (notes : list NoteEvent) : Play unit :=
  fun s =>
    match port s with
    | None => (Bridge.Throw (lit "MIDI port not open"), s)
    | Some _ =>
      forEach
        (fun event =>
           let ch := default 0 (channel event) in
           let dur := default 500 (duration event) in
           let del := default 0 (delay event) in
           andThen (if 0 <? del then sleep del else done tt) (fun _ =>
           andThen (call (sendNoteOn ch (note event) (velocity event))) (fun _ =>
           andThen (sleep dur) (fun _ =>
           call (sendNoteOff ch (note event))))))
        notes s
    end.

(** ** Vocabulary for the sequences *)

Definition noteOnBytes (channel note velocity : Z) : list Z :=
  [0x90 + channel mod 16; note mod 128; velocity mod 128].

Definition noteOffBytes (channel note : Z) : list Z :=
  [0x80 + channel mod 16; note mod 128; 0].

(** The steps [sendNotes] takes for one event. *)
Definition played (event : NoteEvent) : list Step :=
  let ch := default 0 (channel event) in
  (if 0 <? default 0 (delay event) then [Sleep (default 0 (delay event))] else [])
  ++ [Message (noteOnBytes ch (note event) (velocity event));
      Sleep (default 500 (duration event));
      Message (noteOffBytes ch (note event))].

Definition messages (steps : list Step) : list (list Z) :=
  omap (fun step => match step with
                    | Message bytes => Some bytes
                    | Sleep _ => None
                    end) steps.

End Midi.

(* ===================================================================== *)
(** * src/tools/midi.ts *)
(* ===================================================================== *)

Module MidiTools.
Import Text Midi.
Local Open Scope Z_scope.

Definition ensureMidiPort : Play unit :=
  fun s =>
    if isMidiPortOpen (port s) then (Bridge.Ok tt, s)
    else (Bridge.Throw
            (lit "MIDI port is not open. The server should have opened it on startup."),
          s).

(** [Array.prototype.join]. *)
Fixpoint join (sep : ustring) (l : list ustring) : ustring :=
  match l with
  | [] => []
  | [x] => x
  | x :: r => x ++ sep ++ join sep r
  end.

Definition respond (text : ustring) : Play Plugins.ToolResponse :=
  done (Plugins.mkToolResponse text false).

Definition midi_send_chord (notes : list Z) (velocity duration channel : option Z)
  : Play Plugins.ToolResponse :=
  andThen ensureMidiPort (fun _ =>
  let vel := default 80 velocity in
  let dur := default 1000 duration in
  let ch := default 0 channel in
  andThen (forEach (fun note => call (sendNoteOn ch note vel)) notes) (fun _ =>
  andThen (sleep dur) (fun _ =>
  andThen (forEach (fun note => call (sendNoteOff ch note)) notes) (fun _ =>
  respond (lit "Sent chord [" ++ join (lit ", ") (map decimal notes)
           ++ lit "] with velocity " ++ decimal vel ++ lit " for "
           ++ decimal dur ++ lit "ms."))))).

End MidiTools.

(* ===================================================================== *)
(** * src/index.ts: the request handler *)
(* ===================================================================== *)

Module Server.
Import Text.

Section Dispatch.
(** The state the handlers work on, and the arguments of a request. *)
Variables (St Args : Type).

Record Tool := mkTool {
  toolName : ustring;
  handler : Args -> St -> Bridge.Result Plugins.ToolResponse * St
}.

(** [new Map(ALL_TOOLS.map((t) => [t.name, t]))]: the entries are set in
    order, a later one replacing an earlier one of the same name. *)
Definition toolMap (tools : list Tool) : gmap ustring Tool :=
  fold_left (fun m t => <[toolName t := t]> m) tools ∅.

Definition unknownTool (name : ustring) : Plugins.ToolResponse :=
  Plugins.mkToolResponse (lit "Unknown tool: " ++ name) true.

Definition failure (message : ustring) : Plugins.ToolResponse :=
  Plugins.mkToolResponse (lit "Error: " ++ message) true.

(** The handler of [CallToolRequestSchema]. *)
Definition callTool (tools : list Tool) (name : ustring) (args : Args)
  : St -> Bridge.Result Plugins.ToolResponse * St :=
  fun s =>
    match toolMap tools !! name with
    | None => (Bridge.Ok (unknownTool name), s)
    | Some tool =>
      match handler tool args s with
      | (Bridge.Ok response, s') => (Bridge.Ok response, s')
      | (Bridge.Throw message, s') => (Bridge.Ok (failure message), s')
      end
    end.

(** The tools registered under a name, in the order of the table. *)
Definition named (name : ustring) (tools : list Tool) : list Tool :=
  List.filter (fun t => eqb (toolName t) name) tools.

End Dispatch.

Arguments mkTool {St Args} toolName handler.
Arguments toolName {St Args} t.
Arguments handler {St Args} t args s.
Arguments toolMap {St Args} tools.
Arguments callTool {St Args} tools name args s.
Arguments named {St Args} name tools.

End Server.

(* ===================================================================== *)
(** * A runtime to evaluate the model on *)
(* ===================================================================== *)

(** An instance of the two runtime interfaces, small enough to compute with:
    numbers are integers, lower-casing is the ASCII one, serialized
    documents are placeholders, and [JSON.parse] knows the empty array and
    one document with one track. *)
Module Sample.
Import Text.

Definition foundation : Swift.Foundation := {|
  Swift.Float := Z;
  Swift.Float_of_string := Int_of_string;
  Swift.stringValue := decimal;
  Swift.lowercased := map asciiLower;
  Swift.serializeTracks := fun l => if isEmptyList l then lit "[]" else lit "[tracks]";
  Swift.serializeParams := fun l => if isEmptyList l then lit "[]" else lit "[params]";
  Swift.serializeDump := fun l => if isEmptyList l then lit "[]" else lit "[elements]";
  Swift.lowercased_ascii := fun s _ => eq_refl
|}.

#[local] Existing Instance foundation.

Definition quoted (s : string) : ustring := [DQUOTE] ++ lit s ++ [DQUOTE].

Definition drums : Bridge.TrackInfo :=
  Bridge.mkTrackInfo 0 (lit "Drums") None None None None None [].

Definition drumsDocument : ustring :=
  lit "[{" ++ quoted "index" ++ lit ":0," ++ quoted "name" ++ lit ":"
  ++ quoted "Drums" ++ lit "," ++ quoted "plugins" ++ lit ":[]}]".

Definition runtime : Bridge.JSRuntime := {|
  Bridge.JSON_parse := fun s =>
    if eqb s (lit "[]") then Some []
    else if eqb s drumsDocument then Some [drums] else None;
  Bridge.JSON_parse_empty_array := eq_refl
|}.

(** Elements for the examples. *)
Definition element (role title description : string)
    (value : option (@Swift.AXValue foundation))
    (children : list (@Swift.Element foundation)) : @Swift.Element foundation :=
  Swift.mkElement
    (Swift.mkAttrs (Some (lit role)) (Some (lit title)) (Some (lit description))
                   value)
    children.

Definition group (children : list (@Swift.Element foundation))
  : @Swift.Element foundation :=
  element "AXGroup" "" "" None children.

(** [n] groups nested around [e]. *)
Fixpoint nested (n : nat) (e : @Swift.Element foundation)
  : @Swift.Element foundation :=
  match n with
  | O => e
  | S n' => group [nested n' e]
  end.

Definition slider (label : string) : @Swift.Element foundation :=
  element "AXSlider" "" label (Some (Swift.AXNumber (0%Z : Swift.Float))) [].

Definition field (label : string) : @Swift.Element foundation :=
  element "AXTextField" "" label (Some (Swift.AXString [])) [].

(** A slider and a text field, both labelled Gain. *)
Definition sliderThenField : list (@Swift.Element foundation) :=
  [slider "Gain"; field "Gain"].

(** A track row labelled [Track <number> <quote>name<quote>]. *)
Definition track (number : Z) (name : string)
    (children : list (@Swift.Element foundation)) : @Swift.Element foundation :=
  Swift.mkElement
    (Swift.mkAttrs (Some (lit "AXLayoutItem")) (Some [])
                   (Some (label (lit "Track") number DQUOTE (lit name) DQUOTE))
                   None)
    children.

Definition checkbox (label value : string) : @Swift.Element foundation :=
  element "AXCheckBox" "" label (Some (Swift.AXString (lit value))) [].

Definition button (title : string) : @Swift.Element foundation :=
  element "AXButton" title "" None [].

(** A window whose tracks area holds one track with a Mute box, the M
    button and a plugin button. *)
Definition oneTrackWindow : @Swift.Element foundation :=
  element "AXWindow" "Song" "" None
    [element "AXGroup" "" "Spuren" None
       [track 1 "Drums"
          [checkbox "Mute" "1"; button "M"; group [button "Compressor"]]]].

(** A tracks area with three tracks; the second is muted, with its volume
    slider at 64. *)
Definition threeTracks : @Swift.Element foundation :=
  element "AXGroup" "" "Tracks" None
    [group
       [track 1 "Drums" [checkbox "Mute" "0"];
        track 2 "Bass"
          [checkbox "Mute" "1";
           element "AXSlider" "" "Volume" (Some (Swift.AXString (lit "64"))) []];
        track 3 "Keys" []]].

(** A window without a tracks area. *)
Definition emptyWindow : @Swift.Element foundation :=
  element "AXWindow" "Song" "" None [group []].

(** Two text fields labelled Gain: the first below eight nested groups,
    the second at the top. *)
Definition deepThenShallow : list (@Swift.Element foundation) :=
  [nested 8 (field "Gain"); field "Gain"].

(** A world in which the helper binary is missing and the script prints
    the one-track document. *)
Definition helperMissing : Bridge.World :=
  Bridge.mkWorld
    (fun call =>
       match call with
       | Bridge.CallHelper _ =>
         Bridge.Rejected (lit "spawn LogicAccessibility ENOENT")
       | Bridge.CallOsascript _ => Bridge.Resolved (drumsDocument ++ [10%N]) []
       end)
    [].

(** A world in which the helper prints the one-track document. *)
Definition helperAnswers : Bridge.World :=
  Bridge.mkWorld
    (fun call =>
       match call with
       | Bridge.CallHelper _ => Bridge.Resolved (drumsDocument ++ [10%N]) []
       | Bridge.CallOsascript _ => Bridge.Resolved (lit "[]") []
       end)
    [].

(** Logic Pro with the one-track window, and a world whose helper is the
    modelled one running against it. *)
Definition oneTrackHost : @Swift.Host foundation :=
  Swift.mkHost (Some (Swift.mkApp [oneTrackWindow] (Some 0))) true.

Definition oneTrackWorld : Bridge.World :=
  Bridge.mkWorld
    (fun call =>
       match call with
       | Bridge.CallHelper args => Bridge.helperOn oneTrackHost args
       | Bridge.CallOsascript _ => Bridge.Resolved (lit "[]") []
       end)
    [].

(** A plugin window in Controls view: a Gain slider and, inside a group, a
    Mode pop-up button and a Name text field. *)
Definition pluginWindow : @Swift.Element foundation :=
  element "AXWindow" "Compressor" "" None
    [slider "Gain";
     group [element "AXPopUpButton" "Mode" "" (Some (Swift.AXString (lit "Peak"))) [];
            field "Name"]].

(** Logic Pro with the one-track window as its main window and the plugin
    window open. *)
Definition pluginHost : @Swift.Host foundation :=
  Swift.mkHost (Some (Swift.mkApp [oneTrackWindow; pluginWindow] (Some 0))) true.

(** [JSON.parse] of the parameter lists: it knows the empty array. *)
Definition parameterRuntime : Bridge.ParameterRuntime := {|
  Bridge.JSON_parse_parameters := fun s =>
    if eqb s (lit "[]") then Bridge.Ok []
    else Bridge.Throw (lit "Unexpected token")
|}.

(** A world whose helper is the modelled one running against the host
    with the plugin window. *)
Definition pluginWorld : Bridge.World :=
  Bridge.mkWorld
    (fun call =>
       match call with
       | Bridge.CallHelper args => Bridge.helperOn pluginHost args
       | Bridge.CallOsascript _ => Bridge.Resolved (lit "[]") []
       end)
    [].

(** A window whose tracks area lies below two groups. *)
Definition nestedAreaWindow : @Swift.Element foundation :=
  element "AXWindow" "Song" "" None [group [group [threeTracks]]].

(** A track row with a plugin button three levels below it. *)
Definition deepPlugin (title : string) : list (@Swift.Element foundation) :=
  [track 1 "Drums" [group [group [button title]]]].

(** A track row one level down, with one child: below a bound of 2 the
    child is not reached. *)
Definition trackWith (child : @Swift.Element foundation)
  : list (@Swift.Element foundation) :=
  [group [track 1 "Drums" [child]]].

End Sample.

(* ===================================================================== *)
(** * Properties of the text operations *)
(* ===================================================================== *)

Module TextFacts.
Import Text.

Ltac bool_to_prop :=
  repeat match goal with
         | H : _ && _ = true |- _ => apply andb_prop in H as [? ?]
         | H : _ || _ = true |- _ => apply orb_prop in H as [?|?]
         | H : negb _ = true |- _ => apply negb_true_iff in H
         | H : (_ =? _)%N = true |- _ => apply N.eqb_eq in H
         | H : (_ <=? _)%N = true |- _ => apply N.leb_le in H
         | H : (_ <? _)%N = true |- _ => apply N.ltb_lt in H
         end.

Lemma word_not_whitespace (c : char) :
  isWordChar c = true -> isJSWhitespace c = false.
Proof.
  intros Hw. destruct (isJSWhitespace c) eqn:E; [|reflexivity]. exfalso.
  unfold isWordChar in Hw. unfold isJSWhitespace, isLineTerminator in E.
  bool_to_prop; lia.
Qed.

Lemma absent_cons (c x : char) (s : ustring) :
  absent c (x :: s) <-> x <> c /\ absent c s.
Proof.
  unfold absent. simpl. rewrite andb_true_iff, negb_true_iff, N.eqb_neq. tauto.
Qed.

Lemma absent_app (c : char) (s1 s2 : ustring) :
  absent c (s1 ++ s2) <-> absent c s1 /\ absent c s2.
Proof. unfold absent. rewrite forallb_app, andb_true_iff. tauto. Qed.

Lemma absent_nil (c : char) : absent c [].
Proof. reflexivity. Qed.

(** ** Searching *)

Lemma indexOf_char_skip (c : char) (pre s : ustring) :
  absent c pre -> indexOf [c] (pre ++ s) = (fun i => length pre + i) <$> indexOf [c] s.
Proof.
  induction pre as [|x pre IH]; intros Hpre.
  - simpl. destruct (indexOf [c] s); reflexivity.
  - apply absent_cons in Hpre as [Hx Hpre].
    cbn [app indexOf hasPrefix]. rewrite (proj2 (N.eqb_neq c x)) by congruence.
    cbn [andb]. rewrite IH by assumption.
    destruct (indexOf [c] s); reflexivity.
Qed.

Lemma indexOf_char_here (c : char) (s : ustring) : indexOf [c] (c :: s) = Some 0.
Proof. cbn [indexOf hasPrefix]. rewrite N.eqb_refl. reflexivity. Qed.

Lemma indexOf_char_first (c : char) (pre s : ustring) :
  absent c pre -> indexOf [c] (pre ++ c :: s) = Some (length pre).
Proof.
  intros Hpre. rewrite indexOf_char_skip, indexOf_char_here by assumption.
  simpl. f_equal. lia.
Qed.

Lemma indexOf_char_absent (c : char) (s : ustring) :
  absent c s -> indexOf [c] s = None.
Proof.
  intros Hs. rewrite <- (app_nil_r s), indexOf_char_skip by assumption. reflexivity.
Qed.

Lemma lastIndexOfChar_end (c : char) (s : ustring) :
  lastIndexOfChar c (s ++ [c]) = Some (length s).
Proof.
  induction s as [|x s IH]; simpl.
  - rewrite N.eqb_refl. reflexivity.
  - rewrite IH. reflexivity.
Qed.

Lemma removeChar_absent (c : char) (s : ustring) :
  absent c s -> removeChar c s = s.
Proof.
  unfold absent, removeChar. induction s as [|x s IH]; simpl; [reflexivity|].
  intros Hs. apply andb_prop in Hs as [Hx Hs]. rewrite Hx, IH; auto.
Qed.

Lemma removeChar_app (c : char) (s1 s2 : ustring) :
  removeChar c (s1 ++ s2) = removeChar c s1 ++ removeChar c s2.
Proof. apply List.filter_app. Qed.

(** ** Splitting *)

Lemma swiftSplitLoop_run (sep : char) maxSplits (w s cur : ustring) (n : nat) :
  absent sep w ->
  swiftSplitLoop sep maxSplits true (w ++ s) cur n
  = swiftSplitLoop sep maxSplits true s (cur ++ w) n.
Proof.
  revert cur. induction w as [|x w IH]; intros cur Hw.
  - now rewrite app_nil_r.
  - apply absent_cons in Hw as [Hx Hw]. cbn [app swiftSplitLoop].
    rewrite (proj2 (N.eqb_neq x sep)) by assumption.
    rewrite IH by assumption. now rewrite <- app_assoc.
Qed.

(** The second piece of [first second ...], the pieces separated by one
    [sep]. *)
Lemma swiftSplit_second (sep : char) (first second s : ustring) :
  first <> [] -> second <> [] -> absent sep first -> absent sep second ->
  swiftSplit sep None (first ++ sep :: second ++ sep :: s) !! 1 = Some second.
Proof.
  intros Hf Hs Af As. unfold swiftSplit.
  destruct first as [|f first]; [congruence|].
  cbn [bool_decide isEmptyList orb app].
  replace (bool_decide (None = Some 0)) with false by reflexivity. cbn [orb].
  change (f :: first ++ sep :: second ++ sep :: s)
    with ((f :: first) ++ sep :: second ++ sep :: s).
  rewrite swiftSplitLoop_run by assumption. cbn [app swiftSplitLoop].
  rewrite N.eqb_refl. cbn [isEmptyList andb].
  replace (bool_decide (None = Some 1)) with false by reflexivity.
  cbn [lookup list_lookup].
  rewrite swiftSplitLoop_run by assumption. cbn [app swiftSplitLoop].
  rewrite N.eqb_refl.
  destruct second as [|x second]; [congruence|]. cbn [isEmptyList andb].
  replace (bool_decide (None = Some 2)) with false by reflexivity.
  reflexivity.
Qed.

Lemma jsSplitLoop_run (sep : char) (w s cur : ustring) :
  absent sep w -> jsSplitLoop sep (w ++ s) cur = jsSplitLoop sep s (cur ++ w).
Proof.
  revert cur. induction w as [|x w IH]; intros cur Hw.
  - now rewrite app_nil_r.
  - apply absent_cons in Hw as [Hx Hw]. cbn [app jsSplitLoop].
    rewrite (proj2 (N.eqb_neq x sep)) by assumption.
    rewrite IH by assumption. now rewrite <- app_assoc.
Qed.

Lemma jsSplit_second (sep : char) (first second s : ustring) :
  absent sep first -> absent sep second ->
  exists parts,
    jsSplit sep (first ++ sep :: second ++ sep :: s) = first :: second :: parts.
Proof.
  intros Af As. unfold jsSplit.
  rewrite jsSplitLoop_run by assumption. cbn [app jsSplitLoop].
  rewrite N.eqb_refl. rewrite jsSplitLoop_run by assumption.
  cbn [app jsSplitLoop]. rewrite N.eqb_refl. eauto.
Qed.

(** ** Numerals *)

Lemma uintChars_digits (u : Decimal.uint) : forallb isDigit (uintChars u) = true.
Proof. induction u; simpl; auto. Qed.

Lemma uintChars_nonnil (u : Decimal.uint) : u <> Nil -> uintChars u <> [].
Proof. destruct u; simpl; congruence. Qed.

Lemma digitsVal_uint_acc (u : Decimal.uint) :
  forall acc : positive,
    digitsVal (uintChars u) (Z.pos acc) = Some (Z.pos (Pos.of_uint_acc u acc)).
Proof.
  induction u as [|u IH|u IH|u IH|u IH|u IH|u IH|u IH|u IH|u IH|u IH];
    intros acc; [reflexivity| ..];
    cbn [uintChars digitsVal Pos.of_uint_acc];
    match goal with
    | |- context [digitVal ?c] => change (digitVal c) with (Some (Z.of_N c - 48)%Z)
    end;
    cbv iota; rewrite <- IH; f_equal; lia.
Qed.

Lemma digitsVal_uint (u : Decimal.uint) :
  digitsVal (uintChars u) 0 = Some (Z.of_N (Pos.of_uint u)).
Proof.
  induction u as [|u IH|u IH|u IH|u IH|u IH|u IH|u IH|u IH|u IH|u IH];
    [reflexivity | exact IH | ..];
    cbn [uintChars digitsVal Pos.of_uint];
    match goal with
    | |- context [digitVal ?c] => change (digitVal c) with (Some (Z.of_N c - 48)%Z)
    end;
    cbv iota; change (Z.of_N (N.pos ?p)) with (Z.pos p);
    rewrite <- digitsVal_uint_acc; f_equal.
Qed.

Lemma digit_not_sign (c : char) :
  isDigit c = true -> (c =? MINUS)%N = false /\ (c =? PLUS)%N = false.
Proof.
  unfold isDigit, MINUS, PLUS. intros Hc. apply andb_prop in Hc as [H1 H2].
  apply N.leb_le in H1, H2. split; apply N.eqb_neq; lia.
Qed.

Lemma digit_not_whitespace (c : char) :
  isDigit c = true -> isJSWhitespace c = false.
Proof.
  intros Hc. apply word_not_whitespace.
  unfold isDigit in Hc. unfold isWordChar. now rewrite Hc.
Qed.

Lemma Int_of_string_digits (s : ustring) (v : Z) :
  s <> [] -> forallb isDigit s = true -> digitsVal s 0 = Some v ->
  (Int_min <= v <= Int_max)%Z -> Int_of_string s = Some v.
Proof.
  intros Hne Hd Hv Hr. unfold Int_of_string.
  destruct s as [|c s]; [congruence|].
  pose proof Hd as Hd'. simpl in Hd'. apply andb_prop in Hd' as [Hc _].
  destruct (digit_not_sign c Hc) as [-> ->]. rewrite Hv.
  destruct (Z.leb_spec Int_min v); [|lia].
  destruct (Z.leb_spec v Int_max); [reflexivity | lia].
Qed.

Lemma Int_of_string_negative (s : ustring) (v : Z) :
  s <> [] -> digitsVal s 0 = Some v ->
  (Int_min <= - v <= Int_max)%Z -> Int_of_string (MINUS :: s) = Some (- v)%Z.
Proof.
  intros Hne Hv Hr. unfold Int_of_string.
  replace (MINUS =? MINUS)%N with true by reflexivity.
  destruct s as [|c s]; [congruence|]. rewrite Hv.
  destruct (Z.leb_spec Int_min (- v)); [|lia].
  destruct (Z.leb_spec (- v) Int_max); [reflexivity | lia].
Qed.

(** Swift's [Int] reads back the decimal rendering of a 64-bit integer. *)
Lemma Int_of_string_decimal (z : Z) :
  (Int_min <= z <= Int_max)%Z -> Int_of_string (decimal z) = Some z.
Proof.
  intros Hr. unfold decimal. destruct z as [|p|p]; simpl Z.to_int.
  - reflexivity.
  - apply Int_of_string_digits; auto using uintChars_digits.
    + apply uintChars_nonnil, DecimalPos.Unsigned.to_uint_nonnil.
    + rewrite digitsVal_uint, DecimalPos.Unsigned.of_to. reflexivity.
  - apply (Int_of_string_negative _ (Z.pos p)); auto.
    + apply uintChars_nonnil, DecimalPos.Unsigned.to_uint_nonnil.
    + rewrite digitsVal_uint, DecimalPos.Unsigned.of_to. reflexivity.
Qed.

Lemma leadingDigits_digits (s : ustring) :
  forallb isDigit s = true ->
  forall acc, leadingDigits digitVal 10 s (Some acc) = digitsVal s acc.
Proof.
  induction s as [|c s IH]; intros Hd acc; [reflexivity|].
  simpl in Hd. apply andb_prop in Hd as [Hc Hd].
  cbn [leadingDigits digitsVal]. unfold digitVal. fold (isDigit c). rewrite Hc.
  cbn [default]. now apply IH.
Qed.

Lemma parseInt_digits (s : ustring) (v : Z) (neg : bool) :
  s <> [] -> forallb isDigit s = true -> digitsVal s 0 = Some v ->
  parseInt (if neg then MINUS :: s else s) = JSInt (if neg then - v else v).
Proof.
  intros Hne Hd Hv. destruct s as [|c s]; [congruence|].
  pose proof Hd as Hd'. simpl in Hd'. apply andb_prop in Hd' as [Hc Hs].
  destruct (digit_not_sign c Hc) as [Hm Hp].
  pose proof (digit_not_whitespace c Hc) as Hw.
  assert (Hlead : leadingDigits digitVal 10 (c :: s) None = Some v).
  { cbn [leadingDigits]. unfold digitVal. fold (isDigit c). rewrite Hc.
    cbn [default]. rewrite leadingDigits_digits by assumption.
    cbn [digitsVal] in Hv. unfold digitVal in Hv. fold (isDigit c) in Hv.
    now rewrite Hc in Hv. }
  assert (Hbody :
            match c :: s with
            | z :: x :: r =>
              if ((z =? 48) && ((x =? 120) || (x =? 88)))%N
              then leadingDigits hexDigitVal 16 r None
              else leadingDigits digitVal 10 (c :: s) None
            | _ => leadingDigits digitVal 10 (c :: s) None
            end = Some v).
  { destruct s as [|x r]; [exact Hlead|].
    simpl in Hs. apply andb_prop in Hs as [Hx _].
    assert (Hnx : ((x =? 120) || (x =? 88))%N = false).
    { unfold isDigit in Hx. apply andb_prop in Hx as [H1 H2].
      apply N.leb_le in H1, H2. apply orb_false_iff. split; apply N.eqb_neq; lia. }
    rewrite Hnx, andb_false_r. exact Hlead. }
  unfold parseInt. destruct neg.
  - cbn [dropWhile]. replace (isJSWhitespace MINUS) with false by reflexivity.
    replace (MINUS =? MINUS)%N with true by reflexivity.
    rewrite Hbody. reflexivity.
  - cbn [dropWhile]. rewrite Hw, Hm, Hp, Hbody. reflexivity.
Qed.

(** [parseInt] reads back the decimal rendering of an integer. *)
Lemma parseInt_decimal (z : Z) : parseInt (decimal z) = JSInt z.
Proof.
  unfold decimal. destruct z as [|p|p]; simpl Z.to_int.
  - reflexivity.
  - apply (parseInt_digits _ (Z.pos p) false); auto using uintChars_digits.
    + apply uintChars_nonnil, DecimalPos.Unsigned.to_uint_nonnil.
    + rewrite digitsVal_uint, DecimalPos.Unsigned.of_to. reflexivity.
  - apply (parseInt_digits _ (Z.pos p) true); auto using uintChars_digits.
    + apply uintChars_nonnil, DecimalPos.Unsigned.to_uint_nonnil.
    + rewrite digitsVal_uint, DecimalPos.Unsigned.of_to. reflexivity.
Qed.

(** The rendering is made of digits and, in front, possibly a minus sign. *)
Lemma decimal_chars (z : Z) (c : char) :
  c <> MINUS -> isDigit c = false -> absent c (decimal z).
Proof.
  intros Hm Hd.
  assert (G : forall u, absent c (uintChars u)).
  { intros u. pose proof (uintChars_digits u) as Hu. unfold absent.
    induction (uintChars u) as [|x l IH]; [reflexivity|].
    simpl in *. apply andb_prop in Hu as [Hx Hl]. rewrite IH by assumption.
    rewrite andb_true_r. apply negb_true_iff, N.eqb_neq. congruence. }
  unfold decimal. destruct (Z.to_int z); [apply G|].
  apply absent_cons. split; [congruence | apply G].
Qed.

Lemma decimal_nonempty (z : Z) : decimal z <> [].
Proof.
  unfold decimal. destruct z as [|p|p]; simpl Z.to_int; try discriminate.
  apply uintChars_nonnil, DecimalPos.Unsigned.to_uint_nonnil.
Qed.

(** ** Numbers as JavaScript renders them *)

Lemma toNumber_exact (z : Z) : (Z.abs z < 2 ^ 53)%Z -> toNumber z = z.
Proof.
  intros Hz. unfold toNumber.
  assert (Hlog : (Z.log2 (Z.abs z) < 53)%Z).
  { destruct (Z.eq_dec (Z.abs z) 0%Z) as [->|Hne]; [reflexivity|].
    apply Z.log2_lt_pow2; lia. }
  destruct (Z.leb_spec (Z.log2 (Z.abs z) - 52) 0%Z); [reflexivity | lia].
Qed.

Lemma toNumber_beyond (v : Z) : (2 ^ 53 <= v)%Z -> (2 ^ 53 <= toNumber v)%Z.
Proof.
  intros Hv. unfold toNumber.
  assert (Hpos : (0 < v)%Z) by (pose proof (Z.pow_pos_nonneg 2 53); lia).
  rewrite (Z.abs_eq v) by lia.
  assert (Hlog : (53 <= Z.log2 v)%Z) by (apply Z.log2_le_pow2; lia).
  destruct (Z.leb_spec (Z.log2 v - 52) 0%Z) as [Hs|Hs]; [lia|].
  set (s := (Z.log2 v - 52)%Z) in *.
  assert (Hspec : (2 ^ (52 + s) <= v)%Z).
  { replace (52 + s)%Z with (Z.log2 v) by (subst s; lia).
    apply Z.log2_spec. lia. }
  rewrite Z.pow_add_r in Hspec by lia.
  assert (Hps : (2 ^ 1 <= 2 ^ s)%Z) by (apply Z.pow_le_mono_r; lia).
  assert (Hq : (2 ^ 52 <= v / 2 ^ s)%Z)
    by (apply Z.div_le_lower_bound; lia).
  rewrite (Z.sgn_pos v) by lia.
  change (2 ^ 53)%Z with (2 ^ 52 * 2 ^ 1)%Z.
  destruct (_ || _); nia.
Qed.

(** No other numeral denotes a safe integer: the search for the shortest
    one ends at the integer itself. *)
Lemma shortestFrom_exact (x : Z) (j : nat) :
  (0 < x < 2 ^ 53)%Z -> shortestFrom x j = x.
Proof.
  intros Hx. induction j as [|j IH]; cbn [shortestFrom];
    set (p := (10 ^ Z.of_nat _)%Z);
    (assert (Hp : (0 < p)%Z) by (subst p; apply Z.pow_pos_nonneg; lia));
    pose proof (Z.mod_pos_bound x p Hp) as Hm;
    pose proof (Z.mod_le x p ltac:(lia) Hp) as Hle;
    (assert (Hhi : (toNumber (x - x mod p + p) =? x)%Z = false)
      by (apply Z.eqb_neq;
          destruct (Z.lt_ge_cases (x - x mod p + p) (2 ^ 53)) as [Hlt|Hge];
          [rewrite toNumber_exact by lia; lia
          | pose proof (toNumber_beyond _ Hge); lia]));
    rewrite Hhi;
    (destruct ((0 <? x - x mod p)%Z && (toNumber (x - x mod p) =? x)%Z) eqn:Elo;
     [apply andb_prop in Elo as [_ Elo]; apply Z.eqb_eq in Elo;
      rewrite toNumber_exact in Elo by lia; exact Elo|]).
  - reflexivity.
  - exact IH.
Qed.

Lemma decimal_signed (z : Z) :
  z <> 0%Z ->
  (if (z <? 0)%Z then [MINUS] else []) ++ decimal (Z.abs z) = decimal z.
Proof. destruct z as [|p|p]; [congruence | reflexivity..]. Qed.

(** [String(n)] of a safe integer is its decimal numeral. *)
Lemma numberToString_safe (n : Z) : isSafeInteger n -> numberToString n = decimal n.
Proof.
  unfold isSafeInteger. intros Hn. unfold numberToString.
  rewrite toNumber_exact by lia.
  destruct (Z.eqb_spec n 0%Z) as [->|Hne]; [reflexivity|].
  assert (Hbig : (2 ^ 1024 <=? Z.abs n)%Z = false).
  { apply Z.leb_gt. apply Z.lt_trans with (2 ^ 53)%Z; [lia|].
    apply Z.pow_lt_mono_r; lia. }
  rewrite Hbig. unfold renderPositive, shortest.
  rewrite shortestFrom_exact by lia.
  assert (Hsmall : (Z.abs n <? 10 ^ 21)%Z = true).
  { apply Z.ltb_lt. apply Z.lt_trans with (2 ^ 53)%Z; [lia | reflexivity]. }
  rewrite Hsmall. now apply decimal_signed.
Qed.

Lemma safe_is_Int (n : Z) : isSafeInteger n -> (Int_min <= n <= Int_max)%Z.
Proof.
  unfold isSafeInteger, Int_min, Int_max. intros Hn.
  assert ((2 ^ 53 < 2 ^ 63)%Z) by (apply Z.pow_lt_mono_r; lia). lia.
Qed.

End TextFacts.

(* ===================================================================== *)
(** * Properties of the MIDI send primitives *)
(* ===================================================================== *)

Module MidiFacts.
Import Midi.
Local Open Scope Z_scope.

Lemma toInt32_mod_pow2 (z k : Z) :
  0 <= k <= 32 -> toInt32 z mod 2 ^ k = z mod 2 ^ k.
Proof.
  intros Hk. unfold toInt32.
  assert (E : 2 ^ 32 = 2 ^ k * 2 ^ (32 - k)).
  { rewrite <- Z.pow_add_r by lia. f_equal. lia. }
  assert (Hpos : 0 < 2 ^ k) by (apply Z.pow_pos_nonneg; lia).
  pose proof (Z.div_mod (z + 2 ^ 31) (2 ^ 32) ltac:(lia)) as D.
  replace ((z + 2 ^ 31) mod 2 ^ 32 - 2 ^ 31)
    with (z + (- ((z + 2 ^ 31) / 2 ^ 32) * 2 ^ (32 - k)) * 2 ^ k) by (rewrite E in D at 1; lia).
  apply Z_mod_plus_full.
Qed.

Lemma toInt32_small (z : Z) : - 2 ^ 31 <= z < 2 ^ 31 -> toInt32 z = z.
Proof.
  intros Hz. unfold toInt32. rewrite Z.mod_small; lia.
Qed.

(** Masking with [2^k - 1] keeps the low [k] bits of any integer. *)
Lemma bitAnd_ones (z k : Z) :
  0 <= k <= 31 -> bitAnd z (2 ^ k - 1) = z mod 2 ^ k.
Proof.
  intros Hk. unfold bitAnd.
  assert (0 < 2 ^ k <= 2 ^ 31).
  { split; [apply Z.pow_pos_nonneg; lia | apply Z.pow_le_mono_r; lia]. }
  rewrite (toInt32_small (2 ^ k - 1)) by lia.
  replace (2 ^ k - 1) with (Z.ones k) by (rewrite Z.ones_equiv; lia).
  rewrite Z.land_ones by lia.
  apply toInt32_mod_pow2. lia.
Qed.

Lemma bitAnd_0x0f (z : Z) : bitAnd z 0x0f = z mod 16.
Proof. apply (bitAnd_ones z 4). lia. Qed.

Lemma bitAnd_0x7f (z : Z) : bitAnd z 0x7f = z mod 128.
Proof. apply (bitAnd_ones z 7). lia. Qed.

(** C10. Every send primitive, on an open port and for all integer
    arguments, hands the port exactly one message: its status byte is the
    command (0x90 note-on, 0x80 note-off, 0xB0 control-change, 0xC0
    program-change) plus the channel reduced to 0..15, its data bytes are
    the arguments reduced to 0..127, and the third byte of a note-off is 0. *)
Theorem send_primitives_well_formed
    (channel note velocity controller value program : Z) (o : Output) :
  let ch := channel mod 16 in
  let data (x : Z) := x mod 128 in
  (0 <= ch <= 15
   /\ 0 <= data note <= 127 /\ 0 <= data velocity <= 127
   /\ 0 <= data controller <= 127 /\ 0 <= data value <= 127
   /\ 0 <= data program <= 127)
  /\ sendNoteOn channel note velocity (Some o)
     = (Bridge.Ok tt, Some (mkOutput (sent o ++ [[0x90 + ch; data note; data velocity]])))
  /\ sendNoteOff channel note (Some o)
     = (Bridge.Ok tt, Some (mkOutput (sent o ++ [[0x80 + ch; data note; 0]])))
  /\ sendCC channel controller value (Some o)
     = (Bridge.Ok tt, Some (mkOutput (sent o ++ [[0xb0 + ch; data controller; data value]])))
  /\ sendProgramChange channel program (Some o)
     = (Bridge.Ok tt, Some (mkOutput (sent o ++ [[0xc0 + ch; data program]]))).
Proof.
  intros ch data. subst ch data. cbv beta.
  unfold sendNoteOn, sendNoteOff, sendCC, sendProgramChange, sendMessage.
  rewrite !bitAnd_0x0f, !bitAnd_0x7f.
  pose proof (Z.mod_pos_bound channel 16 ltac:(lia)).
  pose proof (fun x => Z.mod_pos_bound x 128 ltac:(lia)) as B.
  pose proof (B note). pose proof (B velocity). pose proof (B controller).
  pose proof (B value). pose proof (B program).
  repeat split; lia.
Qed.

End MidiFacts.

(* ===================================================================== *)
(** * Properties of the plugin-catalog parser *)
(* ===================================================================== *)

Module PluginsFacts.
Import Text Plugins TextFacts.

(** ** The matcher *)




Lemma runLength_take (p : char -> bool) (s : ustring) (n : nat) :
  n <= runLength p s -> forallb p (take n s) = true.
Proof.
  revert n. induction s as [|c s IH]; intros [|n]; simpl; auto; try lia.
  destruct (p c) eqn:E; simpl; intros Hn; [apply IH; lia | lia].
Qed.


Lemma runLength_le (p : char -> bool) (s : ustring) : runLength p s <= length s.
Proof. induction s as [|c s IH]; simpl; [lia|]. destruct (p c); lia. Qed.






Lemma parseAuvalOutput_lines (output : ustring) :
  parseAuvalOutput output = omap parseLine (jsSplit 10%N output).
Proof.
  unfold parseAuvalOutput.
  enough (G : forall lines acc,
             fold_left (fun plugins line =>
                          match parseLine line with
                          | Some u => plugins ++ [u]
                          | None => plugins
                          end) lines acc
             = acc ++ omap parseLine lines) by apply G.
  induction lines as [|l lines IH]; simpl; intros acc.
  - symmetry. apply app_nil_r.
  - rewrite IH. destruct (parseLine l); simpl; [|reflexivity].
    rewrite <- app_assoc. reflexivity.
Qed.






End PluginsFacts.

(* ===================================================================== *)
(** * Properties of the privileged backend *)
(* ===================================================================== *)

Module SwiftFacts.
Import Text Swift.

Section Walks.
Context `{Foundation}.

(** Induction on elements, with the hypothesis for every child. *)
Lemma Element_children_ind (P : Element -> Prop) :
  (forall a cs, Forall P cs -> P (mkElement a cs)) -> forall e, P e.
Proof.
  intros step. fix rec 1. intros [a cs]. apply step.
  induction cs as [|c cs IH]; constructor; [apply rec | exact IH].
Qed.

(** ** Pre-order listings *)

Lemma preorder_cons (d : Z) (e : Element) (r : list Element) :
  preorder d (e :: r) = preorderAt d e ++ preorder d r.
Proof. reflexivity. Qed.

Lemma preorderAt_eq (d : Z) (e : Element) :
  preorderAt d e = (d, e) :: preorder (d + 1) (axChildren e).
Proof. destruct e. reflexivity. Qed.

Lemma preorderAt_depth (e : Element) :
  forall d, Forall (fun x => (d <= x.1)%Z) (preorderAt d e).
Proof.
  induction e as [a cs IH] using Element_children_ind. intros d.
  rewrite preorderAt_eq. constructor; [simpl; lia|]. simpl.
  induction IH as [|c cs Hc _ IHcs]; [constructor|].
  rewrite preorder_cons. apply Forall_app. split; [|exact IHcs].
  eapply Forall_impl; [apply Hc|]. simpl. intros; lia.
Qed.

Lemma preorder_depth (d : Z) (els : list Element) :
  Forall (fun x => (d <= x.1)%Z) (preorder d els).
Proof.
  induction els as [|e els IH]; [constructor|].
  rewrite preorder_cons. apply Forall_app. split; [apply preorderAt_depth | exact IH].
Qed.

Lemma within_app {A} (m : Z) (l1 l2 : list (Z * A)) :
  within m (l1 ++ l2) = within m l1 ++ within m l2.
Proof. unfold within. apply List.filter_app. Qed.

Lemma within_none {A} (m : Z) (l : list (Z * A)) :
  Forall (fun x => (m <= x.1)%Z) l -> within m l = [].
Proof.
  induction 1 as [|[d x] l Hd _ IH]; [reflexivity|].
  simpl in *. rewrite IH. destruct (Z.ltb_spec d m); [lia | reflexivity].
Qed.

Lemma within_deep (m d : Z) (els : list Element) :
  (m <= d)%Z -> within m (preorder d els) = [].
Proof.
  intros Hmd. apply within_none.
  eapply Forall_impl; [apply preorder_depth|]. simpl. intros; lia.
Qed.

Lemma within_preorderAt (m d : Z) (e : Element) :
  (d < m)%Z ->
  within m (preorderAt d e) = (d, e) :: within m (preorder (d + 1) (axChildren e)).
Proof.
  intros Hd. rewrite preorderAt_eq. simpl.
  destruct (Z.ltb_spec d m); [reflexivity | lia].
Qed.

Lemma within_bound {A} (m : Z) (l : list (Z * A)) :
  Forall (fun x => (x.1 < m)%Z) (within m l).
Proof.
  induction l as [|[d x] l IH]; simpl; [constructor|].
  destruct (Z.ltb_spec d m); [constructor; assumption | assumption].
Qed.

Lemma within_Forall {A} (P : Z * A -> Prop) (m : Z) (l : list (Z * A)) :
  Forall P l -> Forall P (within m l).
Proof.
  induction 1 as [|[d x] l Hx _ IH]; simpl; [constructor|].
  destruct (d <? m)%Z; [constructor; assumption | assumption].
Qed.

(** ** Walks bounded by a depth *)

(** Any function with the recursion of [collectTrackElements] and
    [findParameters] (per element a step on the accumulator, then the
    children one level down while the level is below the bound) folds its
    step over the elements of depth below the bound, in pre-order. *)
Section Bounded.
Variable Acc : Type.
Variable step : Acc -> Element -> Acc.
Variable walkAt : Element -> Acc -> Z -> Z -> Acc.
Hypothesis walkAt_eq : forall e acc d m,
  walkAt e acc d m
  = let acc1 := step acc e in
    if negb (isEmptyList (getChildren e)) then
      if (d + 1 <? m)%Z
      then fold_left (fun a c => walkAt c a (d + 1) m) (getChildren e) acc1
      else acc1
    else acc1.

Lemma walkAt_fold (e : Element) :
  forall acc d m, (d < m)%Z ->
    walkAt e acc d m
    = fold_left step (map snd (within m (preorderAt d e))) acc.
Proof using walkAt_eq.
  induction e as [a cs IH] using Element_children_ind. intros acc d m Hd.
  rewrite walkAt_eq, within_preorderAt by assumption. simpl.
  destruct (Z.ltb_spec (d + 1) m) as [Hlt|Hge].
  - assert (G : forall acc0,
               fold_left (fun a c => walkAt c a (d + 1) m) cs acc0
               = fold_left step (map snd (within m (preorder (d + 1) cs))) acc0).
    { induction IH as [|c cs Hc _ IHcs]; intros acc0; [reflexivity|].
      rewrite preorder_cons, within_app, map_app, fold_left_app. simpl.
      rewrite Hc by assumption. apply IHcs. }
    destruct cs; [reflexivity|]. apply G.
  - rewrite within_deep by lia. simpl. destruct cs; reflexivity.
Qed.

Lemma walk_fold (els : list Element) (acc : Acc) (d m : Z) :
  (if (d <? m)%Z then fold_left (fun a e => walkAt e a d m) els acc else acc)
  = fold_left step (map snd (within m (preorder d els))) acc.
Proof using walkAt_eq.
  destruct (Z.ltb_spec d m) as [Hlt|Hge].
  - revert acc. induction els as [|e els IH]; intros acc; [reflexivity|].
    rewrite preorder_cons, within_app, map_app, fold_left_app. simpl.
    rewrite walkAt_fold by assumption. apply IH.
  - rewrite within_deep by lia. reflexivity.
Qed.

End Bounded.

Lemma fold_trackStep (els : list Element) (tracks : list Track) :
  fold_left trackStep els tracks
  = tracksFrom tracks (List.filter isTrackElement els).
Proof.
  revert tracks. induction els as [|e els IH]; intros tracks; [reflexivity|].
  simpl. unfold trackStep at 2. destruct (isTrackElement e); simpl; apply IH.
Qed.

Lemma fold_paramStep (els : list Element) (params : list Param) :
  fold_left paramStep els params = params ++ omap paramOf els.
Proof.
  revert params. induction els as [|e els IH]; intros params; simpl.
  - symmetry. apply app_nil_r.
  - rewrite IH. unfold paramStep. destruct (paramOf e); simpl; [|reflexivity].
    rewrite <- app_assoc. reflexivity.
Qed.

(** The source's recursion, as [collectTrackElements] is written:
    the guard, then the loop over the elements with the recursive call on
    the children. *)
Lemma collectTrackElements_eq (elements : list Element) (tracks : list Track)
    (depth maxDepth : Z) :
  collectTrackElements elements tracks depth maxDepth
  = if negb (depth <? maxDepth)%Z then tracks
    else fold_left
           (fun tracks element =>
              let tracks1 := trackStep tracks element in
              let children := getChildren element in
              if negb (isEmptyList children)
              then collectTrackElements children tracks1 (depth + 1) maxDepth
              else tracks1)
           elements tracks.
Proof.
  unfold collectTrackElements at 1. destruct (depth <? maxDepth)%Z; [|reflexivity].
  simpl. revert tracks. induction elements as [|e els IH]; intros tracks; [reflexivity|].
  simpl. rewrite IH. f_equal. destruct e as [a cs]. simpl. unfold collectTrackElements.
  destruct cs; simpl; [reflexivity|]. destruct (depth + 1 <? maxDepth)%Z; reflexivity.
Qed.

Lemma findParameters_eq (elements : list Element) (params : list Param)
    (depth maxDepth : Z) :
  findParameters elements params depth maxDepth
  = if negb (depth <? maxDepth)%Z then params
    else fold_left
           (fun params element =>
              let params1 := paramStep params element in
              let children := getChildren element in
              if negb (isEmptyList children)
              then findParameters children params1 (depth + 1) maxDepth
              else params1)
           elements params.
Proof.
  unfold findParameters at 1. destruct (depth <? maxDepth)%Z; [|reflexivity].
  simpl. revert params. induction elements as [|e els IH]; intros params; [reflexivity|].
  simpl. rewrite IH. f_equal. destruct e as [a cs]. simpl. unfold findParameters.
  destruct cs; simpl; [reflexivity|]. destruct (depth + 1 <? maxDepth)%Z; reflexivity.
Qed.

Lemma collectTrackElements_fold (elements : list Element) (tracks : list Track)
    (depth maxDepth : Z) :
  collectTrackElements elements tracks depth maxDepth
  = tracksFrom tracks
      (List.filter isTrackElement
         (map snd (within maxDepth (preorder depth elements)))).
Proof.
  rewrite <- fold_trackStep. unfold collectTrackElements.
  apply (walk_fold _ trackStep collectTrackElementsAt).
  intros [a cs] acc d m. reflexivity.
Qed.

Lemma findParameters_fold (elements : list Element) (params : list Param)
    (depth maxDepth : Z) :
  findParameters elements params depth maxDepth
  = params ++ omap paramOf (map snd (within maxDepth (preorder depth elements))).
Proof.
  rewrite <- fold_paramStep. unfold findParameters.
  apply (walk_fold _ paramStep findParametersAt).
  intros [a cs] acc d m. reflexivity.
Qed.

(** ** What lies below the bound does not matter *)

Lemma within_map_entry (m : Z) (l : list (Z * Element)) :
  within m (map entry l) = map entry (within m l).
Proof.
  induction l as [|[d e] l IH]; [reflexivity|]. simpl.
  destruct (d <? m)%Z; simpl; now rewrite IH.
Qed.

(** Forests with the same attributes within the bound reach elements with
    the same attributes, one for one. *)
Lemma reached_same_attrs (m : Z) (els els' : list Element) :
  reachedListing m els = reachedListing m els' ->
  Forall2 (fun e e' => attrs e = attrs e') (reached m els) (reached m els').
Proof.
  unfold reachedListing, listing, reached. rewrite !within_map_entry.
  generalize (within m (preorder 0 els)) (within m (preorder 0 els')).
  induction l as [|[d e] l IH]; intros [|[d' e'] l'] Heq; try discriminate;
    [constructor|].
  simpl in Heq. injection Heq as _ Ha Hl. constructor; [exact Ha | now apply IH].
Qed.

Lemma paramOf_attrs (e e' : Element) : attrs e = attrs e' -> paramOf e = paramOf e'.
Proof.
  unfold paramOf, controlName, getRole, getTitle, getDescription, getValue.
  now intros ->.
Qed.

Lemma isTrackElement_attrs (e e' : Element) :
  attrs e = attrs e' -> isTrackElement e = isTrackElement e'.
Proof. unfold isTrackElement, getRole, getDescription. now intros ->. Qed.

Lemma trackKey_attrs (tracks tracks' : list Track) (e e' : Element) :
  length tracks = length tracks' -> attrs e = attrs e' ->
  trackKey (trackOf tracks e) = trackKey (trackOf tracks' e').
Proof.
  unfold trackKey, trackOf, getDescription. simpl. now intros -> ->.
Qed.

Lemma tracksFrom_keys (l l' : list Element) :
  Forall2 (fun e e' => attrs e = attrs e') l l' ->
  forall tracks tracks',
    map trackKey tracks = map trackKey tracks' ->
    map trackKey (tracksFrom tracks (List.filter isTrackElement l))
    = map trackKey (tracksFrom tracks' (List.filter isTrackElement l')).
Proof.
  induction 1 as [|e e' l l' Ha _ IH]; intros tracks tracks' Hk; [exact Hk|].
  cbn [List.filter]. rewrite <- (isTrackElement_attrs e e' Ha).
  destruct (isTrackElement e); [|now apply IH].
  unfold tracksFrom in *. cbn [fold_left]. apply IH.
  rewrite !map_app, Hk. cbn [map]. do 2 f_equal.
  apply trackKey_attrs; [|exact Ha].
  apply (f_equal (@length _)) in Hk. now rewrite !length_map in Hk.
Qed.

Lemma omap_paramOf_attrs (l l' : list Element) :
  Forall2 (fun e e' => attrs e = attrs e') l l' ->
  omap paramOf l = omap paramOf l'.
Proof.
  induction 1 as [|e e' l l' Ha _ IH]; [reflexivity|].
  cbn [omap list_omap]. now rewrite (paramOf_attrs e e' Ha), IH.
Qed.

Lemma within_within {A} (m m' : Z) (l : list (Z * A)) :
  (m <= m')%Z -> within m (within m' l) = within m l.
Proof.
  intros Hm. unfold within. induction l as [|[d x] l IH]; [reflexivity|].
  cbn [List.filter]. destruct (Z.ltb_spec d m') as [H1|H1]; cbn [List.filter].
  - destruct (Z.ltb_spec d m); now rewrite IH.
  - destruct (Z.ltb_spec d m); [lia | exact IH].
Qed.

Lemma reachedListing_below (m m' : Z) (els els' : list Element) :
  (m <= m')%Z ->
  reachedListing m' els = reachedListing m' els' ->
  reachedListing m els = reachedListing m els'.
Proof.
  unfold reachedListing. intros Hm Heq.
  rewrite <- (within_within m m' (listing 0 els)) by assumption.
  rewrite <- (within_within m m' (listing 0 els')) by assumption.
  now rewrite Heq.
Qed.

Lemma tracksFrom_alike (l l' : list Element) :
  Forall2 alikeForTracks l l' ->
  forall tracks,
    tracksFrom tracks (List.filter isTrackElement l)
    = tracksFrom tracks (List.filter isTrackElement l').
Proof.
  induction 1 as [|e e' l l' [Ha Hc] _ IH]; intros tracks; [reflexivity|].
  cbn [List.filter]. rewrite <- (isTrackElement_attrs e e' Ha).
  destruct (isTrackElement e) eqn:Et; [|apply IH].
  specialize (Hc eq_refl). destruct e as [a cs], e' as [a' cs'].
  cbn [attrs axChildren] in Ha, Hc. subst a' cs'.
  unfold tracksFrom in *. cbn [fold_left]. apply IH.
Qed.

(** C4, amended. For every forest and every bound, the walk of
    [collectTrackElements] and the walk of [findParameters] test, and
    return matches for, exactly the elements of depth below [maxDepth] (the
    roots at depth 0), in pre-order, and both are total functions.  For the
    parameters nothing else is read: forests that agree on the attributes
    of their elements of depth below [maxDepth] yield the same parameters,
    so the bound holds as stated.  For the tracks the positions, numbers
    and names depend on those elements only, while the flags and the
    plugin names of a returned track are read from the children and the
    whole subtree of its row, whatever their depth: the tracks are the same
    whenever the elements reached have the same attributes and the track
    rows among them the same children. *)
Theorem bounded_walks_stay_within_maxDepth
    (elements : list Element) (maxDepth : Z) :
  collectTrackElements elements [] 0 maxDepth
  = tracksFrom [] (List.filter isTrackElement (reached maxDepth elements))
  /\ findParameters elements [] 0 maxDepth
     = omap paramOf (reached maxDepth elements)
  /\ (forall elements',
        reachedListing maxDepth elements = reachedListing maxDepth elements' ->
        findParameters elements [] 0 maxDepth
        = findParameters elements' [] 0 maxDepth
        /\ map trackKey (collectTrackElements elements [] 0 maxDepth)
           = map trackKey (collectTrackElements elements' [] 0 maxDepth))
  /\ (forall elements',
        Forall2 alikeForTracks (reached maxDepth elements)
                (reached maxDepth elements') ->
        collectTrackElements elements [] 0 maxDepth
        = collectTrackElements elements' [] 0 maxDepth)
  /\ boundAsStated (fun elements maxDepth => findParameters elements [] 0 maxDepth).
Proof.
  split; [apply collectTrackElements_fold|].
  split; [apply findParameters_fold|].
  split; [|split].
  - intros elements' Hsame. apply reached_same_attrs in Hsame.
    rewrite !findParameters_fold, !collectTrackElements_fold. split.
    + cbn [app]. now apply omap_paramOf_attrs.
    + now apply tracksFrom_keys.
  - intros elements' Halike. rewrite !collectTrackElements_fold.
    now apply tracksFrom_alike.
  - intros m els els' Hsame.
    apply (reachedListing_below m (m + 1)) in Hsame; [|lia].
    apply reached_same_attrs in Hsame. rewrite !findParameters_fold.
    cbn [app]. now apply omap_paramOf_attrs.
Qed.



(** ** Plugin names *)

Lemma pluginTitles_app (l1 l2 : list Element) :
  pluginTitles (l1 ++ l2) = pluginTitles l1 ++ pluginTitles l2.
Proof. unfold pluginTitles. rewrite List.filter_app, map_app. reflexivity. Qed.

Lemma findPluginNamesAt_titles (e : Element) :
  forall plugins d,
    findPluginNamesAt e plugins
    = plugins ++ pluginTitles (map snd (preorderAt d e)).
Proof.
  induction e as [a cs IH] using Element_children_ind. intros plugins d.
  rewrite preorderAt_eq. simpl.
  assert (G : forall acc,
             fold_left (fun acc e => findPluginNamesAt e acc) cs acc
             = acc ++ pluginTitles (map snd (preorder (d + 1) cs))).
  { induction IH as [|c cs Hc _ IHcs]; intros acc; cbn [fold_left].
    - symmetry. apply app_nil_r.
    - rewrite preorder_cons, map_app, pluginTitles_app, IHcs, (Hc _ (d + 1)%Z).
      rewrite <- app_assoc. reflexivity. }
  rewrite G. unfold pluginTitles at 2. simpl.
  destruct (isPluginButton (mkElement a cs)); simpl;
    destruct cs; simpl; rewrite <- ?app_assoc, ?app_nil_r; reflexivity.
Qed.

(** [findPluginNames] lists the titles of the plugin buttons of the whole
    forest, in pre-order. *)
Lemma findPluginNames_titles (els : list Element) (d : Z) :
  findPluginNames els = pluginTitles (map snd (preorder d els)).
Proof.
  unfold findPluginNames.
  enough (G : forall acc,
             fold_left (fun plugins e => findPluginNamesAt e plugins) els acc
             = acc ++ pluginTitles (map snd (preorder d els))) by apply G.
  induction els as [|e els IH]; intros acc; cbn [fold_left].
  - symmetry. apply app_nil_r.
  - rewrite preorder_cons, map_app, pluginTitles_app, IH,
      (findPluginNamesAt_titles _ _ d), <- app_assoc. reflexivity.
Qed.

Lemma track_is_no_button (e : Element) :
  isTrackElement e = true -> isPluginButton e = false.
Proof.
  unfold isTrackElement, isPluginButton, eqb. intros Ht.
  apply andb_prop in Ht as [Hr _]. apply bool_decide_eq_true in Hr.
  rewrite Hr. reflexivity.
Qed.

Lemma plugins_tracksFrom (els : list Element) (tracks : list Track) :
  map plugins (tracksFrom tracks els)
  = map plugins tracks ++ map (fun e => findPluginNames (getChildren e)) els.
Proof.
  unfold tracksFrom. revert tracks.
  induction els as [|e els IH]; intros tracks; simpl.
  - symmetry. apply app_nil_r.
  - rewrite IH, map_app, <- app_assoc. reflexivity.
Qed.

(** ** The write *)

Lemma findIndex_app {A} (p : A -> bool) (l1 l2 : list A) :
  findIndex p (l1 ++ l2)
  = match findIndex p l1 with
    | Some i => Some i
    | None => (fun j => length l1 + j) <$> findIndex p l2
    end.
Proof.
  induction l1 as [|x l1 IH]; simpl.
  - destruct (findIndex p l2); reflexivity.
  - destruct (p x); [reflexivity|]. rewrite IH.
    destruct (findIndex p l1); simpl; [reflexivity|].
    destruct (findIndex p l2); reflexivity.
Qed.

Lemma findIndex_lt {A} (p : A -> bool) (l : list A) (i : nat) :
  findIndex p l = Some i -> i < length l.
Proof.
  revert i. induction l as [|x l IH]; simpl; intros i; [discriminate|].
  destruct (p x).
  - intros [= <-]. lia.
  - destruct (findIndex p l) as [j|]; simpl; [|discriminate].
    intros [= <-]. specialize (IH j eq_refl). lia.
Qed.

Lemma findIndex_none {A} (p : A -> bool) (l : list A) :
  Forall (fun x => p x = false) l -> findIndex p l = None.
Proof.
  induction 1 as [|x l Hx _ IH]; simpl; [reflexivity|]. now rewrite Hx, IH.
Qed.

Section Write.
Variables (paramName value : ustring) (maxDepth : Z).

#[local] Abbreviation outcome := (writeOutcome paramName value maxDepth).
#[local] Abbreviation visit d := (fun e => findAndSetParameterAt e paramName value d maxDepth).

Lemma accepting_deep (d : Z) (els : list Element) :
  (maxDepth <= d)%Z ->
  findIndex (accepting paramName value maxDepth) (preorder d els) = None.
Proof.
  intros Hd. apply findIndex_none.
  eapply Forall_impl; [apply (preorder_depth d)|].
  intros [d' e] Hx. simpl in Hx. unfold accepting. simpl.
  destruct (Z.ltb_spec d' maxDepth); [lia | apply andb_false_r].
Qed.

Lemma outcome_found_left (l1 l2 : list (Z * Element)) after :
  outcome l1 true after -> outcome (l1 ++ l2) true (after ++ map entry l2).
Proof.
  unfold writeOutcome. rewrite findIndex_app.
  destruct (findIndex _ l1) as [i|] eqn:E; [|intros [? _]; discriminate].
  intros [_ (d & e & v & Hi & Hw & ->)]. split; [reflexivity|].
  exists d, e, v. split; [|split; [exact Hw|]].
  - rewrite lookup_app_l; [exact Hi | eauto using findIndex_lt].
  - rewrite map_app. symmetry. apply insert_app_l.
    rewrite length_map. eauto using findIndex_lt.
Qed.

Lemma outcome_skip_left (l1 l2 : list (Z * Element)) found after :
  findIndex (accepting paramName value maxDepth) l1 = None ->
  outcome l2 found after -> outcome (l1 ++ l2) found (map entry l1 ++ after).
Proof.
  intros Hnone. unfold writeOutcome. rewrite findIndex_app, Hnone.
  destruct (findIndex _ l2) as [i|] eqn:E; simpl.
  - intros [-> (d & e & v & Hi & Hw & ->)]. split; [reflexivity|].
    exists d, e, v. split; [|split; [exact Hw|]].
    + rewrite lookup_app_r by lia. rewrite <- Hi. f_equal. lia.
    + rewrite map_app. rewrite <- (length_map entry l1).
      symmetry. apply insert_app_r.
  - intros [-> ->]. split; [reflexivity|]. rewrite map_app. reflexivity.
Qed.

Lemma untilFound_outcome (d : Z) (cs : list Element) :
  Forall (fun c =>
            outcome (preorderAt d c) (visit d c).1
                    (map entry (preorderAt d (visit d c).2))
            /\ ((visit d c).1 = false -> (visit d c).2 = c)) cs ->
  outcome (preorder d cs) (untilFound (visit d) cs).1
          (listing d (untilFound (visit d) cs).2)
  /\ ((untilFound (visit d) cs).1 = false -> (untilFound (visit d) cs).2 = cs).
Proof.
  induction 1 as [|c cs [Hc Hsame] _ [IHo IHs]].
  - simpl. split; [|reflexivity]. unfold writeOutcome. simpl. auto.
  - cbn [untilFound]. destruct (visit d c) as [found c'] eqn:Ec.
    simpl in Hc, Hsame. destruct found.
    + simpl. split; [|discriminate].
      unfold listing. rewrite !preorder_cons, map_app.
      now apply outcome_found_left.
    + specialize (Hsame eq_refl). subst c'.
      destruct (untilFound (visit d) cs) as [found' cs'] eqn:Er. simpl in *.
      split.
      * unfold listing in *. rewrite !preorder_cons, map_app.
        apply outcome_skip_left; [|exact IHo].
        unfold writeOutcome in Hc.
        destruct (findIndex _ (preorderAt d c)); [destruct Hc; discriminate | reflexivity].
      * intros ->. now rewrite IHs.
Qed.

Lemma accepts_writeFor (e : Element) :
  accepts paramName value e
  = match writeFor e paramName value with Some _ => true | None => false end.
Proof. reflexivity. Qed.

Lemma writeFor_attrs (a : Attrs) (cs cs' : list Element) :
  writeFor (mkElement a cs) paramName value
  = writeFor (mkElement a cs') paramName value.
Proof. reflexivity. Qed.

Lemma findAndSetParameterAt_outcome (e : Element) :
  forall d, (d < maxDepth)%Z ->
    outcome (preorderAt d e) (visit d e).1 (map entry (preorderAt d (visit d e).2))
    /\ ((visit d e).1 = false -> (visit d e).2 = e).
Proof.
  induction e as [a cs IH] using Element_children_ind. intros d Hd.
  cbn [findAndSetParameterAt].
  destruct (writeFor (mkElement a cs) paramName value) as [v|] eqn:Ew.
  - (* the element itself takes the value *)
    split; [|discriminate]. simpl. unfold writeOutcome. simpl.
    unfold accepting at 1. simpl. rewrite accepts_writeFor, Ew. simpl.
    destruct (Z.ltb_spec d maxDepth); [|lia]. split; [reflexivity|].
    exists d, (mkElement a cs), v. auto.
  - assert (Hhead : findIndex (accepting paramName value maxDepth)
                              [(d, mkElement a cs)] = None).
    { simpl. unfold accepting. simpl. now rewrite accepts_writeFor, Ew. }
    destruct cs as [|c cs0].
    { (* no children *)
      simpl. split; [|reflexivity]. unfold writeOutcome.
      change (preorderAt d (mkElement a [])) with [(d, mkElement a [])].
      rewrite Hhead. auto. }
    cbn [getChildren axChildren isEmptyList negb].
    rewrite preorderAt_eq.
    change ((d, mkElement a (c :: cs0)) :: ?l)
      with ([(d, mkElement a (c :: cs0))] ++ l).
    cbn [axChildren].
    destruct (Z.ltb_spec (d + 1) maxDepth) as [Hlt|Hge].
    + (* the search goes on among the children *)
      destruct (untilFound_outcome (d + 1) (c :: cs0)) as [Ho Hs].
      { eapply Forall_impl; [exact IH|]. intros x Hx. apply Hx. exact Hlt. }
      destruct (untilFound (visit (d + 1)%Z) (c :: cs0)) as [found cs'].
      cbn [fst snd] in *. split.
      * rewrite preorderAt_eq. cbn [axChildren].
        apply (outcome_skip_left [(d, mkElement a (c :: cs0))] _ found _ Hhead Ho).
      * intros Hf. now rewrite (Hs Hf).
    + (* the children lie at the bound *)
      cbn [fst snd]. split; [|reflexivity].
      unfold writeOutcome. rewrite findIndex_app, Hhead.
      rewrite accepting_deep by assumption. cbn [fmap option_fmap option_map].
      split; reflexivity.
Qed.

(** [findAndSetParameter] writes on the first accepting entry of the
    pre-order listing, when there is one within the bound, and on nothing
    else. *)
Lemma findAndSetParameter_outcome (els : list Element) (d : Z) :
  let r := findAndSetParameter els paramName value d maxDepth in
  outcome (preorder d els) r.1 (listing d r.2) /\ (r.1 = false -> r.2 = els).
Proof.
  unfold findAndSetParameter. destruct (Z.ltb_spec d maxDepth) as [Hlt|Hge].
  - apply untilFound_outcome. apply Forall_forall. intros e _.
    now apply findAndSetParameterAt_outcome.
  - cbn [fst snd]. split; [|reflexivity].
    unfold writeOutcome. rewrite accepting_deep by assumption. auto.
Qed.

Lemma holdsValue_written (e : Element) (v : AXValue) :
  writeFor e paramName value = Some v ->
  holdsValue value (attrs (setValueAttribute e v)).
Proof.
  unfold writeFor, holdsValue. simpl.
  destruct (matchesControlName _ _); [|discriminate].
  destruct (eqb _ (lit "AXSlider")).
  - destruct (Float_of_string value) eqn:E; [|discriminate].
    intros [= <-]. reflexivity.
  - destruct (eqb _ (lit "AXTextField")); [|discriminate].
    intros [= <-]. reflexivity.
Qed.

Lemma accepts_writable (e : Element) :
  accepts paramName value e = true -> writableMatch paramName e = true.
Proof.
  unfold accepts, writeFor, writableMatch.
  destruct (matchesControlName _ _); [|discriminate]. simpl.
  destruct (eqb _ (lit "AXSlider")); [reflexivity|].
  destruct (eqb _ (lit "AXTextField")); [reflexivity | discriminate].
Qed.

Lemma no_match_none_accepting (l : list (Z * Element)) :
  Forall (fun e => writableMatch paramName e = false) (map snd (within maxDepth l)) ->
  Forall (fun x => accepting paramName value maxDepth x = false) l.
Proof.
  induction l as [|[d e] l IH]; intros Hno; [constructor|].
  unfold within in *. simpl in Hno. constructor.
  - unfold accepting. simpl. destruct (d <? maxDepth)%Z; [|apply andb_false_r].
    rewrite andb_true_r. inversion Hno as [|? ? He _]; subst.
    destruct (accepts paramName value e) eqn:Ea; [|reflexivity].
    apply accepts_writable in Ea. congruence.
  - apply IH. destruct (d <? maxDepth)%Z; [|exact Hno].
    now inversion Hno.
Qed.

(** Without a writable control of that label within the bound, nothing is
    written and [findAndSetParameter] returns [false]. *)
Lemma findAndSetParameter_none (els : list Element) :
  Forall (fun e => writableMatch paramName e = false) (reached maxDepth els) ->
  findAndSetParameter els paramName value 0 maxDepth = (false, els).
Proof.
  intros Hno.
  assert (Hnone : findIndex (accepting paramName value maxDepth) (preorder 0 els)
                  = None)
    by now apply findIndex_none, no_match_none_accepting.
  destruct (findAndSetParameter_outcome els 0) as [Ho Hs].
  unfold writeOutcome in Ho. rewrite Hnone in Ho. destruct Ho as [Hf _].
  specialize (Hs Hf).
  destruct (findAndSetParameter els paramName value 0 maxDepth) as [f els'].
  simpl in *. congruence.
Qed.

End Write.

(** C3, amended. When the pre-order listing of the forest has an element
    within the depth bound whose label matches and whose role takes the
    value (a text field, or a slider when the value parses as a number),
    [findAndSetParameter] writes the value on the first such element,
    returns [true], and leaves every other element as it was. *)
Theorem findAndSetParameter_first_accepting
    (elements : list Element) (paramName value : ustring) (maxDepth : Z)
    (i : nat) :
  findIndex (accepting paramName value maxDepth) (preorder 0 elements) = Some i ->
  exists d e v elements',
    preorder 0 elements !! i = Some (d, e)
    /\ writeFor e paramName value = Some v
    /\ findAndSetParameter elements paramName value 0 maxDepth = (true, elements')
    /\ listing 0 elements'
       = <[i := (d, attrs (setValueAttribute e v))]> (listing 0 elements)
    /\ holdsValue value (attrs (setValueAttribute e v))
    /\ (forall j, j <> i -> listing 0 elements' !! j = listing 0 elements !! j).
Proof.
  intros Hi.
  destruct (findAndSetParameter_outcome paramName value maxDepth elements 0)
    as [Ho _].
  unfold writeOutcome in Ho. rewrite Hi in Ho.
  destruct Ho as [Hf (d & e & v & Hl & Hw & Ha)].
  destruct (findAndSetParameter elements paramName value 0 maxDepth)
    as [f elements'].
  simpl in Hf, Ha. subst f.
  exists d, e, v, elements'. repeat split; auto.
  - eauto using holdsValue_written.
  - intros j Hj. rewrite Ha. unfold listing. now apply list_lookup_insert_ne.
Qed.

(** [findPluginNames] and [findAndSetParameter] as the source writes them:
    a loop over the elements with the recursive call on the children. *)
Lemma findPluginNames_eq (elements : list Element) :
  findPluginNames elements
  = fold_left
      (fun plugins element =>
         let plugins1 :=
           if isPluginButton element
           then plugins ++ [default [] (getTitle element)] else plugins in
         let children := getChildren element in
         if negb (isEmptyList children)
         then plugins1 ++ findPluginNames children
         else plugins1)
      elements [].
Proof.
  unfold findPluginNames at 1.
  enough (G : forall acc,
             fold_left (fun plugins e => findPluginNamesAt e plugins) elements acc
             = fold_left
                 (fun plugins element =>
                    let plugins1 :=
                      if isPluginButton element
                      then plugins ++ [default [] (getTitle element)] else plugins in
                    let children := getChildren element in
                    if negb (isEmptyList children)
                    then plugins1 ++ findPluginNames children
                    else plugins1)
                 elements acc) by apply G.
  induction elements as [|e els IH]; intros acc; [reflexivity|].
  cbn [fold_left]. rewrite IH. f_equal. destruct e as [a cs]. reflexivity.
Qed.

Lemma findAndSetParameter_eq (elements : list Element)
    (paramName value : ustring) (depth maxDepth : Z) :
  findAndSetParameter elements paramName value depth maxDepth
  = if negb (depth <? maxDepth)%Z then (false, elements)
    else untilFound
           (fun element =>
              match writeFor element paramName value with
              | Some v => (true, setValueAttribute element v)
              | None =>
                let children := getChildren element in
                if negb (isEmptyList children) then
                  let '(found, children') :=
                    findAndSetParameter children paramName value (depth + 1)
                                        maxDepth in
                  (found, mkElement (attrs element) children')
                else (false, element)
              end)
           elements.
Proof.
  unfold findAndSetParameter at 1.
  destruct (depth <? maxDepth)%Z; [|reflexivity]. cbn [negb].
  induction elements as [|e els IH]; [reflexivity|].
  cbn [untilFound]. rewrite IH.
  replace (findAndSetParameterAt e paramName value depth maxDepth)
    with (match writeFor e paramName value with
          | Some v => (true, setValueAttribute e v)
          | None =>
            let children := getChildren e in
            if negb (isEmptyList children) then
              let '(found, children') :=
                findAndSetParameter children paramName value (depth + 1) maxDepth in
              (found, mkElement (attrs e) children')
            else (false, e)
          end); [reflexivity|].
  destruct e as [a cs]. cbn [findAndSetParameterAt].
  destruct (writeFor (mkElement a cs) paramName value); [reflexivity|].
  cbn [getChildren axChildren attrs]. destruct cs as [|c cs]; [reflexivity|].
  cbn [isEmptyList negb]. unfold findAndSetParameter.
  destruct (depth + 1 <? maxDepth)%Z; reflexivity.
Qed.

(** ** The control-name test *)




(** ** Commands *)

Lemma untilFound_none {A} (step : A -> bool * A) (l : list A) :
  Forall (fun x => step x = (false, x)) l -> untilFound step l = (false, l).
Proof.
  induction 1 as [|x l Hx _ IH]; [reflexivity|].
  cbn [untilFound]. now rewrite Hx, IH.
Qed.

(** When no window holds a writable control of that label within eight
    levels, [setPluginParameter] writes nothing, prints nothing on standard
    output, reports on standard error, and returns normally. *)
Lemma setPluginParameter_not_found (host : Host) (app : App)
    (trackIndex slotIndex : Z) (paramName value : ustring) :
  logicPro host = Some app ->
  Forall (fun window =>
            Forall (fun e => writableMatch paramName e = false)
                   (reached 8 (getChildren window)))
         (appChildren app) ->
  setPluginParameter trackIndex slotIndex paramName value host
  = (mkRun [] [printError (notFoundMessage paramName)] 0, host).
Proof.
  intros Happ Hno. unfold setPluginParameter. rewrite Happ.
  rewrite untilFound_none; [reflexivity|].
  eapply Forall_impl; [exact Hno|]. intros [a cs] Hw. cbn [getChildren axChildren] in *.
  now rewrite findAndSetParameter_none.
Qed.

Lemma main_set_param (program paramName value : ustring) (trackIndex slotIndex : Z)
    (host : Host) :
  (Int_min <= trackIndex <= Int_max)%Z -> (Int_min <= slotIndex <= Int_max)%Z ->
  main [program; lit "set-param"; decimal trackIndex; decimal slotIndex;
        paramName; value] host
  = setPluginParameter trackIndex slotIndex paramName value host.
Proof.
  intros Ht Hs. unfold main.
  replace (eqb (lit "set-param") (lit "check-access")) with false by reflexivity.
  replace (eqb (lit "set-param") (lit "list-tracks")) with false by reflexivity.
  replace (eqb (lit "set-param") (lit "get-params")) with false by reflexivity.
  replace (eqb (lit "set-param") (lit "set-param")) with true by reflexivity.
  now rewrite !TextFacts.Int_of_string_decimal.
Qed.

End Walks.

Lemma bounded_walks_stay_within_maxDepth_witness :
  let one := Sample.trackWith (Sample.slider "Gain") in
  let other := Sample.trackWith (Sample.button "Reverb") in
  reachedListing 2 one = reachedListing 2 other
  /\ findParameters one [] 0 2 = findParameters other [] 0 2
  /\ map trackKey (collectTrackElements one [] 0 2)
     = map trackKey (collectTrackElements other [] 0 2).
Proof.
  split; [reflexivity|].
  apply (proj1 (proj2 (proj2
           (@bounded_walks_stay_within_maxDepth Sample.foundation
              (Sample.trackWith (Sample.slider "Gain")) 2)))
           (Sample.trackWith (Sample.button "Reverb"))).
  reflexivity.
Defined.

(** C4, as stated, fails for the collection of tracks.  Two forests with
    one track row each agree on every element of depth up to 2, and differ
    in the title of a button three levels below the row: with a bound of 2
    the tracks returned differ in their plugin names, so an element deeper
    than the bound was read. *)
Lemma depth_bound_as_stated_fails :
  ~ boundAsStated
      (fun elements maxDepth =>
         @collectTrackElements Sample.foundation elements [] 0 maxDepth).
Proof.
  intros Hclaim.
  specialize (Hclaim 2%Z (Sample.deepPlugin "Reverb") (Sample.deepPlugin "Delay")
                eq_refl).
  cbv beta in Hclaim. apply (f_equal (map plugins)) in Hclaim.
  assert (E1 : map plugins (collectTrackElements (Sample.deepPlugin "Reverb") [] 0 2)
               = [[lit "Reverb"]]) by reflexivity.
  assert (E2 : map plugins (collectTrackElements (Sample.deepPlugin "Delay") [] 0 2)
               = [[lit "Delay"]]) by reflexivity.
  rewrite E1, E2 in Hclaim. discriminate Hclaim.
Qed.



Lemma findAndSetParameter_first_accepting_witness :
  let elements := Sample.sliderThenField in
  findIndex (accepting (lit "gain") (lit "7") 8) (preorder 0 elements) = Some 0
  /\ exists d e v elements',
       preorder 0 elements !! 0 = Some (d, e)
       /\ writeFor e (lit "gain") (lit "7") = Some v
       /\ findAndSetParameter elements (lit "gain") (lit "7") 0 8 = (true, elements')
       /\ listing 0 elements'
          = <[0 := (d, attrs (setValueAttribute e v))]> (listing 0 elements)
       /\ holdsValue (lit "7") (attrs (setValueAttribute e v))
       /\ (forall j, j <> 0 -> listing 0 elements' !! j = listing 0 elements !! j).
Proof.
  split; [reflexivity|].
  apply (findAndSetParameter_first_accepting Sample.sliderThenField
           (lit "gain") (lit "7") 8 0).
  reflexivity.
Defined.

(** C3, as stated, fails in two ways.  A slider and a text field share the
    label and the value is no number: the slider, first in pre-order, is
    passed over and the text field is written.  Two text fields share the
    label and the first lies below the depth bound: the second is
    written. *)
Lemma tie_break_as_stated_fails :
  ~ tieBreakAsStated Sample.sliderThenField (lit "gain") (lit "loud") 8
  /\ ~ tieBreakAsStated Sample.deepThenShallow (lit "Gain") (lit "0.5") 8.
Proof.
  split; intros Hclaim.
  - destruct (Hclaim 0 1 (0%Z, Sample.field "Gain") eq_refl ltac:(lia) eq_refl eq_refl)
      as (_ & (d & a & Hl & Hv) & _).
    assert (E : listing 0 (findAndSetParameter Sample.sliderThenField
                             (lit "gain") (lit "loud") 0 8).2 !! 0
                = Some (0%Z, attrs (Sample.slider "Gain"))) by reflexivity.
    rewrite E in Hl. injection Hl as <- <-.
    unfold holdsValue in Hv. cbn [attrs axValue Sample.slider Sample.element] in Hv.
    assert (N : Int_of_string (lit "loud") = None) by (vm_compute; reflexivity).
    cbn [Float_of_string Sample.foundation] in Hv. congruence.
  - destruct (Hclaim 8 9 (0%Z, Sample.field "Gain") eq_refl ltac:(lia) eq_refl eq_refl)
      as (_ & _ & Hl).
    assert (E : listing 0 (findAndSetParameter Sample.deepThenShallow
                             (lit "Gain") (lit "0.5") 0 8).2 !! 9
                = Some (0%Z, attrs (setValueAttribute (Sample.field "Gain")
                                      (AXString (lit "0.5"))))) by reflexivity.
    rewrite E in Hl. discriminate Hl.
Qed.

End SwiftFacts.

(* ===================================================================== *)
(** * Properties of the label parsers *)
(* ===================================================================== *)

Module LabelFacts.
Import Text TextFacts.

Lemma removeQuotes_app (s1 s2 : ustring) :
  JXA.removeQuotes (s1 ++ s2) = JXA.removeQuotes s1 ++ JXA.removeQuotes s2.
Proof. apply List.filter_app. Qed.

Lemma removeQuotes_absent (s : ustring) :
  absent LDQUO s -> absent RDQUO s -> absent DQUOTE s -> JXA.removeQuotes s = s.
Proof.
  unfold absent, JXA.removeQuotes. induction s as [|x s IH]; [reflexivity|].
  simpl. intros H1 H2 H3.
  apply andb_prop in H1 as [H1 L1]. apply andb_prop in H2 as [H2 L2].
  apply andb_prop in H3 as [H3 L3].
  apply negb_true_iff in H1, H2, H3. rewrite H1, H2, H3. simpl.
  now rewrite IH.
Qed.

Section Labels.
Variables (prefix name : ustring) (number : Z).
Hypothesis prefix_nonempty : prefix <> [].
Hypothesis prefix_no_space : absent SPACE prefix.

#[local] Abbreviation before := (labelHead prefix number).

Lemma label_before (opening closing : char) :
  label prefix number opening name closing
  = before ++ opening :: name ++ [closing].
Proof.
  unfold label, labelHead. rewrite <- !app_assoc. cbn [app].
  rewrite <- !app_assoc. reflexivity.
Qed.

Lemma before_absent (c : char) :
  c <> SPACE -> c <> MINUS -> isDigit c = false -> absent c prefix ->
  absent c before.
Proof.
  intros Hs Hm Hd Hp. unfold labelHead.
  apply absent_app. split; [exact Hp|].
  apply absent_cons. split; [congruence|].
  apply absent_app. split; [now apply decimal_chars|].
  apply absent_cons. split; [congruence | apply absent_nil].
Qed.

Lemma extractTrackNumber_label (opening closing : char) :
  (Int_min <= number <= Int_max)%Z ->
  Swift.extractTrackNumber (label prefix number opening name closing) = number.
Proof using prefix_nonempty prefix_no_space.
  intros Hr. unfold Swift.extractTrackNumber, label.
  rewrite swiftSplit_second; auto using decimal_nonempty.
  - now rewrite Int_of_string_decimal.
  - now apply decimal_chars.
Qed.

Lemma trackNum_label (opening closing : char) :
  JXA.trackNum (label prefix number opening name closing) = JSInt number.
Proof using prefix_no_space.
  unfold JXA.trackNum, label.
  destruct (jsSplit_second SPACE prefix (decimal number)
              (opening :: name ++ [closing])) as (parts & ->); auto.
  - now apply decimal_chars.
  - cbn. apply parseInt_decimal.
Qed.

Hypothesis prefix_no_low9 : absent LOW9 prefix.
Hypothesis prefix_no_dquote : absent DQUOTE prefix.
Hypothesis name_no_low9 : absent LOW9 name.
Hypothesis name_no_ldquo : absent LDQUO name.
Hypothesis name_no_rdquo : absent RDQUO name.
Hypothesis name_no_dquote : absent DQUOTE name.

Lemma closing_removed (closing : char) :
  closing = LDQUO \/ closing = RDQUO \/ closing = DQUOTE ->
  removeChar DQUOTE (removeChar RDQUO (removeChar LDQUO (name ++ [closing])))
  = name
  /\ JXA.removeQuotes (name ++ [closing]) = name.
Proof using name_no_ldquo name_no_rdquo name_no_dquote.
  intros Hc. split.
  - rewrite removeChar_app, (removeChar_absent LDQUO name) by assumption.
    rewrite removeChar_app, (removeChar_absent RDQUO name) by assumption.
    rewrite removeChar_app, (removeChar_absent DQUOTE name) by assumption.
    destruct Hc as [-> | [-> | ->]]; cbn; apply app_nil_r.
  - rewrite removeQuotes_app, removeQuotes_absent by assumption.
    destruct Hc as [-> | [-> | ->]]; cbn; apply app_nil_r.
Qed.

Lemma low9_label_names (closing : char) :
  closing = LDQUO \/ closing = RDQUO \/ closing = DQUOTE ->
  Swift.extractTrackName (label prefix number LOW9 name closing) = swiftTrim name
  /\ JXA.trackName (label prefix number LOW9 name closing) = jsTrim name.
Proof using prefix_no_low9 name_no_ldquo name_no_rdquo name_no_dquote.
  intros Hc. destruct (closing_removed closing Hc) as [Hs Hj].
  assert (Hb : absent LOW9 before) by (apply before_absent; easy).
  unfold Swift.extractTrackName, JXA.trackName.
  rewrite label_before, indexOf_char_first by assumption.
  replace (length before + 1) with (length (before ++ [LOW9]))
    by (rewrite length_app; reflexivity).
  change (before ++ LOW9 :: name ++ [closing])
    with (before ++ [LOW9] ++ name ++ [closing]).
  rewrite app_assoc, drop_app_length. now rewrite Hs, Hj.
Qed.

Lemma straight_label_names :
  Swift.extractTrackName (label prefix number DQUOTE name DQUOTE) = swiftTrim name
  /\ JXA.trackName (label prefix number DQUOTE name DQUOTE) = name.
Proof using prefix_no_low9 prefix_no_dquote name_no_low9 name_no_dquote.
  assert (Hb : absent DQUOTE before) by (apply before_absent; easy).
  assert (Hl : absent LOW9 (label prefix number DQUOTE name DQUOTE)).
  { rewrite label_before. apply absent_app. split; [apply before_absent; easy|].
    apply absent_cons. split; [easy|]. apply absent_app. split; [assumption|].
    reflexivity. }
  unfold Swift.extractTrackName, JXA.trackName.
  rewrite (indexOf_char_absent LOW9) by assumption.
  rewrite label_before, indexOf_char_first by assumption.
  replace (length before + 1) with (length (before ++ [DQUOTE]))
    by (rewrite length_app; reflexivity).
  change (before ++ DQUOTE :: name ++ [DQUOTE])
    with (before ++ [DQUOTE] ++ name ++ [DQUOTE]).
  rewrite app_assoc, drop_app_length.
  rewrite indexOf_char_first, lastIndexOfChar_end by assumption.
  now rewrite take_app_length.
Qed.

End Labels.

(** C5, as stated, fails: in [Track 4 «Drums»] the guillemets are not
    among the quote characters the parsers look for.  The Swift parser
    falls back to the text after the number, guillemets included, and the
    JXA parser keeps the whole label. *)
Lemma guillemet_label_not_parsed :
  let s := label (lit "Track") 4 LAQUO (lit "Drums") RAQUO in
  s = lit "Track 4 «Drums»"
  /\ Swift.extractTrackName s = lit "«Drums»"
  /\ JXA.trackName s = lit "Track 4 «Drums»"
  /\ Swift.extractTrackName s <> lit "Drums"
  /\ JXA.trackName s <> lit "Drums".
Proof. repeat split; try (vm_compute; reflexivity); vm_compute; discriminate. Qed.

(** C5, amended. For a label [<Prefix> <N> „Name“] (the name opened by the
    low-9 quote U+201E and closed by U+201C, U+201D or a straight quote) or
    [<Prefix> <N> <straight quote>Name<straight quote>], with a non-empty
    prefix free of spaces and quotes, N a 64-bit integer in decimal and a
    name free of quote characters: the Swift parsers return N and the name
    trimmed of white space; the JXA parser returns N (exactly, as a
    Number, up to 2^53) and the trimmed name in the low-9 variant; in the
    straight-quote variant it returns the name, when the name carries no
    white space at its ends. *)
Theorem track_label_parsers
    (prefix name : ustring) (number : Z) (closing : char) :
  prefix <> [] ->
  absent SPACE prefix -> absent LOW9 prefix -> absent DQUOTE prefix ->
  absent LOW9 name -> absent LDQUO name -> absent RDQUO name ->
  absent DQUOTE name ->
  closing = LDQUO \/ closing = RDQUO \/ closing = DQUOTE ->
  (Int_min <= number <= Int_max)%Z ->
  let german := label prefix number LOW9 name closing in
  let english := label prefix number DQUOTE name DQUOTE in
  (Swift.extractTrackNumber german = number
   /\ Swift.extractTrackName german = swiftTrim name)
  /\ (Swift.extractTrackNumber english = number
      /\ Swift.extractTrackName english = swiftTrim name)
  /\ ((- 2 ^ 53 <= number <= 2 ^ 53)%Z ->
      JXA.trackNum german = JSInt number /\ JXA.trackNum english = JSInt number)
  /\ JXA.trackName german = jsTrim name
  /\ (jsTrim name = name -> JXA.trackName english = jsTrim name).
Proof.
  intros Hne Hsp Hlow Hdq Nlow Nld Nrd Ndq Hc Hr german english.
  subst german english.
  destruct (low9_label_names prefix name number Hlow Nld Nrd Ndq closing Hc)
    as [Hsg Hjg].
  destruct (straight_label_names prefix name number Hlow Hdq Nlow Ndq)
    as [Hse Hje].
  repeat split; auto using extractTrackNumber_label, trackNum_label.
  intros ->. exact Hje.
Qed.

Lemma track_label_parsers_witness :
  let german := label (lit "Spur") 4 LOW9 (lit "Ioanna Mic Wet ") LDQUO in
  let english := label (lit "Track") 12 DQUOTE (lit "Lead Vox") DQUOTE in
  german = lit "Spur 4 „Ioanna Mic Wet “"
  /\ Swift.extractTrackNumber german = 4%Z
  /\ Swift.extractTrackName german = lit "Ioanna Mic Wet"
  /\ JXA.trackName german = lit "Ioanna Mic Wet"
  /\ Swift.extractTrackNumber english = 12%Z
  /\ Swift.extractTrackName english = lit "Lead Vox"
  /\ JXA.trackName english = lit "Lead Vox".
Proof.
  assert (A : forall c s, forallb (fun x => negb (x =? c)%N) s = true -> absent c s)
    by (intros; assumption).
  assert (R : forall z, (-100 <= z <= 100)%Z -> (Int_min <= z <= Int_max)%Z)
    by (unfold Int_min, Int_max; lia).
  destruct (track_label_parsers (lit "Spur") (lit "Ioanna Mic Wet ") 4 LDQUO)
    as ((G1 & G2) & _ & _ & G3 & _);
    try (apply A; reflexivity); try discriminate; auto; try (apply R; lia).
  destruct (track_label_parsers (lit "Track") (lit "Lead Vox") 12 DQUOTE)
    as (_ & (E1 & E2) & _ & _ & E3);
    try (apply A; reflexivity); try discriminate; auto; try (apply R; lia).
  cbv zeta. rewrite G1, G2, G3, E1, E2, E3 by reflexivity.
  repeat split; reflexivity.
Defined.

End LabelFacts.

(* ===================================================================== *)
(** * Properties of the two extraction pipelines *)
(* ===================================================================== *)

Module ExtractionFacts.
Import Text Swift SwiftFacts.

Section Pipelines.
Context `{Foundation}.

(** ** The fallback script *)

Lemma findTracks_plugins (element : Element) :
  forall depth tracks,
    Forall (fun t => JXA.plugins t = []) tracks ->
    Forall (fun t => JXA.plugins t = []) (JXA.findTracks element depth tracks).
Proof.
  induction element as [a cs IH] using Element_children_ind.
  intros depth tracks Ht. cbn [JXA.findTracks].
  destruct (12 <? depth)%Z; [exact Ht|]. cbn [axChildren].
  revert tracks Ht. induction IH as [|c cs Hc _ IHcs]; intros tracks Ht;
    [exact Ht|].
  cbn [fold_left]. apply IHcs. apply Hc.
  destruct (JXA.isTrackItem c); [|exact Ht].
  apply Forall_app. split; [exact Ht|]. constructor; [reflexivity | constructor].
Qed.

Lemma listTracksScript_plugins (win : option Element) :
  Forall (fun t => JXA.plugins t = []) (JXA.listTracksScript win).
Proof.
  unfold JXA.listTracksScript. destruct win as [w|]; [|constructor].
  destruct (JXA.findSpurenGroup w 0); [|constructor].
  apply findTracks_plugins. constructor.
Qed.

(** Without a tracks area the script prints the empty array. *)
Lemma listTracksScript_no_area (w : Element) :
  JXA.findSpurenGroup w 0 = None -> JXA.listTracksScript (Some w) = [].
Proof. intros Hn. unfold JXA.listTracksScript. now rewrite Hn. Qed.

(** ** The helper *)

Lemma plugins_of_track_element (e : Element) :
  isTrackElement e = true ->
  findPluginNames (getChildren e) = pluginTitles (map snd (preorderAt 0 e)).
Proof.
  intros Ht. rewrite preorderAt_eq. cbn [map snd].
  unfold pluginTitles at 1. cbn [List.filter].
  rewrite (track_is_no_button e Ht).
  apply (findPluginNames_titles (getChildren e) (0 + 1)).
Qed.

Lemma map_filter_ext {A B} (p : A -> bool) (f g : A -> B) (l : list A) :
  (forall x, p x = true -> f x = g x) ->
  map f (List.filter p l) = map g (List.filter p l).
Proof.
  intros Hfg. induction l as [|x l IH]; [reflexivity|]. simpl.
  destruct (p x) eqn:E; [|exact IH]. simpl. now rewrite IH, Hfg.
Qed.

(** C6, amended. For every track the helper extracts, the plugins field is
    the list, in pre-order, of the titles of the buttons in the whole
    subtree of the track element whose title is not empty and is none of
    M, S and R.  Every track of the fallback script has an empty plugins
    field. *)
Theorem plugins_of_extracted_tracks :
  (forall spurenGroup : Element,
      map plugins (extractTracks spurenGroup)
      = map (fun e => pluginTitles (map snd (preorderAt 0 e)))
            (List.filter isTrackElement (reached 12 (getChildren spurenGroup))))
  /\ (forall win : option Element,
        Forall (fun t => JXA.plugins t = []) (JXA.listTracksScript win)).
Proof.
  split; [|exact listTracksScript_plugins].
  intros spurenGroup. unfold extractTracks.
  rewrite collectTrackElements_fold, plugins_tracksFrom. cbn [map app].
  apply map_filter_ext, plugins_of_track_element.
Qed.

(** C8. When neither a group described as Spuren nor one described as
    Tracks is found from the main window within the search bound, the
    helper's [listTracks] prints the empty array and a diagnostic and ends
    with exit status 0; the bridge reads that output as the empty track
    sequence. *)
Theorem listTracks_without_tracks_area `{Bridge.JSRuntime}
    (host : Host) (app : App) (window : Element) :
  logicPro host = Some app ->
  mainWindow app = Some window ->
  findElementByDescription window (lit "Spuren") 4 = None ->
  findElementByDescription window (lit "Tracks") 4 = None ->
  listTracks host
  = mkRun [lit "[]"]
          [printError (lit "Could not find tracks area in Logic Pro window")] 0
  /\ exitCode (listTracks host) = 0%Z
  /\ exists err,
       Bridge.outcomeOfRun (listTracks host) = Bridge.Resolved (lit "[]" ++ [10%N]) err
       /\ Bridge.JSON_parse (jsTrim (lit "[]" ++ [10%N])) = Some [].
Proof.
  intros Happ Hwin Hs Ht.
  assert (E : listTracks host
              = mkRun [lit "[]"]
                      [printError (lit "Could not find tracks area in Logic Pro window")]
                      0).
  { unfold listTracks. now rewrite Happ, Hwin, Hs, Ht. }
  rewrite E. split; [reflexivity|]. split; [reflexivity|].
  eexists. split; [reflexivity|].
  replace (jsTrim (lit "[]" ++ [10%N])) with (lit "[]") by (vm_compute; reflexivity).
  apply Bridge.JSON_parse_empty_array.
Qed.

End Pipelines.

Lemma listTracks_without_tracks_area_witness :
  let host := mkHost (Some (mkApp [Sample.emptyWindow] (Some 0))) true in
  @listTracks Sample.foundation host
  = mkRun [lit "[]"]
          [printError (lit "Could not find tracks area in Logic Pro window")] 0.
Proof.
  apply (@listTracks_without_tracks_area Sample.foundation Sample.runtime
           (mkHost (Some (mkApp [Sample.emptyWindow] (Some 0))) true)
           (mkApp [Sample.emptyWindow] (Some 0)) Sample.emptyWindow);
    reflexivity.
Defined.

(** C6, as stated, fails for the fallback: the track of [oneTrackWindow]
    has the plugin button Compressor below it, the helper lists it, and
    the script reports a track without plugins. *)
Lemma fallback_reports_no_plugins :
  let area := Sample.oneTrackWindow in
  (exists spurenGroup,
      findElementByDescription area (lit "Spuren") 4 = Some spurenGroup
      /\ map plugins (extractTracks spurenGroup) = [[lit "Compressor"]])
  /\ pluginTitles (map snd (preorderAt 0 area)) = [lit "Compressor"]
  /\ map JXA.plugins (JXA.listTracksScript (Some area)) = [[]]
  /\ map JXA.name (JXA.listTracksScript (Some area)) = [lit "Drums"].
Proof.
  split; [eexists; split; reflexivity|]. repeat split; reflexivity.
Qed.

End ExtractionFacts.

(* ===================================================================== *)
(** * Properties of the coordinator and of the tool handler *)
(* ===================================================================== *)

Module BridgeFacts.
Import Text Bridge.

Lemma runAxHelper_world (args : list ustring) (w : World) :
  (runAxHelper args w).2 = spawned w (CallHelper args).
Proof.
  unfold runAxHelper, tryCatch, mbind, M_bind, bind, execFileAsync, ret, throw.
  destruct (exec w (CallHelper args)); [reflexivity|].
  destruct (contains _ _); reflexivity.
Qed.

Lemma runAxHelper_resolved (args : list ustring) (w : World) (out err : ustring) :
  exec w (CallHelper args) = Resolved out err ->
  runAxHelper args w = (Ok (jsTrim out), spawned w (CallHelper args)).
Proof.
  intros He.
  unfold runAxHelper, tryCatch, mbind, M_bind, bind, execFileAsync, ret.
  now rewrite He.
Qed.

Section Coordinator.
Context `{JSRuntime}.

Lemma listTracksJXA_calls (w : World) :
  calls (listTracksJXA w).2 = calls w ++ [CallOsascript ListTracksScript].
Proof.
  unfold listTracksJXA, runJXA, mbind, M_bind, bind, execFileAsync, ret.
  destruct (exec w (CallOsascript ListTracksScript)); [|reflexivity].
  destruct (JSON_parse _); reflexivity.
Qed.

Lemma trySwiftHelper_run (w : World) :
  trySwiftHelper w
  = (Ok match (runAxHelper [lit "list-tracks"] w).1 with
        | Ok out =>
          match JSON_parse out with
          | Some tracks => if 0 <? length tracks then Some tracks else None
          | None => None
          end
        | Throw _ => None
        end,
     (runAxHelper [lit "list-tracks"] w).2).
Proof.
  unfold trySwiftHelper, tryCatch, mbind, M_bind, bind, ret, throw.
  destruct (runAxHelper [lit "list-tracks"] w) as [[out|msg] w1]; [|reflexivity].
  cbn [fst snd]. destruct (JSON_parse out) as [tracks|]; [|reflexivity].
  destruct (0 <? length tracks); reflexivity.
Qed.

(** C1. [listTracks] first runs the helper.  When the helper's output
    parses to a non-empty sequence, that sequence is returned and no other
    process is spawned.  When the helper fails (it cannot be run, exits
    with an error, times out, or prints what does not parse) or its
    sequence is empty, the fallback [listTracksJXA] is run, once, and the
    tracks it returns are returned as they are; when the fallback throws,
    its message is passed on inside the error of [listTracks]. *)
Theorem listTracks_fallback (w : World) :
  let privileged := runAxHelper [lit "list-tracks"] w in
  let fallback := listTracksJXA privileged.2 in
  (forall out tracks,
      privileged.1 = Ok out -> JSON_parse out = Some tracks -> tracks <> [] ->
      listTracks w = (Ok tracks, privileged.2)
      /\ calls privileged.2 = calls w ++ [CallHelper [lit "list-tracks"]])
  /\ ((exists msg, privileged.1 = Throw msg)
      \/ (exists out, privileged.1 = Ok out
                      /\ (JSON_parse out = None \/ JSON_parse out = Some [])) ->
      listTracks w
      = (match fallback.1 with
         | Ok tracks => Ok tracks
         | Throw msg => Throw (couldNotList msg)
         end, fallback.2)
      /\ calls fallback.2
         = calls w ++ [CallHelper [lit "list-tracks"]; CallOsascript ListTracksScript]).
Proof.
  intros privileged fallback. subst privileged fallback.
  assert (Hcalls : calls (runAxHelper [lit "list-tracks"] w).2
                   = calls w ++ [CallHelper [lit "list-tracks"]])
    by now rewrite runAxHelper_world.
  split.
  - intros out tracks Hout Hparse Hne. split; [|exact Hcalls].
    unfold listTracks, mbind, M_bind, bind. rewrite trySwiftHelper_run, Hout, Hparse.
    destruct tracks as [|t tracks]; [congruence|]. reflexivity.
  - intros Hfail. split.
    + unfold listTracks, mbind, M_bind, bind. rewrite trySwiftHelper_run.
      assert (E : match (runAxHelper [lit "list-tracks"] w).1 with
                  | Ok out =>
                    match JSON_parse out with
                    | Some tracks => if 0 <? length tracks then Some tracks else None
                    | None => None
                    end
                  | Throw _ => None
                  end = None).
      { destruct Hfail as [[msg ->] | (out & -> & [-> | ->])]; reflexivity. }
      rewrite E. unfold tryCatch, throw.
      destruct (listTracksJXA (runAxHelper [lit "list-tracks"] w).2) as [[tracks|msg] w2];
        reflexivity.
    + rewrite listTracksJXA_calls, Hcalls, <- app_assoc. reflexivity.
Qed.

End Coordinator.

Lemma listTracks_fallback_witness :
  @listTracks Sample.runtime Sample.helperMissing
  = (Ok [Sample.drums],
     mkWorld (exec Sample.helperMissing)
             [CallHelper [lit "list-tracks"]; CallOsascript ListTracksScript])
  /\ @listTracks Sample.runtime Sample.helperAnswers
     = (Ok [Sample.drums],
        mkWorld (exec Sample.helperAnswers) [CallHelper [lit "list-tracks"]]).
Proof.
  split.
  - destruct (@listTracks_fallback Sample.runtime Sample.helperMissing) as [_ F].
    destruct F as [-> _]; [|reflexivity].
    left. eexists. reflexivity.
  - destruct (@listTracks_fallback Sample.runtime Sample.helperAnswers) as [P _].
    destruct (P (jsTrim (Sample.drumsDocument ++ [10%N])) [Sample.drums])
      as [-> _]; try reflexivity. discriminate.
Defined.

Section Handler.
Context `{Swift.Foundation}.

(** C2 is violated: a parameter that is not found is reported as set.
    When Logic Pro runs, the indices are safe integers, no window holds a
    writable control of that label within eight levels, and the helper is
    the process behind the bridge's call, the helper writes its
    not-found message on standard error, prints nothing and ends with exit
    status 0; [setPluginParameter] then resolves to the empty string and
    the handler answers that the parameter was set, with no error flag. *)
Theorem parameter_not_found_is_reported_as_set
    (host : Swift.Host) (app : Swift.App) (trackIndex slotIndex : Z)
    (paramName value : ustring) (w : World) :
  let args := [lit "set-param"; String_of_number trackIndex;
               String_of_number slotIndex; paramName; value] in
  Swift.logicPro host = Some app ->
  isSafeInteger trackIndex ->
  isSafeInteger slotIndex ->
  Forall (fun window =>
            Forall (fun e => Swift.writableMatch paramName e = false)
                   (Swift.reached 8 (Swift.getChildren window)))
         (Swift.appChildren app) ->
  exec w (CallHelper args) = helperOn host args ->
  Swift.main (lit "LogicAccessibility" :: args) host
  = (Swift.mkRun [] [Swift.printError (Swift.notFoundMessage paramName)] 0, host)
  /\ (setPluginParameter trackIndex slotIndex paramName value w).1 = Ok []
  /\ (Plugins.plugin_set_parameter trackIndex slotIndex paramName value w).1
     = Ok (Plugins.mkToolResponse
             (lit "Parameter " ++ [DQUOTE] ++ paramName ++ [DQUOTE]
              ++ lit " set to " ++ [DQUOTE] ++ value ++ [DQUOTE] ++ lit ". ")
             false).
Proof.
  intros args Happ Ht Hs Hno Hexec. subst args.
  assert (Hmain :
            Swift.main [lit "LogicAccessibility"; lit "set-param";
                        String_of_number trackIndex; String_of_number slotIndex;
                        paramName; value] host
            = (Swift.mkRun [] [Swift.printError (Swift.notFoundMessage paramName)] 0,
               host)).
  { unfold String_of_number.
    rewrite !TextFacts.numberToString_safe by assumption.
    rewrite SwiftFacts.main_set_param by now apply TextFacts.safe_is_Int.
    now apply SwiftFacts.setPluginParameter_not_found with (app := app). }
  split; [exact Hmain|].
  assert (Hset : setPluginParameter trackIndex slotIndex paramName value w
                 = (Ok [], spawned w (CallHelper
                                        [lit "set-param"; String_of_number trackIndex;
                                         String_of_number slotIndex; paramName; value]))).
  { unfold setPluginParameter.
    rewrite (runAxHelper_resolved _ _ []
               (concat [Swift.printError (Swift.notFoundMessage paramName)]));
      [reflexivity|].
    rewrite Hexec. unfold helperOn. rewrite Hmain. reflexivity. }
  split; [now rewrite Hset|].
  unfold Plugins.plugin_set_parameter, tryCatch, mbind, M_bind, bind, ret.
  rewrite Hset. cbn [fst]. now rewrite !app_nil_r.
Qed.

End Handler.

Lemma parameter_not_found_is_reported_as_set_witness :
  (Plugins.plugin_set_parameter 0 0 (lit "Cutoff") (lit "0.5") Sample.oneTrackWorld).1
  = Ok (Plugins.mkToolResponse
          (lit "Parameter " ++ [DQUOTE] ++ lit "Cutoff" ++ [DQUOTE]
           ++ lit " set to " ++ [DQUOTE] ++ lit "0.5" ++ [DQUOTE] ++ lit ". ")
          false).
Proof.
  apply (@parameter_not_found_is_reported_as_set Sample.foundation
           Sample.oneTrackHost
           (Swift.mkApp [Sample.oneTrackWindow] (Some 0)) 0 0
           (lit "Cutoff") (lit "0.5") Sample.oneTrackWorld).
  - reflexivity.
  - unfold isSafeInteger; simpl; lia.
  - unfold isSafeInteger; simpl; lia.
  - repeat constructor.
  - reflexivity.
Defined.

End BridgeFacts.

(* ===================================================================== *)
(** * Scenarios *)
(* ===================================================================== *)

(** The repository's own tests and the scenarios of its description,
    evaluated on the model. *)
Module Scenarios.
Import Text.

(** src/tools/midi.test.ts *)
Example note_on_message :
  Midi.sendNoteOn 0 60 100 (Some (Midi.mkOutput []))
  = (Bridge.Ok tt, Some (Midi.mkOutput [[144; 60; 100]%Z])).
Proof. reflexivity. Qed.

Example program_change_message :
  Midi.sendProgramChange 3 42 (Some (Midi.mkOutput []))
  = (Bridge.Ok tt, Some (Midi.mkOutput [[195; 42]%Z])).
Proof. reflexivity. Qed.

Example out_of_range_arguments_wrap :
  Midi.sendNoteOn 16 200 255 (Some (Midi.mkOutput []))
  = (Bridge.Ok tt, Some (Midi.mkOutput [[144; 72; 127]%Z])).
Proof. reflexivity. Qed.

Example closed_port_throws :
  Midi.sendNoteOff 0 60 None = (Bridge.Throw (lit "MIDI port not open"), None).
Proof. reflexivity. Qed.

(** src/tools/plugins.test.ts *)
Example auval_listing :
  map Plugins.name
      (Plugins.parseAuvalOutput (lit "
    AU Validation Tool
    Version: 1.7.0
    Copyright 2003-2023, Apple Inc. - All Rights Reserved.
    Available Audio Unit Components:

    aufx    AUBa    appl    -  AUBandpass
    aufx    AUDy    appl    -  AUDynamicsProcessor
    aufx    AUNb    appl    -  AUNBandEQ
    aumu    dlss    appl    -  DLSMusicDevice
    aumf    CEQu    appl    -  Channel EQ
    "))
  = [lit "AUBandpass"; lit "AUDynamicsProcessor"; lit "AUNBandEQ";
     lit "DLSMusicDevice"; lit "Channel EQ"].
Proof. vm_compute. reflexivity. Qed.

Example auval_nothing : Plugins.parseAuvalOutput [] = [].
Proof. reflexivity. Qed.

Example auval_third_party :
  Plugins.parseAuvalOutput (lit "    aufx    FQ03    FabF    -  FabFilter Pro-Q 3")
  = [Plugins.mkAudioUnit (lit "aufx") (lit "FQ03") (lit "FabF")
                         (lit "FabFilter Pro-Q 3")].
Proof. vm_compute. reflexivity. Qed.

(** A line that ends in a carriage return does not match: the name may
    not hold a line terminator and the expression is anchored at the end. *)
Example auval_carriage_return :
  Plugins.parseLine (lit "aufx AUBa appl - AUBandpass" ++ [13%N]) = None.
Proof. vm_compute. reflexivity. Qed.

(** Labels *)
Example german_label :
  Swift.extractTrackName (lit "Spur 4 „Ioanna Mic Wet“") = lit "Ioanna Mic Wet"
  /\ Swift.extractTrackNumber (lit "Spur 4 „Ioanna Mic Wet“") = 4%Z.
Proof. split; vm_compute; reflexivity. Qed.

Example short_label_unchanged :
  Swift.extractTrackName (lit "Spur 4") = lit "Spur 4"
  /\ Swift.extractTrackNumber (lit "Spur") = (-1)%Z
  /\ Swift.extractTrackNumber (lit "Spur vier") = (-1)%Z.
Proof. repeat split; vm_compute; reflexivity. Qed.

Example fallback_number_of_a_worded_label :
  JXA.trackNum (lit "Spur vier") = JSNaN /\ JXA.trackNum (lit "Spur") = JSInt (-1).
Proof. split; vm_compute; reflexivity. Qed.

(** Extraction over three tracks: the second is at index 1, muted, with
    volume 64. *)
Example second_of_three_tracks :
  Swift.extractTracks Sample.threeTracks !! 1
  = Some (Swift.mkTrack 1 2 (lit "Bass") true false false 64 []).
Proof. reflexivity. Qed.

(** A track row below twelve nested groups is not collected; one below
    eleven is. *)
Example track_below_the_bound :
  Swift.collectTrackElements [Sample.nested 12 (Sample.track 1 "Deep" [])] [] 0 12
  = []
  /\ map Swift.name
       (Swift.collectTrackElements [Sample.nested 11 (Sample.track 1 "Deep" [])]
                                   [] 0 12)
     = [lit "Deep"].
Proof. split; reflexivity. Qed.

(** The scan for plugin names below a collected track has no bound of
    its own: a button twenty levels below the track row is listed. *)
Example plugin_scan_of_a_track_is_unbounded :
  map Swift.plugins
      (Swift.collectTrackElements
         [Sample.track 1 "Drums" [Sample.nested 20 (Sample.button "Reverb")]]
         [] 0 12)
  = [[lit "Reverb"]].
Proof. reflexivity. Qed.

Example find_by_description_first_match :
  Swift.findElementByDescription Sample.oneTrackWindow (lit "Spuren") 4
  = head (Swift.axChildren Sample.oneTrackWindow).
Proof. reflexivity. Qed.

(** Failures the helper signals do reach the caller: a missing binary, and
    an index that is no integer, on which the helper exits with status 1. *)
Example missing_helper_is_an_error :
  (Plugins.plugin_set_parameter 0 0 (lit "Cutoff") (lit "0.5") Sample.helperMissing).1
  = Bridge.Ok
      (Plugins.mkToolResponse
         (lit "Failed to set parameter: Swift accessibility helper not found. Run: cd swift-helper && swift build -c release")
         true).
Proof. vm_compute. reflexivity. Qed.

Example usage_error_exits_with_1 :
  Swift.exitCode
    (@Swift.main Sample.foundation
       [lit "LogicAccessibility"; lit "set-param"; lit "first"; lit "0";
        lit "Cutoff"; lit "0.5"]
       Sample.oneTrackHost).1
  = 1%Z.
Proof. reflexivity. Qed.

(** The fallback failing as well: the coordinator throws its own error
    around the message. *)
Example both_backends_fail :
  (@Bridge.listTracks Sample.runtime
     (Bridge.mkWorld (fun _ => Bridge.Rejected (lit "timed out")) [])).1
  = Bridge.Throw (Bridge.couldNotList (lit "timed out")).
Proof. vm_compute. reflexivity. Qed.

End Scenarios.

(* ===================================================================== *)
(** * Further properties of the helper: searches, dumps, flags, commands *)
(* ===================================================================== *)

Module HelperFacts.
Import Text Swift TextFacts SwiftFacts.

Section Helper.
Context `{Foundation}.

(** ** Depths of a listing *)

Lemma preorderAt_shift (j : Z) (e : Element) :
  forall d, preorderAt (d + j) e = map (deeper j) (preorderAt d e).
Proof.
  induction e as [a cs IH] using Element_children_ind. intros d.
  rewrite !preorderAt_eq. cbn [map axChildren]. f_equal.
  unfold preorder. induction IH as [|c cs Hc _ IHcs]; [reflexivity|].
  cbn [flat_map]. rewrite map_app, <- IHcs. f_equal.
  replace (d + j + 1)%Z with (d + 1 + j)%Z by lia. apply Hc.
Qed.

Lemma preorder_shift (j d : Z) (els : list Element) :
  preorder (d + j) els = map (deeper j) (preorder d els).
Proof.
  induction els as [|e els IH]; [reflexivity|].
  rewrite !preorder_cons, map_app, IH, preorderAt_shift. reflexivity.
Qed.

Lemma within_shift (j m : Z) (l : list (Z * Element)) :
  within (m + j) (map (deeper j) l) = map (deeper j) (within m l).
Proof.
  induction l as [|[d e] l IH]; [reflexivity|]. cbn [map within List.filter deeper fst snd].
  fold (within (m + j) (map (deeper j) l)). fold (within m l). rewrite IH.
  destruct (Z.ltb_spec d m), (Z.ltb_spec (d + j) (m + j)); try lia; reflexivity.
Qed.

Lemma reached_below (m : Z) (els : list Element) :
  map snd (within (m + 1) (preorder 1 els)) = reached m els.
Proof.
  unfold reached. change 1%Z with (0 + 1)%Z at 2.
  rewrite preorder_shift, within_shift, map_map. reflexivity.
Qed.

Lemma reached_cons (m : Z) (e : Element) (els : list Element) :
  (0 < m)%Z ->
  reached m (e :: els) = e :: reached (m - 1) (axChildren e) ++ reached m els.
Proof.
  intros Hm. unfold reached at 1. rewrite preorder_cons, within_app, map_app.
  rewrite within_preorderAt by lia. cbn [map snd app]. do 2 f_equal.
  rewrite <- reached_below. do 3 f_equal. lia.
Qed.

Lemma reached_nil (m : Z) : reached m [] = [].
Proof. reflexivity. Qed.

Lemma reached_none (m : Z) (els : list Element) : (m <= 0)%Z -> reached m els = [].
Proof. intros Hm. unfold reached. now rewrite within_deep. Qed.

Lemma reached_roots (m : Z) (els : list Element) (e : Element) :
  (0 < m)%Z -> In e els -> In e (reached m els).
Proof.
  intros Hm. induction els as [|x els IH]; [intros []|].
  rewrite reached_cons by assumption. intros [->|Hin]; [now left|].
  right. apply in_or_app. right. now apply IH.
Qed.

Lemma reached_children (m : Z) (els : list Element) (c e : Element) :
  (0 < m)%Z -> In c els -> In e (reached (m - 1) (axChildren c)) ->
  In e (reached m els).
Proof.
  intros Hm. induction els as [|x els IH]; [intros []|].
  rewrite reached_cons by assumption. intros [->|Hin] He.
  - right. apply in_or_app. now left.
  - right. apply in_or_app. right. now apply IH.
Qed.

(** ** [findElementByDescription] *)

Lemma firstSome_Some {A B} (f : A -> option B) (l : list A) (y : B) :
  firstSome f l = Some y -> exists x, In x l /\ f x = Some y.
Proof.
  induction l as [|x l IH]; [discriminate|]. simpl.
  destruct (f x) as [y'|] eqn:E.
  - intros [= <-]. exists x. auto.
  - intros Hy. destruct (IH Hy) as (x' & Hin & Hx'). exists x'. auto.
Qed.

Lemma firstSome_None {A B} (f : A -> option B) (l : list A) :
  firstSome f l = None <-> Forall (fun x => f x = None) l.
Proof.
  induction l as [|x l IH]; simpl.
  - split; [constructor | reflexivity].
  - destruct (f x) eqn:E.
    + split; [discriminate|]. intros HF. inversion HF; congruence.
    + rewrite IH. split; [now constructor|]. intros HF. now inversion HF.
Qed.

Lemma searchLevels_pos (m : Z) : (0 < searchLevels m)%Z.
Proof. unfold searchLevels. lia. Qed.

Lemma searchLevels_pred (m : Z) :
  (0 < m)%Z -> (searchLevels m - 1 = searchLevels (m - 1))%Z.
Proof. unfold searchLevels. lia. Qed.

Lemma findElementByDescription_found (description : ustring) (root : Element) :
  forall maxDepth e,
    findElementByDescription root description maxDepth = Some e ->
    describedAs description e = true
    /\ In e (reached (searchLevels maxDepth) (getChildren root)).
Proof.
  induction root as [a cs IH] using Element_children_ind.
  intros m e. cbn [findElementByDescription getChildren axChildren].
  destruct (List.find _ cs) as [child|] eqn:Ef.
  - intros [= <-]. apply List.find_some in Ef as [Hin Hd]. split; [exact Hd|].
    apply reached_roots; [apply searchLevels_pos | exact Hin].
  - destruct (Z.ltb_spec 0 m) as [Hm|Hm]; [|discriminate].
    intros Hs. apply firstSome_Some in Hs as (c & Hin & Hc).
    rewrite List.Forall_forall in IH. destruct (IH c Hin _ _ Hc) as [Hd He].
    split; [exact Hd|].
    apply (reached_children _ _ c); [apply searchLevels_pos | exact Hin |].
    now rewrite searchLevels_pred.
Qed.

Lemma findElementByDescription_nothing (description : ustring) (root : Element) :
  forall maxDepth,
    findElementByDescription root description maxDepth = None ->
    Forall (fun e => describedAs description e = false)
           (reached (searchLevels maxDepth) (getChildren root)).
Proof.
  induction root as [a cs IH] using Element_children_ind.
  intros m. cbn [findElementByDescription getChildren axChildren].
  destruct (List.find _ cs) as [child|] eqn:Ef; [discriminate|].
  pose proof (List.find_none _ _ Ef) as Hnone. intros Hs.
  assert (Hbelow : forall c, In c cs ->
            Forall (fun e => describedAs description e = false)
                   (reached (searchLevels m - 1) (axChildren c))).
  { intros c Hin. destruct (Z.ltb_spec 0 m) as [Hm|Hm].
    - rewrite firstSome_None, List.Forall_forall in Hs.
      rewrite List.Forall_forall in IH. rewrite searchLevels_pred by assumption.
      apply (IH c Hin), Hs, Hin.
    - rewrite reached_none; [constructor | unfold searchLevels; lia]. }
  clear Ef Hs IH. induction cs as [|c cs IHcs]; [constructor|].
  rewrite reached_cons by apply searchLevels_pos. constructor.
  - apply Hnone. now left.
  - apply Forall_app. split.
    + apply Hbelow. now left.
    + apply IHcs; intros; [apply Hnone | apply Hbelow]; now right.
Qed.

(** X1. Whatever [findElementByDescription] returns carries the sought
    description and lies below the root within the levels the search looks
    at: the children for a [maxDepth] of 0 or less, one more level for
    every unit above that. *)
Theorem found_element_is_described
    (root : Element) (description : ustring) (maxDepth : Z) (e : Element) :
  findElementByDescription root description maxDepth = Some e ->
  default [] (getDescription e) = description
  /\ In e (reached (searchLevels maxDepth) (getChildren root)).
Proof.
  intros Hf. apply findElementByDescription_found in Hf as [Hd Hin].
  split; [|exact Hin]. unfold describedAs, eqb in Hd.
  now apply bool_decide_eq_true in Hd.
Qed.

(** X2. [findElementByDescription] returns nothing exactly when no element
    of the levels it looks at carries the description: it misses no
    element within its bound. *)
Theorem search_misses_nothing_within_bound
    (root : Element) (description : ustring) (maxDepth : Z) :
  findElementByDescription root description maxDepth = None
  <-> Forall (fun e => default [] (getDescription e) <> description)
             (reached (searchLevels maxDepth) (getChildren root)).
Proof.
  assert (Hneq : forall e, describedAs description e = false
                           <-> default [] (getDescription e) <> description).
  { intros e. unfold describedAs, eqb. apply bool_decide_eq_false. }
  split.
  - intros Hn. apply findElementByDescription_nothing in Hn.
    eapply Forall_impl; [exact Hn|]. intros e. apply Hneq.
  - intros Hall.
    destruct (findElementByDescription root description maxDepth) as [e|] eqn:E;
      [|reflexivity].
    apply findElementByDescription_found in E as [Hd Hin].
    rewrite List.Forall_forall in Hall. apply Hall, Hneq in Hin. congruence.
Qed.

(** ** [dumpElementInfo] *)

Lemma within_preorderAt_deep (m d : Z) (e : Element) :
  (m <= d)%Z -> within m (preorderAt d e) = [].
Proof.
  intros Hmd. apply within_none.
  eapply Forall_impl; [apply preorderAt_depth|]. simpl. intros; lia.
Qed.

(** X3. [dumpElementInfo] appends one dictionary for each element of the
    subtree whose depth is below [maxDepth], in pre-order, with the depth
    in decimal; deeper elements, and everything when the starting depth
    is not below [maxDepth], leave the result as it was. *)
Theorem dump_lists_the_levels_below_maxDepth (element : Element) :
  forall (result : list DumpEntry) (depth maxDepth : Z),
    dumpElementInfo element result depth maxDepth
    = result ++ map dumpEntryOf (within maxDepth (preorderAt depth element)).
Proof.
  induction element as [a cs IH] using Element_children_ind.
  intros result d m. cbn [dumpElementInfo getChildren axChildren].
  destruct (Z.ltb_spec d m) as [Hd|Hd].
  - rewrite within_preorderAt by assumption. cbn [map axChildren].
    change (result ++ dumpEntryOf (d, mkElement a cs) :: ?l)
      with (result ++ [dumpEntryOf (d, mkElement a cs)] ++ l).
    rewrite app_assoc.
    change (mkDumpEntry _ _ _ _ _) with (dumpEntryOf (d, mkElement a cs)).
    generalize (result ++ [dumpEntryOf (d, mkElement a cs)]). clear result.
    induction IH as [|c cs Hc _ IHcs]; intros acc.
    + cbn. now rewrite app_nil_r.
    + cbn [fold_left]. rewrite Hc, IHcs, preorder_cons, within_app, map_app.
      now rewrite app_assoc.
  - rewrite within_preorderAt_deep by assumption. cbn. now rewrite app_nil_r.
Qed.

(** ** [extractTrackMeta] *)

Ltac closed_tests :=
  repeat match goal with
  | |- context [eqb (lit ?a) (lit ?b)] =>
    let v := eval vm_compute in (eqb (lit a) (lit b)) in
    change (eqb (lit a) (lit b)) with v
  | |- context [contains (lit ?a) (lit ?b)] =>
    let v := eval vm_compute in (contains (lit a) (lit b)) in
    change (contains (lit a) (lit b)) with v
  end.

Lemma eqb_true (a b : ustring) : eqb a b = true -> a = b.
Proof. unfold eqb. apply bool_decide_eq_true. Qed.

Lemma extractTrackMetaStep_fields (meta : Meta) (c : Element) :
  extractTrackMetaStep meta c
  = mkMeta (if isMuteBox c then isOn c else metaMuted meta)
           (if isSoloBox c then isOn c else metaSolo meta)
           (if isRecordBox c then isOn c else metaRecordEnabled meta)
           (if isVolumeSlider c then volumeOf c else metaVolume meta).
Proof.
  unfold extractTrackMetaStep, isMuteBox, isSoloBox, isRecordBox, isVolumeSlider,
    isCheckBox, isOn, volumeOf.
  destruct meta as [m s r v]. cbn [metaMuted metaSolo metaRecordEnabled metaVolume].
  generalize (default [] (getRole c)) (default [] (getDescription c)).
  intros role desc.
  destruct (eqb role (lit "AXCheckBox")) eqn:E1.
  - apply eqb_true in E1. subst role. closed_tests. cbn [andb].
    destruct (eqb desc (lit "Mute")) eqn:E2.
    { apply eqb_true in E2. subst desc. closed_tests. reflexivity. }
    destruct (eqb desc (lit "Solo")) eqn:E3.
    { apply eqb_true in E3. subst desc. closed_tests. reflexivity. }
    destruct (contains (lit "Aufnahme") desc || contains (lit "Record") desc);
      reflexivity.
  - cbn [andb]. destruct (eqb role (lit "AXSlider") && eqb desc (lit "Volume"));
      reflexivity.
Qed.

Lemma filter_snoc {A} (p : A -> bool) (l : list A) (x : A) :
  List.filter p (l ++ [x]) = List.filter p l ++ (if p x then [x] else []).
Proof. rewrite List.filter_app. simpl. now destruct (p x). Qed.

Lemma last_filter_snoc {A B} (p : A -> bool) (f : A -> B) (d : B) (l : list A) (x : A) :
  from_option f d (last (List.filter p (l ++ [x])))
  = if p x then f x else from_option f d (last (List.filter p l)).
Proof.
  rewrite filter_snoc. destruct (p x); [|now rewrite app_nil_r].
  now rewrite last_snoc.
Qed.

(** X4. Each field [extractTrackMeta] returns is read from the last child
    that carries it: the Mute and Solo check boxes, the check box whose
    description contains Aufnahme or Record, the slider described Volume.
    A flag is set when that child's value is the text 1; the volume is the
    integer its value denotes, and 0 when the value is no integer; without
    such a child the field is false, or 0. *)
Theorem track_flags_come_from_the_last_control (children : list Element) :
  let meta := extractTrackMeta children in
  metaMuted meta = from_option isOn false (last (List.filter isMuteBox children))
  /\ metaSolo meta = from_option isOn false (last (List.filter isSoloBox children))
  /\ metaRecordEnabled meta
     = from_option isOn false (last (List.filter isRecordBox children))
  /\ metaVolume meta
     = from_option volumeOf 0%Z (last (List.filter isVolumeSlider children)).
Proof.
  cbv zeta. unfold extractTrackMeta.
  induction children as [|c children IH] using rev_ind; [repeat split|].
  rewrite fold_left_app. cbn [fold_left]. rewrite extractTrackMetaStep_fields.
  cbn [metaMuted metaSolo metaRecordEnabled metaVolume].
  rewrite !last_filter_snoc. destruct IH as (-> & -> & -> & ->).
  repeat split.
Qed.

(** ** Positions of the collected tracks *)

Lemma seq_snoc (n : nat) : seq 0 (S n) = seq 0 n ++ [n].
Proof. rewrite seq_S. reflexivity. Qed.

Lemma tracksFrom_numbered (els : list Element) :
  forall tracks,
    map index tracks = map Z.of_nat (seq 0 (length tracks)) ->
    map index (tracksFrom tracks els)
    = map Z.of_nat (seq 0 (length (tracksFrom tracks els))).
Proof.
  unfold tracksFrom. induction els as [|e els IH]; intros tracks Ht; [exact Ht|].
  cbn [fold_left]. apply IH.
  rewrite length_app, Nat.add_1_r, seq_snoc, !map_app, Ht. reflexivity.
Qed.

Lemma findTracks_numbered (element : Element) :
  forall depth tracks,
    map JXA.index tracks = map Z.of_nat (seq 0 (length tracks)) ->
    map JXA.index (JXA.findTracks element depth tracks)
    = map Z.of_nat (seq 0 (length (JXA.findTracks element depth tracks))).
Proof.
  induction element as [a cs IH] using Element_children_ind.
  intros depth tracks Ht. cbn [JXA.findTracks axChildren].
  destruct (12 <? depth)%Z; [exact Ht|].
  revert tracks Ht. induction IH as [|c cs Hc _ IHcs]; intros tracks Ht; [exact Ht|].
  cbn [fold_left]. apply IHcs, Hc.
  destruct (JXA.isTrackItem c); [|exact Ht].
  rewrite length_app, Nat.add_1_r, seq_snoc, !map_app, Ht. reflexivity.
Qed.

(** X5. Both backends number the tracks they return by position: the
    [index] of the first track is 0 and every next one is one higher, so an
    index names at most one track and no position is skipped. *)
Theorem tracks_are_numbered_by_position
    (spurenGroup : Element) (win : option Element) :
  map index (extractTracks spurenGroup)
  = map Z.of_nat (seq 0 (length (extractTracks spurenGroup)))
  /\ map JXA.index (JXA.listTracksScript win)
     = map Z.of_nat (seq 0 (length (JXA.listTracksScript win))).
Proof.
  split.
  - unfold extractTracks. rewrite collectTrackElements_fold.
    now apply tracksFrom_numbered.
  - unfold JXA.listTracksScript. destruct win as [w|]; [|reflexivity].
    destruct (JXA.findSpurenGroup w 0); [|reflexivity].
    now apply findTracks_numbered.
Qed.

(** ** Parameters *)

Lemma fold_windows (windows : list Element) (params : list Param) :
  fold_left (fun params window => findParameters (getChildren window) params 0 8)
            windows params
  = params ++ flat_map windowParameters windows.
Proof.
  revert params. induction windows as [|w ws IH]; intros params.
  - cbn. now rewrite app_nil_r.
  - cbn [fold_left flat_map]. rewrite IH, findParameters_fold, <- app_assoc.
    reflexivity.
Qed.

Lemma getPluginParameters_windows
    (trackIndex slotIndex : Z) (host : Host) (app : App) (w : Element) :
  logicPro host = Some app ->
  mainWindow app = Some w ->
  getPluginParameters trackIndex slotIndex host
  = mkRun [serializeParams (flat_map windowParameters (appChildren app))] [] 0.
Proof.
  intros Happ Hw. unfold getPluginParameters. rewrite Happ, Hw.
  now rewrite fold_windows.
Qed.

(** X6. With Logic Pro running and a main window, [getPluginParameters]
    prints the parameter controls of every window of the application, in
    window order and in pre-order below each window, down to eight levels;
    the windows themselves are not looked at, and the track and slot
    indices play no part. *)
Theorem getPluginParameters_reads_every_window
    (trackIndex slotIndex : Z) (host : Host) (app : App) (w : Element) :
  logicPro host = Some app ->
  mainWindow app = Some w ->
  getPluginParameters trackIndex slotIndex host
  = mkRun [serializeParams (flat_map windowParameters (appChildren app))] [] 0.
Proof.
  apply getPluginParameters_windows.
Qed.

Lemma paramOf_named (e : Element) (p : Param) :
  paramOf e = Some p ->
  paramName p <> [] /\ isParameterRole (paramRole p) = true
  /\ paramName p = controlName e.
Proof.
  unfold paramOf. destruct (isParameterRole _) eqn:Er; [|discriminate].
  destruct (controlName e) as [|c n] eqn:En; [discriminate|].
  cbn [isEmptyList negb]. intros [= <-]. cbn [paramName paramRole].
  repeat split; [discriminate | exact Er].
Qed.

(** X7. Every parameter [findParameters] appends has a name that is not
    empty and one of the three roles slider, text field and pop-up button:
    controls without description and title are left out. *)
Theorem listed_parameters_are_named_controls
    (elements : list Element) (depth maxDepth : Z) :
  Forall (fun p => paramName p <> [] /\ isParameterRole (paramRole p) = true)
         (findParameters elements [] depth maxDepth).
Proof.
  rewrite findParameters_fold. cbn [app].
  generalize (map snd (within maxDepth (preorder depth elements))).
  induction l as [|e l IH]; [constructor|].
  cbn [omap list_omap]. destruct (paramOf e) as [p|] eqn:E; [|exact IH].
  constructor; [|exact IH]. apply paramOf_named in E. tauto.
Qed.

(** ** [setPluginParameter] *)

Lemma untilFound_found {A} (step : A -> bool * A) (l : list A) :
  (untilFound step l).1 = existsb (fun x => (step x).1) l.
Proof.
  induction l as [|x l IH]; [reflexivity|]. cbn [untilFound existsb].
  destruct (step x) as [[|] x']; [reflexivity|]. cbn [fst orb].
  destruct (untilFound step l). exact IH.
Qed.

Lemma existsb_pointwise {A} (p q : A -> bool) (l : list A) :
  (forall x, p x = q x) -> existsb p l = existsb q l.
Proof.
  intros Hpq. induction l as [|x l IH]; [reflexivity|].
  cbn [existsb]. now rewrite Hpq, IH.
Qed.

Lemma findIndex_existsb {A} (p : A -> bool) (l : list A) :
  existsb p l = match findIndex p l with Some _ => true | None => false end.
Proof.
  induction l as [|x l IH]; [reflexivity|]. cbn [existsb findIndex].
  destruct (p x); [reflexivity|]. rewrite IH. now destruct (findIndex p l).
Qed.

Lemma findAndSetParameter_found (paramName value : ustring) (window : Element) :
  let r := findAndSetParameter (getChildren window) paramName value 0 8 in
  r.1 = windowAccepts paramName value window
  /\ (r.1 = false -> r.2 = getChildren window).
Proof.
  destruct (findAndSetParameter_outcome paramName value 8 (getChildren window) 0)
    as [Ho Hs].
  split; [|exact Hs]. unfold windowAccepts. rewrite findIndex_existsb.
  unfold writeOutcome in Ho.
  destruct (findIndex _ _); [apply Ho | apply Ho].
Qed.

Lemma setPluginParameter_run
    (trackIndex slotIndex : Z) (paramName value : ustring)
    (host : Host) (app : App) :
  logicPro host = Some app ->
  let r := setPluginParameter trackIndex slotIndex paramName value host in
  if existsb (windowAccepts paramName value) (appChildren app)
  then r.1 = mkRun [lit "Parameter set successfully"] [] 0
  else r = (mkRun [] [printError (notFoundMessage paramName)] 0, host).
Proof.
  intros Happ. cbv zeta. unfold setPluginParameter. rewrite Happ.
  set (step := fun window : Element =>
         let '(found, children') :=
           findAndSetParameter (getChildren window) paramName value 0 8 in
         (found, mkElement (attrs window) children')).
  assert (Hstep : forall window,
            (step window).1 = windowAccepts paramName value window
            /\ ((step window).1 = false -> step window = (false, window))).
  { intros window. subst step. cbv beta.
    destruct (findAndSetParameter_found paramName value window) as [Hf Hs].
    cbv zeta in Hf, Hs.
    destruct (findAndSetParameter (getChildren window) paramName value 0 8)
      as [f cs']. cbn [fst snd] in *. split; [exact Hf|].
    intros ->. rewrite (Hs eq_refl). now destruct window. }
  destruct (existsb (windowAccepts paramName value) (appChildren app)) eqn:Ex.
  - pose proof (untilFound_found step (appChildren app)) as Hf.
    rewrite (existsb_pointwise _ (windowAccepts paramName value)) in Hf
      by (intros x; apply Hstep).
    rewrite Ex in Hf. destruct (untilFound step (appChildren app)) as [f ws'].
    cbn [fst] in Hf. subst f. reflexivity.
  - rewrite untilFound_none; [reflexivity|].
    apply List.Forall_forall. intros window Hin. apply Hstep.
    destruct (Hstep window) as [-> _].
    destruct (windowAccepts paramName value window) eqn:Ew; [|reflexivity].
    assert (existsb (windowAccepts paramName value) (appChildren app) = true)
      by (apply existsb_exists; eauto).
    congruence.
Qed.

(** X8. With Logic Pro running, [setPluginParameter] prints the success
    line exactly when some window of the application has, within eight
    levels below it, a control that takes the value; otherwise it prints
    nothing on standard output, reports the parameter as not found on
    standard error, and leaves the host as it was.  Either way the exit
    status is 0. *)
Theorem setPluginParameter_reports
    (trackIndex slotIndex : Z) (paramName value : ustring)
    (host : Host) (app : App) :
  logicPro host = Some app ->
  let r := setPluginParameter trackIndex slotIndex paramName value host in
  if existsb (windowAccepts paramName value) (appChildren app)
  then r.1 = mkRun [lit "Parameter set successfully"] [] 0
  else r = (mkRun [] [printError (notFoundMessage paramName)] 0, host).
Proof. apply setPluginParameter_run. Qed.

(** ** Writing, then reading *)

Lemma findIndex_sat {A} (p : A -> bool) (l : list A) (i : nat) :
  findIndex p l = Some i -> exists x, l !! i = Some x /\ p x = true.
Proof.
  revert i. induction l as [|y l IH]; intros i; [discriminate|].
  cbn [findIndex]. destruct (p y) eqn:Ey.
  - intros [= <-]. exists y. auto.
  - destruct (findIndex p l) as [j|]; [|discriminate]. intros [= <-].
    destruct (IH j eq_refl) as (x & Hx & Hp). exists x. auto.
Qed.

Lemma In_omap {A B} (f : A -> option B) (l : list A) (x : A) (y : B) :
  In x l -> f x = Some y -> In y (omap f l).
Proof.
  intros Hin Hf. induction l as [|z l IH]; [destruct Hin|].
  cbn [omap list_omap]. destruct Hin as [->|Hin].
  - rewrite Hf. now left.
  - destruct (f z); [right|]; now apply IH.
Qed.

Lemma lookup_In {A} (l : list A) (i : nat) (x : A) : l !! i = Some x -> In x l.
Proof.
  revert i. induction l as [|y l IH]; intros [|i]; try discriminate.
  - intros [= ->]. now left.
  - intros Hl. right. exact (IH i Hl).
Qed.

Lemma untilFound_length {A} (step : A -> bool * A) (l : list A) :
  length (untilFound step l).2 = length l.
Proof.
  induction l as [|x l IH]; [reflexivity|]. cbn [untilFound].
  destruct (step x) as [[|] x']; [reflexivity|].
  destruct (untilFound step l). cbn [snd length] in *. now rewrite IH.
Qed.

Lemma untilFound_hit {A} (step : A -> bool * A) (l : list A) :
  (untilFound step l).1 = true ->
  exists x, In x l /\ (step x).1 = true /\ In (step x).2 (untilFound step l).2.
Proof.
  induction l as [|x l IH]; [discriminate|]. cbn [untilFound].
  destruct (step x) as [[|] x'] eqn:Ex.
  - intros _. exists x. rewrite Ex. cbn. auto.
  - destruct (untilFound step l) as [f l']. cbn [fst snd] in *. intros ->.
    destruct (IH eq_refl) as (y & Hin & Hy & Hy'). exists y. cbn. auto.
Qed.

Lemma controlName_attrs (e e' : Element) :
  attrs e = attrs e' -> controlName e = controlName e'.
Proof. unfold controlName, getTitle, getDescription. now intros ->. Qed.

(** What [findParameters] lists for a control that has just been written. *)
Lemma paramOf_written (paramName value : ustring) (e e' : Element) (v : AXValue) :
  writeFor e paramName value = Some v ->
  attrs e' = attrs (setValueAttribute e v) ->
  controlName e <> [] ->
  exists p,
    paramOf e' = Some p
    /\ matchesControlName (Swift.paramName p) paramName = true
    /\ (paramValue p = value
        \/ exists f, Float_of_string value = Some f /\ paramValue p = stringValue f).
Proof.
  intros Hw Ha Hn. rewrite (paramOf_attrs e' _ Ha).
  unfold writeFor in Hw. unfold paramOf.
  change (controlName (setValueAttribute e v)) with (controlName e).
  change (getRole (setValueAttribute e v)) with (getRole e).
  destruct (matchesControlName (controlName e) paramName) eqn:Em; [|discriminate].
  unfold isParameterRole.
  destruct (controlName e) as [|c n] eqn:En; [congruence|]. cbn [isEmptyList negb].
  destruct (eqb (default [] (getRole e)) (lit "AXSlider")) eqn:Es.
  - destruct (Float_of_string value) as [f|] eqn:Ef; [|discriminate].
    injection Hw as <-. cbn [orb]. eexists. split; [reflexivity|].
    cbn [Swift.paramName paramValue]. split; [exact Em|]. right. exists f. auto.
  - destruct (eqb (default [] (getRole e)) (lit "AXTextField")) eqn:Et;
      [|discriminate].
    injection Hw as <-. cbn [orb]. eexists. split; [reflexivity|].
    cbn [Swift.paramName paramValue]. split; [exact Em|]. now left.
Qed.

Lemma written_control_is_reached (paramName value : ustring) (maxDepth : Z)
    (elements : list Element) :
  let r := findAndSetParameter elements paramName value 0 maxDepth in
  r.1 = true ->
  lowercased paramName <> lowercased [] ->
  exists p,
    In p (omap paramOf (reached maxDepth r.2))
    /\ matchesControlName (Swift.paramName p) paramName = true
    /\ (paramValue p = value
        \/ exists f, Float_of_string value = Some f /\ paramValue p = stringValue f).
Proof.
  cbv zeta. intros Hf Hne.
  destruct (findAndSetParameter_outcome paramName value maxDepth elements 0)
    as [Ho _].
  unfold writeOutcome in Ho.
  destruct (findIndex _ _) as [i|] eqn:Ei; [|destruct Ho; congruence].
  destruct Ho as [_ (d & e & v & Hi & Hw & Hafter)].
  destruct (findIndex_sat _ _ _ Ei) as (x & Hx & Hacc).
  rewrite Hi in Hx. assert (x = (d, e)) by congruence. subst x. clear Hx.
  unfold accepting in Hacc. cbn [fst snd] in Hacc.
  apply andb_prop in Hacc as [_ Hd].
  assert (Hlook : listing 0 (findAndSetParameter elements paramName value 0 maxDepth).2
                    !! i = Some (d, attrs (setValueAttribute e v))).
  { rewrite Hafter. apply list_lookup_insert_eq.
    rewrite length_map. eauto using lookup_lt_Some. }
  unfold listing in Hlook. rewrite list_lookup_fmap in Hlook.
  destruct (preorder 0 (findAndSetParameter elements paramName value 0 maxDepth).2
              !! i) as [[d' e']|] eqn:Ep; [|discriminate].
  change (Some (d', attrs e') = Some (d, attrs (setValueAttribute e v))) in Hlook.
  assert (d' = d) by congruence. subst d'.
  assert (Ha : attrs e' = attrs (setValueAttribute e v)) by congruence.
  assert (Hname : controlName e <> []).
  { intros Hc. unfold writeFor in Hw. rewrite Hc in Hw.
    destruct (matchesControlName [] paramName) eqn:Em; [|discriminate].
    unfold matchesControlName in Em. apply eqb_true in Em. congruence. }
  destruct (paramOf_written paramName value e e' v Hw Ha Hname) as (p & Hp & Hm & Hv).
  exists p. split; [|auto].
  apply (In_omap _ _ e'); [|exact Hp].
  unfold reached. apply (in_map snd _ (d, e')).
  unfold within. apply List.filter_In. split; [|exact Hd].
  eauto using lookup_In.
Qed.

(** X9. Writing, then reading: when [setPluginParameter] finds a control
    to write on, a main window is designated and the parameter name is not
    one that lower-cases to the empty text, a [getPluginParameters] run on
    the host as the write left it prints a list that holds a parameter
    whose name matches and whose value is the written text, or, for a
    slider, the rendering of the number the text denotes. *)
Theorem written_parameter_is_listed
    (trackIndex slotIndex : Z) (paramName value : ustring)
    (host : Host) (app : App) (w : Element) :
  logicPro host = Some app ->
  mainWindow app = Some w ->
  existsb (windowAccepts paramName value) (appChildren app) = true ->
  lowercased paramName <> lowercased [] ->
  exists params p,
    getPluginParameters trackIndex slotIndex
      (setPluginParameter trackIndex slotIndex paramName value host).2
    = mkRun [serializeParams params] [] 0
    /\ In p params
    /\ matchesControlName (Swift.paramName p) paramName = true
    /\ (paramValue p = value
        \/ exists f, Float_of_string value = Some f /\ paramValue p = stringValue f).
Proof.
  intros Happ Hw Hex Hne. unfold setPluginParameter. rewrite Happ.
  set (step := fun window : Element =>
         let '(found, children') :=
           findAndSetParameter (getChildren window) paramName value 0 8 in
         (found, mkElement (attrs window) children')).
  assert (Hstep : forall window,
            (step window).1 = windowAccepts paramName value window).
  { intros window. subst step. cbv beta.
    destruct (findAndSetParameter_found paramName value window) as [Hf _].
    cbv zeta in Hf.
    now destruct (findAndSetParameter (getChildren window) paramName value 0 8). }
  pose proof (untilFound_found step (appChildren app)) as Hf.
  rewrite (existsb_pointwise _ (windowAccepts paramName value)) in Hf
    by exact Hstep.
  rewrite Hex in Hf.
  pose proof (untilFound_length step (appChildren app)) as Hlen.
  destruct (untilFound_hit step (appChildren app) Hf) as (x & Hin & Hx & Hx').
  destruct (untilFound step (appChildren app)) as [f ws']. cbn [fst snd] in *.
  subst f.
  assert (Hmain : exists w', mainWindow (mkApp ws' (mainWindowIndex app)) = Some w').
  { unfold mainWindow in *. cbn [mainWindowIndex appChildren].
    destruct (mainWindowIndex app) as [i|]; [|discriminate].
    apply lookup_lt_Some in Hw. rewrite <- Hlen in Hw.
    apply lookup_lt_is_Some_2 in Hw. destruct Hw as [w' Hw']. eauto. }
  destruct Hmain as [w' Hw'].
  exists (flat_map windowParameters ws').
  pose proof (written_control_is_reached paramName value 8 (getChildren x)) as Hr.
  cbv zeta in Hr.
  assert (Ex : step x
               = ((findAndSetParameter (getChildren x) paramName value 0 8).1,
                  mkElement (attrs x)
                    (findAndSetParameter (getChildren x) paramName value 0 8).2)).
  { subst step. cbv beta.
    now destruct (findAndSetParameter (getChildren x) paramName value 0 8). }
  rewrite Ex in Hx, Hx'. cbn [fst snd] in Hx, Hx'.
  destruct (Hr Hx Hne) as (p & Hp & Hm & Hv).
  exists p. split; [|split; [|auto]].
  - cbn [snd].
    now apply (getPluginParameters_windows trackIndex slotIndex _
                 (mkApp ws' (mainWindowIndex app)) w').
  - apply in_flat_map. eexists. split; [exact Hx'|]. exact Hp.
Qed.

(** ** The entry point *)

Lemma exitCode_setPluginParameter
    (trackIndex slotIndex : Z) (paramName value : ustring) (host : Host) :
  exitCode (setPluginParameter trackIndex slotIndex paramName value host).1 = 0%Z.
Proof.
  unfold setPluginParameter. destruct (logicPro host); [|reflexivity].
  destruct (untilFound _ _) as [[|] ?]; reflexivity.
Qed.

Lemma exitCode_listTracks (host : Host) : exitCode (listTracks host) = 0%Z.
Proof.
  unfold listTracks. destruct (logicPro host) as [app|]; [|reflexivity].
  destruct (mainWindow app); [|reflexivity].
  repeat (destruct (findElementByDescription _ _ _); [reflexivity|]).
  reflexivity.
Qed.

Lemma exitCode_querySpuren (maxDepth : Z) (host : Host) :
  exitCode (querySpuren maxDepth host) = 0%Z.
Proof.
  unfold querySpuren. destruct (logicPro host) as [app|]; [|reflexivity].
  destruct (mainWindow app); [|reflexivity].
  repeat (destruct (findElementByDescription _ _ _); [reflexivity|]).
  reflexivity.
Qed.

Lemma exitCode_queryElement (maxDepth : Z) (host : Host) :
  exitCode (queryElement maxDepth host) = 0%Z.
Proof.
  unfold queryElement. destruct (logicPro host) as [app|]; [|reflexivity].
  destruct (mainWindow app); reflexivity.
Qed.

Lemma exitCode_getPluginParameters (trackIndex slotIndex : Z) (host : Host) :
  exitCode (getPluginParameters trackIndex slotIndex host) = 0%Z.
Proof.
  unfold getPluginParameters. destruct (logicPro host) as [app|]; [|reflexivity].
  destruct (mainWindow app); reflexivity.
Qed.

Lemma exitCode_checkAccessibility (host : Host) :
  exitCode (checkAccessibility host) = 0%Z.
Proof. unfold checkAccessibility. destruct (trusted host); reflexivity. Qed.

(** X10. The helper exits with status 1 exactly on a usage error: fewer
    than two arguments, an unknown command, or [get-params] and
    [set-param] with too few arguments or with an index that is no
    integer.  Every command that runs exits with status 0, whatever it
    finds: Logic Pro not running, no window, no tracks area and no
    matching parameter are not reported through the exit status.  Only
    [set-param] changes the host. *)
Theorem helper_exit_status (args : list ustring) (host : Host) :
  exitCode (main args host).1 = (if wellFormed args then 0 else 1)%Z
  /\ (args !! 1 <> Some (lit "set-param") -> (main args host).2 = host).
Proof.
  unfold main, wellFormed.
  destruct args as [|program [|command rest]]; [split; reflexivity..|].
  cbn [lookup list_lookup].
  destruct (eqb command (lit "check-access")) eqn:E1;
    [split; [apply exitCode_checkAccessibility | reflexivity]|].
  destruct (eqb command (lit "list-tracks")) eqn:E2;
    [split; [apply exitCode_listTracks | reflexivity]|].
  cbn [orb].
  destruct (eqb command (lit "query")) eqn:E5.
  { apply eqb_true in E5. subst command. closed_tests.
    split; [apply exitCode_queryElement | reflexivity]. }
  destruct (eqb command (lit "query-spuren")) eqn:E6.
  { apply eqb_true in E6. subst command. closed_tests.
    split; [apply exitCode_querySpuren | reflexivity]. }
  destruct (eqb command (lit "get-params")) eqn:E3.
  { destruct rest as [|a2 [|a3 rest]]; [split; reflexivity..|].
    destruct (Int_of_string a2), (Int_of_string a3);
      (split; [first [apply exitCode_getPluginParameters | reflexivity]
              | reflexivity]). }
  destruct (eqb command (lit "set-param")) eqn:E4.
  { apply eqb_true in E4. subst command. split; [|congruence].
    destruct rest as [|a2 [|a3 [|paramName [|value rest]]]]; [reflexivity..|].
    destruct (Int_of_string a2), (Int_of_string a3);
      first [apply exitCode_setPluginParameter | reflexivity]. }
  split; reflexivity.
Qed.

End Helper.
End HelperFacts.

Module HelperWitnesses.
Import Text Swift HelperFacts.
#[local] Existing Instance Sample.foundation.

Lemma found_element_is_described_witness :
  let root := Sample.group [Sample.threeTracks] in
  findElementByDescription root (lit "Tracks") 0 = Some Sample.threeTracks
  /\ default [] (getDescription Sample.threeTracks) = lit "Tracks"
  /\ In Sample.threeTracks (reached (searchLevels 0) (getChildren root)).
Proof.
  split; [reflexivity|].
  apply (found_element_is_described (Sample.group [Sample.threeTracks])
           (lit "Tracks") 0 Sample.threeTracks).
  reflexivity.
Defined.

Lemma getPluginParameters_reads_every_window_witness :
  getPluginParameters 3 1 Sample.pluginHost
  = mkRun [serializeParams
             (flat_map windowParameters
                [Sample.oneTrackWindow; Sample.pluginWindow])] [] 0.
Proof.
  apply (getPluginParameters_reads_every_window 3 1 Sample.pluginHost
           (mkApp [Sample.oneTrackWindow; Sample.pluginWindow] (Some 0))
           Sample.oneTrackWindow); reflexivity.
Defined.

Lemma setPluginParameter_reports_witness :
  (setPluginParameter 0 0 (lit "gain") (lit "7") Sample.pluginHost).1
  = mkRun [lit "Parameter set successfully"] [] 0.
Proof.
  apply (setPluginParameter_reports 0 0 (lit "gain") (lit "7") Sample.pluginHost
           (mkApp [Sample.oneTrackWindow; Sample.pluginWindow] (Some 0))).
  reflexivity.
Defined.

Lemma written_parameter_is_listed_witness :
  exists params p,
    getPluginParameters 0 0
      (setPluginParameter 0 0 (lit "gain") (lit "7") Sample.pluginHost).2
    = mkRun [serializeParams params] [] 0
    /\ In p params
    /\ matchesControlName (paramName p) (lit "gain") = true
    /\ (paramValue p = lit "7"
        \/ exists f, Float_of_string (lit "7") = Some f
                     /\ paramValue p = stringValue f).
Proof.
  apply (written_parameter_is_listed 0 0 (lit "gain") (lit "7") Sample.pluginHost
           (mkApp [Sample.oneTrackWindow; Sample.pluginWindow] (Some 0))
           Sample.oneTrackWindow); [reflexivity | reflexivity | reflexivity |].
  discriminate.
Defined.

End HelperWitnesses.

(* ===================================================================== *)
(** * Further properties of the catalog parser *)
(* ===================================================================== *)

Module CatalogFacts.
Import Text Plugins TextFacts PluginsFacts.

(** ** Trimming *)

Lemma dropWhile_suffix (p : char -> bool) (s : ustring) :
  exists pre, s = pre ++ dropWhile p s.
Proof.
  induction s as [|c s [pre IH]]; [now exists []|]. simpl.
  destruct (p c); [|now exists []].
  exists (c :: pre). simpl. now rewrite <- IH.
Qed.

Lemma dropWhile_clean (p : char -> bool) (s : ustring) :
  startsClean p (dropWhile p s).
Proof.
  induction s as [|c s IH]; [exact I|]. simpl.
  destruct (p c) eqn:E; [exact IH | exact E].
Qed.

Lemma dropWhile_id (p : char -> bool) (s : ustring) :
  startsClean p s -> dropWhile p s = s.
Proof. destruct s as [|c s]; [reflexivity|]. simpl. now intros ->. Qed.

Lemma dropWhileEnd_prefix (p : char -> bool) (s : ustring) :
  exists post, s = dropWhileEnd p s ++ post.
Proof.
  unfold dropWhileEnd. destruct (dropWhile_suffix p (rev s)) as [pre Hpre].
  exists (rev pre). rewrite <- rev_app_distr, <- Hpre. symmetry. apply rev_involutive.
Qed.

Lemma trimBy_idempotent (p : char -> bool) (s : ustring) :
  trimBy p (trimBy p s) = trimBy p s.
Proof.
  unfold trimBy. set (t := dropWhile p s).
  assert (Hclean : startsClean p (dropWhileEnd p t)).
  { destruct (dropWhileEnd_prefix p t) as [post Hpost].
    pose proof (dropWhile_clean p s) as Ht. fold t in Ht.
    destruct (dropWhileEnd p t) as [|c r]; [exact I|].
    rewrite Hpost in Ht. exact Ht. }
  rewrite (dropWhile_id p _ Hclean).
  unfold dropWhileEnd at 1. unfold dropWhileEnd at 1. rewrite rev_involutive.
  rewrite (dropWhile_id p (dropWhile p (rev t))) by apply dropWhile_clean.
  reflexivity.
Qed.

Lemma forallb_rev {A} (q : A -> bool) (l : list A) :
  forallb q (rev l) = forallb q l.
Proof.
  induction l as [|x l IH]; [reflexivity|]. simpl.
  rewrite forallb_app, IH. simpl. rewrite andb_true_r. apply andb_comm.
Qed.

Lemma forallb_dropWhile (q p : char -> bool) (s : ustring) :
  forallb q s = true -> forallb q (dropWhile p s) = true.
Proof.
  destruct (dropWhile_suffix p s) as [pre Hpre]. intros Hq.
  rewrite Hpre, forallb_app in Hq. now apply andb_prop in Hq as [_ Hq].
Qed.

Lemma forallb_trimBy (q p : char -> bool) (s : ustring) :
  forallb q s = true -> forallb q (trimBy p s) = true.
Proof.
  intros Hq. unfold trimBy, dropWhileEnd. rewrite forallb_rev.
  apply forallb_dropWhile. rewrite forallb_rev. now apply forallb_dropWhile.
Qed.

(** ** Captures *)

Lemma tryCounts_caps (p : Piece) k (s : ustring) (n : nat) res :
  tryCounts p k s n = Some res ->
  exists m caps,
    m <= n /\ minCount p <= m /\ k (drop m s) = Some caps
    /\ res = (if capture p then take m s :: caps else caps).
Proof.
  induction n as [|n IH]; simpl.
  - destruct (minCount p <=? 0) eqn:E.
    + destruct (k (drop 0 s)) eqn:K; [|discriminate].
      intros [= <-]. exists 0, l. apply Nat.leb_le in E. auto.
    + discriminate.
  - destruct (minCount p <=? S n) eqn:E.
    + destruct (k (drop (S n) s)) eqn:K.
      * intros [= <-]. exists (S n), l. apply Nat.leb_le in E. auto.
      * intros Hr. destruct (IH Hr) as (m & caps & ? & ? & ? & ?).
        exists m, caps. auto.
    + intros Hr. destruct (IH Hr) as (m & caps & ? & ? & ? & ?).
      exists m, caps. auto.
Qed.

(** A string that matches is made of one run per piece, and the captures
    are the runs of the capture groups. *)
Lemma matchPieces_captured (ps : list Piece) (s : ustring) caps :
  matchPieces ps s = Some caps ->
  exists runs, s = concat runs /\ Forall2 isRun ps runs /\ caps = captured ps runs.
Proof.
  revert s caps. induction ps as [|p ps IH]; simpl; intros s caps Hm.
  - destruct s; [|discriminate]. injection Hm as <-.
    exists []. repeat split. constructor.
  - apply tryCounts_caps in Hm as (m & caps' & Hle & Hmin & Hk & ->).
    destruct (IH _ _ Hk) as (runs & Hs & Hruns & ->).
    pose proof (runLength_le (cls p) s) as Hrl.
    assert (Hm : m <= runLength (cls p) s)
      by (unfold longest in Hle; destruct (maxCount p); lia).
    exists (take m s :: runs). split; [|split].
    + simpl. rewrite <- Hs. symmetry. apply take_drop.
    + constructor; [|assumption]. split; [|split].
      * now apply runLength_take.
      * rewrite length_take. lia.
      * intros m' Hmax. rewrite length_take. unfold longest in Hle.
        rewrite Hmax in Hle. lia.
    + reflexivity.
Qed.

Lemma word4_token (run : ustring) : isRun word4 run -> token run.
Proof.
  intros (Hc & Hmin & Hmax). specialize (Hmax 4 eq_refl). cbn in Hmin.
  split; [lia | exact Hc].
Qed.

Lemma parseLine_wellFormed (line : ustring) (u : AudioUnit) :
  parseLine line = Some u -> wellFormedUnit u.
Proof.
  unfold parseLine.
  destruct (matchPieces auvalLine line) as [caps|] eqn:Em; [|discriminate].
  apply matchPieces_captured in Em as (runs & _ & Hruns & ->).
  unfold auvalLine in Hruns.
  repeat match goal with
         | H : Forall2 _ (_ :: _) _ |- _ =>
           apply Forall2_cons_inv_l in H as (? & ? & ? & H & ->)
         | H : Forall2 _ [] _ |- _ => apply Forall2_nil_inv_l in H as ->
         end.
  cbn [captured capture ws word4 dash rest]. intros [= <-].
  unfold wellFormedUnit. cbn [type subtype manufacturer name].
  repeat split; try (apply word4_token; assumption).
  - apply trimBy_idempotent.
  - apply forallb_trimBy.
    match goal with H : isRun rest _ |- _ => destruct H as [Hc _]; exact Hc end.
Qed.

(** X11. Every record [parseAuvalOutput] returns has a type, a subtype and
    a manufacturer of exactly four word characters each, and a name that
    holds no line terminator and has no white space at either end (the
    name may be empty). *)
Theorem catalog_records_are_well_formed (output : ustring) :
  Forall wellFormedUnit (parseAuvalOutput output).
Proof.
  rewrite parseAuvalOutput_lines. generalize (jsSplit 10%N output).
  induction l as [|line l IH]; [constructor|].
  cbn [omap list_omap]. destruct (parseLine line) as [u|] eqn:E; [|exact IH].
  constructor; [|exact IH]. eauto using parseLine_wellFormed.
Qed.

(** ** Lines *)

Lemma jsSplitLoop_newline (sep : char) (a b cur : ustring) :
  jsSplitLoop sep (a ++ sep :: b) cur = jsSplitLoop sep a cur ++ jsSplit sep b.
Proof.
  revert cur. induction a as [|c a IH]; intros cur; simpl.
  - now rewrite N.eqb_refl.
  - destruct (c =? sep)%N; simpl; now rewrite IH.
Qed.

Lemma omap_parseLine_app (l1 l2 : list ustring) :
  omap parseLine (l1 ++ l2) = omap parseLine l1 ++ omap parseLine l2.
Proof.
  induction l1 as [|x l1 IH]; [reflexivity|]. cbn [app omap list_omap].
  rewrite IH. now destruct (parseLine x).
Qed.

(** X12. The catalog is read line by line: the records of two outputs
    joined by a line feed are the records of the first followed by the
    records of the second, so a line is judged on its own and the records
    keep the order of their lines. *)
Theorem catalog_is_read_line_by_line (first second : ustring) :
  parseAuvalOutput (first ++ 10%N :: second)
  = parseAuvalOutput first ++ parseAuvalOutput second.
Proof.
  rewrite !parseAuvalOutput_lines. unfold jsSplit at 1.
  now rewrite jsSplitLoop_newline, omap_parseLine_app.
Qed.

End CatalogFacts.

(* ===================================================================== *)
(** * Further properties of the fallback script *)
(* ===================================================================== *)

Module FallbackFacts.
Import Text Swift SwiftFacts HelperFacts.

Section Script.
Context `{Foundation}.

Lemma findTracks_fold (element : Element) :
  forall depth tracks,
    JXA.findTracks element depth tracks
    = fold_left JXA.trackStep
        (map snd (within 13 (preorder depth (axChildren element)))) tracks.
Proof.
  induction element as [a cs IH] using Element_children_ind.
  intros d acc. cbn [JXA.findTracks axChildren].
  destruct (Z.ltb_spec 12 d) as [Hd|Hd].
  - rewrite within_deep by lia. reflexivity.
  - revert acc. induction IH as [|c cs Hc _ IHcs]; intros acc; [reflexivity|].
    cbn [fold_left]. rewrite preorder_cons, within_app, map_app, fold_left_app.
    rewrite within_preorderAt by lia. cbn [map snd fold_left].
    rewrite <- Hc. apply IHcs.
Qed.

(** X13. From the tracks area, the fallback script tests exactly the
    elements of the thirteen levels below it (those that [depth > 12] lets
    through), in pre-order, and appends one track for each of them that is
    a layout item whose description starts with Spur or Track, numbered by
    the count of the tracks before it. *)
Theorem fallback_walks_thirteen_levels (spurenGroup : Element) :
  JXA.findTracks spurenGroup 0 []
  = fold_left JXA.trackStep (reached 13 (axChildren spurenGroup)) [].
Proof. apply findTracks_fold. Qed.

(** X14. What [findSpurenGroup] returns is an element of role [AXGroup]
    described as Spuren or Tracks, found among the six levels below the
    element the search starts from at depth 0 (one level fewer for every
    unit of the starting depth). *)
Theorem found_area_is_a_described_group (root : Element) :
  forall (depth : Z) (g : Element),
    JXA.findSpurenGroup root depth = Some g ->
    JXA.isGroup g = true /\ JXA.isTracksArea g = true
    /\ In g (reached (6 - depth) (axChildren root)).
Proof.
  induction root as [a cs IH] using Element_children_ind.
  intros d g. cbn [JXA.findSpurenGroup axChildren].
  destruct (Z.ltb_spec 5 d) as [Hd|Hd]; [discriminate|].
  intros Hs. apply firstSome_Some in Hs as (c & Hin & Hc).
  destruct (JXA.isGroup c) eqn:Eg; [|discriminate].
  destruct (JXA.isTracksArea c) eqn:Ea.
  - injection Hc as <-. repeat split; [exact Eg | exact Ea |].
    apply reached_roots; [lia | exact Hin].
  - rewrite List.Forall_forall in IH. destruct (IH c Hin _ _ Hc) as (Hg & Hd' & Hr).
    repeat split; [exact Hg | exact Hd' |].
    apply (reached_children _ _ c); [lia | exact Hin |].
    now replace (6 - d - 1)%Z with (6 - (d + 1))%Z by lia.
Qed.

Lemma isTrackItem_isTrackElement (e : Element) :
  JXA.isTrackItem e = isTrackElement e.
Proof.
  unfold JXA.isTrackItem, isTrackElement, isTrackDescription.
  destruct (getRole e) as [role|], (getDescription e) as [desc|]; cbn [default];
    try reflexivity.
  now rewrite andb_false_r.
Qed.

Lemma length_tracksFrom (els : list Element) (tracks : list Track) :
  length (tracksFrom tracks els) = (length tracks + length els)%nat.
Proof.
  unfold tracksFrom. revert tracks.
  induction els as [|e els IH]; intros tracks; cbn [fold_left length]; [lia|].
  rewrite IH, length_app. cbn. lia.
Qed.

Lemma length_fold_trackStep (els : list Element) (tracks : list JXA.Track) :
  length (fold_left JXA.trackStep els tracks)
  = (length tracks + length (List.filter isTrackElement els))%nat.
Proof.
  revert tracks. induction els as [|e els IH]; intros tracks;
    cbn [fold_left List.filter length]; [lia|].
  rewrite IH. unfold JXA.trackStep. rewrite isTrackItem_isTrackElement.
  destruct (isTrackElement e); [|reflexivity].
  rewrite length_app. cbn. lia.
Qed.

(** X21. The two backends take the same elements for tracks (layout items
    whose description starts with Spur or Track) and differ in how far
    they look: from the same tracks area the helper returns as many tracks
    as there are such elements in the twelve levels below it, the fallback
    script as many as there are in the thirteen levels below it. *)
Theorem backends_count_the_same_elements (spurenGroup : Element) :
  length (extractTracks spurenGroup)
  = length (List.filter isTrackElement (reached 12 (getChildren spurenGroup)))
  /\ length (JXA.findTracks spurenGroup 0 [])
     = length (List.filter isTrackElement (reached 13 (getChildren spurenGroup))).
Proof.
  split.
  - unfold extractTracks. rewrite collectTrackElements_fold, length_tracksFrom.
    reflexivity.
  - rewrite findTracks_fold, length_fold_trackStep. reflexivity.
Qed.

End Script.
End FallbackFacts.

(* ===================================================================== *)
(** * Further properties of the bridge and of the handlers on top of it *)
(* ===================================================================== *)

Module CallFacts.
Import Text Bridge TextFacts BridgeFacts.

Section Calls.
Context `{Swift.Foundation}.

Lemma main_check_access (host : Swift.Host) :
  Swift.main [lit "LogicAccessibility"; lit "check-access"] host
  = (Swift.checkAccessibility host, host).
Proof. reflexivity. Qed.

Lemma main_get_params (program : ustring) (trackIndex slotIndex : Z)
    (host : Swift.Host) :
  (Int_min <= trackIndex <= Int_max)%Z -> (Int_min <= slotIndex <= Int_max)%Z ->
  Swift.main [program; lit "get-params"; decimal trackIndex; decimal slotIndex] host
  = (Swift.getPluginParameters trackIndex slotIndex host, host).
Proof.
  intros Ht Hs. unfold Swift.main.
  replace (eqb (lit "get-params") (lit "check-access")) with false by reflexivity.
  replace (eqb (lit "get-params") (lit "list-tracks")) with false by reflexivity.
  replace (eqb (lit "get-params") (lit "get-params")) with true by reflexivity.
  now rewrite !Int_of_string_decimal.
Qed.

Lemma outcomeOfRun_success (r : Swift.Run) :
  Swift.exitCode r = 0%Z ->
  outcomeOfRun r = Resolved (printed (Swift.stdout r)) (concat (Swift.stderr r)).
Proof. unfold outcomeOfRun. now intros ->. Qed.

(** X15. [checkAccessibility] never throws: when the helper cannot be run
    or fails, the answer is [false].  When the helper is the process
    behind the call, it spawns the helper once and returns exactly
    whether the helper process is trusted for accessibility: the denial
    line of the helper, which asks to grant access, is not taken for a
    grant. *)
Theorem accessibility_check_reports_trust (w : World) :
  (exists granted, (checkAccessibility w).1 = Ok granted)
  /\ (forall message,
        exec w (CallHelper [lit "check-access"]) = Rejected message ->
        checkAccessibility w
        = (Ok false, spawned w (CallHelper [lit "check-access"])))
  /\ forall host : Swift.Host,
       exec w (CallHelper [lit "check-access"])
       = helperOn host [lit "check-access"] ->
       checkAccessibility w
       = (Ok (Swift.trusted host), spawned w (CallHelper [lit "check-access"])).
Proof.
  split; [|split].
  - unfold checkAccessibility, tryCatch, mbind, M_bind, bind, ret.
    destruct (runAxHelper [lit "check-access"] w) as [[out|msg] w']; eauto.
  - intros message Hexec.
    unfold checkAccessibility, runAxHelper, tryCatch, mbind, M_bind, bind,
      execFileAsync, ret, throw.
    rewrite Hexec. destruct (contains _ _); reflexivity.
  - intros host Hexec.
    unfold helperOn in Hexec. rewrite main_check_access in Hexec. cbn [fst] in Hexec.
    unfold checkAccessibility, tryCatch, mbind, M_bind, bind, ret.
    unfold Swift.checkAccessibility in Hexec.
    destruct (Swift.trusted host);
      rewrite (runAxHelper_resolved _ _ _ _ Hexec); reflexivity.
Qed.

(** X16. When the helper is the process behind the call and the indices
    are safe integers, [getPluginParameters] of the bridge never meets a
    usage error: it spawns the helper once and its result is what
    [JSON.parse] makes of the line the helper's [getPluginParameters]
    printed for the same indices; what the helper wrote on standard error
    is dropped. *)
Theorem parameters_call_reads_the_helper_output `{ParameterRuntime}
    (host : Swift.Host) (trackIndex slotIndex : Z) (w : World) :
  let args := [lit "get-params"; String_of_number trackIndex;
               String_of_number slotIndex] in
  isSafeInteger trackIndex ->
  isSafeInteger slotIndex ->
  exec w (CallHelper args) = helperOn host args ->
  getPluginParameters trackIndex slotIndex w
  = (JSON_parse_parameters
       (jsTrim (printed (Swift.stdout
                           (Swift.getPluginParameters trackIndex slotIndex host)))),
     spawned w (CallHelper args)).
Proof.
  intros args Ht Hs Hexec. subst args.
  unfold helperOn in Hexec. unfold String_of_number in Hexec.
  rewrite !numberToString_safe in Hexec by assumption.
  rewrite main_get_params in Hexec by now apply safe_is_Int.
  cbn [fst] in Hexec.
  rewrite outcomeOfRun_success in Hexec
    by apply HelperFacts.exitCode_getPluginParameters.
  unfold getPluginParameters, mbind, M_bind, bind, settle, String_of_number.
  rewrite !numberToString_safe by assumption.
  now rewrite (runAxHelper_resolved _ _ _ _ Hexec).
Qed.

(** X17. When the helper is the process behind the call and the indices
    are safe integers, the [plugin_set_parameter] handler never answers
    with an error: its text is the announcement that the parameter was
    set, followed by the helper's success line exactly when the helper
    found a control to write on. *)
Theorem set_parameter_reply
    (host : Swift.Host) (trackIndex slotIndex : Z) (paramName value : ustring)
    (w : World) :
  let args := [lit "set-param"; String_of_number trackIndex;
               String_of_number slotIndex; paramName; value] in
  isSafeInteger trackIndex ->
  isSafeInteger slotIndex ->
  exec w (CallHelper args) = helperOn host args ->
  (Plugins.plugin_set_parameter trackIndex slotIndex paramName value w).1
  = Ok (Plugins.mkToolResponse
          (lit "Parameter " ++ [DQUOTE] ++ paramName ++ [DQUOTE]
           ++ lit " set to " ++ [DQUOTE] ++ value ++ [DQUOTE] ++ lit ". "
           ++ (if Swift.parameterTaken paramName value host
               then lit "Parameter set successfully" else []))
          false).
Proof.
  intros args Ht Hs Hexec. subst args.
  unfold helperOn in Hexec. unfold String_of_number in Hexec.
  rewrite !numberToString_safe in Hexec by assumption.
  rewrite SwiftFacts.main_set_param in Hexec by now apply safe_is_Int.
  rewrite outcomeOfRun_success in Hexec
    by apply HelperFacts.exitCode_setPluginParameter.
  assert (Hout : jsTrim (printed (Swift.stdout
                   (Swift.setPluginParameter trackIndex slotIndex paramName value
                      host).1))
                 = if Swift.parameterTaken paramName value host
                   then lit "Parameter set successfully" else []).
  { unfold Swift.parameterTaken.
    destruct (Swift.logicPro host) as [app|] eqn:Happ.
    - pose proof (HelperFacts.setPluginParameter_run trackIndex slotIndex
                    paramName value host app Happ) as Hrun.
      cbv zeta in Hrun.
      destruct (existsb _ _); rewrite Hrun; reflexivity.
    - unfold Swift.setPluginParameter. rewrite Happ. reflexivity. }
  unfold Plugins.plugin_set_parameter, setPluginParameter, tryCatch, mbind,
    M_bind, bind, ret, String_of_number.
  rewrite !numberToString_safe by assumption.
  rewrite (runAxHelper_resolved _ _ _ _ Hexec). cbn [fst]. now rewrite Hout.
Qed.

End Calls.
End CallFacts.

(* ===================================================================== *)
(** * Properties of the note sequences and of the MIDI tools *)
(* ===================================================================== *)

Module SequenceFacts.
Import Text Midi MidiTools MidiFacts.
Local Open Scope Z_scope.

Lemma sendNoteOn_bytes (channel note velocity : Z) :
  sendNoteOn channel note velocity = sendMessage (noteOnBytes channel note velocity).
Proof.
  unfold sendNoteOn, noteOnBytes. now rewrite bitAnd_0x0f, !bitAnd_0x7f.
Qed.

Lemma sendNoteOff_bytes (channel note : Z) :
  sendNoteOff channel note = sendMessage (noteOffBytes channel note).
Proof. unfold sendNoteOff, noteOffBytes. now rewrite bitAnd_0x0f, bitAnd_0x7f. Qed.

Lemma call_sendMessage (bytes : list Z) (o : Output) (t : list Step) :
  call (sendMessage bytes) (mkSession (Some o) t)
  = (Bridge.Ok tt,
     mkSession (Some (mkOutput (sent o ++ [bytes]))) (t ++ [Message bytes])).
Proof.
  unfold call, sendMessage. cbn [port timeline sentBy sent].
  now rewrite drop_app_length.
Qed.


(** X18. On an open port [sendNotes] does not throw and plays the events
    one after another: for each event a wait of its delay when that is
    positive, the note-on, a wait of its duration (500 ms when none is
    given), then the note-off for the same channel (0 when none is given)
    and the same key, before the next event starts; the port receives two
    messages per event.  On a closed port it throws at once and does
    nothing. *)
Theorem notes_are_played_one_after_another
    (notes : list NoteEvent) (o : Output) (t : list Step) :
  sendNotes notes (mkSession (Some o) t)
  = (Bridge.Ok tt,
     mkSession
       (Some (mkOutput
                (sent o
                 ++ flat_map
                      (fun event =>
                         [noteOnBytes (default 0 (channel event)) (note event)
                                      (velocity event);
                          noteOffBytes (default 0 (channel event)) (note event)])
                      notes)))
       (t ++ flat_map played notes))
  /\ sendNotes notes (mkSession None t)
     = (Bridge.Throw (lit "MIDI port not open"), mkSession None t).
Proof.
  split; [|reflexivity].
  unfold sendNotes. cbn [port]. revert o t.
  induction notes as [|event notes IH]; intros o t.
  - cbn. rewrite !app_nil_r. now destruct o.
  - cbn [forEach flat_map]. unfold andThen at 1 2.
    assert (Hdelay :
              (if 0 <? default 0 (delay event)
               then sleep (default 0 (delay event)) else done tt)
                (mkSession (Some o) t)
              = (Bridge.Ok tt,
                 mkSession (Some o)
                   (t ++ (if 0 <? default 0 (delay event)
                          then [Sleep (default 0 (delay event))] else [])))).
    { destruct (0 <? default 0 (delay event)); cbn; [reflexivity|].
      now rewrite app_nil_r. }
    rewrite Hdelay. unfold andThen at 1.
    rewrite sendNoteOn_bytes, call_sendMessage. unfold andThen at 1.
    unfold sleep at 1. cbn [port timeline].
    rewrite sendNoteOff_bytes, call_sendMessage. rewrite IH.
    unfold played. cbn [sent]. rewrite <- !app_assoc. reflexivity.
Qed.


End SequenceFacts.

(* ===================================================================== *)
(** * Properties of the request handler *)
(* ===================================================================== *)

Module ServerFacts.
Import Text Server.

Section Dispatch.
Context {St Args : Type}.

Lemma toolMap_snoc (tools : list (Tool St Args)) (t : Tool St Args) :
  toolMap (tools ++ [t]) = <[toolName t := t]> (toolMap tools).
Proof. unfold toolMap. now rewrite fold_left_app. Qed.

Lemma toolMap_lookup (tools : list (Tool St Args)) (name : ustring) :
  toolMap tools !! name = last (named name tools).
Proof.
  induction tools as [|t tools IH] using rev_ind; [reflexivity|].
  rewrite toolMap_snoc. unfold named. rewrite List.filter_app. cbn [List.filter].
  unfold eqb. destruct (bool_decide_reflect (toolName t = name)) as [->|Hne].
  - now rewrite lookup_insert_eq, last_snoc.
  - rewrite lookup_insert_ne by assumption. now rewrite app_nil_r.
Qed.

(** X20. The request handler answers every request and never throws.  A
    name under which no tool is registered is answered with an error
    response that names it, and no handler runs.  Otherwise the handler of
    the last tool registered under the name runs, once: its response is
    passed on as it is, and what it throws becomes an error response with
    the message. *)
Theorem every_request_is_answered
    (tools : list (Tool St Args)) (name : ustring) (args : Args) (s : St) :
  (exists response, (callTool tools name args s).1 = Bridge.Ok response)
  /\ callTool tools name args s
     = match last (named name tools) with
       | None => (Bridge.Ok (unknownTool name), s)
       | Some tool =>
         ((match (handler tool args s).1 with
           | Bridge.Ok response => Bridge.Ok response
           | Bridge.Throw message => Bridge.Ok (failure message)
           end), (handler tool args s).2)
       end.
Proof.
  unfold callTool. rewrite toolMap_lookup.
  destruct (last (named name tools)) as [tool|]; [|eauto].
  destruct (handler tool args s) as [[response|message] s']; eauto.
Qed.

End Dispatch.
End ServerFacts.

(* ===================================================================== *)
(** * The properties above, on sample data *)
(* ===================================================================== *)

Module Instances.
Import Text Swift.
#[local] Existing Instance Sample.foundation.
#[local] Existing Instance Sample.parameterRuntime.

Lemma found_area_is_a_described_group_witness :
  JXA.findSpurenGroup Sample.nestedAreaWindow 0 = Some Sample.threeTracks
  /\ JXA.isGroup Sample.threeTracks = true
  /\ JXA.isTracksArea Sample.threeTracks = true
  /\ In Sample.threeTracks (reached (6 - 0) (axChildren Sample.nestedAreaWindow)).
Proof.
  split; [reflexivity|].
  apply (FallbackFacts.found_area_is_a_described_group Sample.nestedAreaWindow 0
           Sample.threeTracks).
  reflexivity.
Defined.

Lemma accessibility_check_reports_trust_witness :
  Bridge.checkAccessibility Sample.pluginWorld
  = (Bridge.Ok true,
     Bridge.spawned Sample.pluginWorld (Bridge.CallHelper [lit "check-access"])).
Proof.
  apply (proj2 (proj2 (CallFacts.accessibility_check_reports_trust
                         Sample.pluginWorld))
           Sample.pluginHost).
  reflexivity.
Defined.

Lemma parameters_call_reads_the_helper_output_witness :
  Bridge.getPluginParameters 0 0 Sample.pluginWorld
  = (Bridge.JSON_parse_parameters
       (jsTrim (Bridge.printed
                  (stdout (getPluginParameters 0 0 Sample.pluginHost)))),
     Bridge.spawned Sample.pluginWorld
       (Bridge.CallHelper [lit "get-params"; Bridge.String_of_number 0;
                           Bridge.String_of_number 0])).
Proof.
  apply (CallFacts.parameters_call_reads_the_helper_output Sample.pluginHost 0 0
           Sample.pluginWorld).
  - unfold isSafeInteger; simpl; lia.
  - unfold isSafeInteger; simpl; lia.
  - reflexivity.
Defined.

Lemma set_parameter_reply_witness :
  (Plugins.plugin_set_parameter 0 0 (lit "gain") (lit "7") Sample.pluginWorld).1
  = Bridge.Ok
      (Plugins.mkToolResponse
         (lit "Parameter " ++ [DQUOTE] ++ lit "gain" ++ [DQUOTE]
          ++ lit " set to " ++ [DQUOTE] ++ lit "7" ++ [DQUOTE] ++ lit ". "
          ++ (if parameterTaken (lit "gain") (lit "7") Sample.pluginHost
              then lit "Parameter set successfully" else []))
         false).
Proof.
  apply (CallFacts.set_parameter_reply Sample.pluginHost 0 0 (lit "gain") (lit "7")
           Sample.pluginWorld).
  - unfold isSafeInteger; simpl; lia.
  - unfold isSafeInteger; simpl; lia.
  - reflexivity.
Defined.

(** ** Edge cases, evaluated *)

(** A dash followed by white space only: the name is empty. *)
Example catalog_line_with_a_blank_name :
  Plugins.parseAuvalOutput (lit "aufx AUBa appl -  ")
  = [Plugins.mkAudioUnit (lit "aufx") (lit "AUBa") (lit "appl") []].
Proof. vm_compute. reflexivity. Qed.

(** A track item on the thirteenth level below the tracks area is listed
    by the fallback script and not by the helper. *)
Example track_on_the_thirteenth_level :
  let area := Sample.group [Sample.nested 12 (Sample.track 1 "Drums" [])] in
  length (extractTracks area) = 0
  /\ length (JXA.findTracks area 0 []) = 1.
Proof. split; reflexivity. Qed.

(** The exit status tells a usage error from a run that found nothing. *)
Example exit_status_of_a_run_that_finds_nothing :
  exitCode (main [lit "logic-ax"; lit "set-param"; lit "0"; lit "0";
                  lit "Cutoff"; lit "1"] Sample.oneTrackHost).1 = 0%Z
  /\ exitCode (main [lit "logic-ax"; lit "set-param"; lit "zero"; lit "0";
                     lit "Cutoff"; lit "1"] Sample.oneTrackHost).1 = 1%Z.
Proof. split; reflexivity. Qed.

(** [String] of integers within and beyond the safe ones: beyond, the
    digits are the shortest that denote the Number, and from [10^21] on
    the exponent form is used. *)
Example numbers_as_the_bridge_renders_them :
  Bridge.String_of_number (2 ^ 53 - 1) = lit "9007199254740991"
  /\ Bridge.String_of_number (2 ^ 53 + 1) = lit "9007199254740992"
  /\ Bridge.String_of_number (2 ^ 63) = lit "9223372036854776000"
  /\ Bridge.String_of_number (- 2 ^ 63) = lit "-9223372036854776000"
  /\ Bridge.String_of_number (10 ^ 21) = lit "1e+21"
  /\ Bridge.String_of_number (1234567890123456789012)
     = lit "1.2345678901234568e+21".
Proof. vm_compute. repeat split. Qed.

(** An index beyond the safe integers can reach the helper as a numeral
    that is no 64-bit integer: the helper then ends with a usage error and
    the handler answers with an error. *)
Example index_beyond_the_safe_integers :
  exitCode (main [lit "LogicAccessibility"; lit "set-param";
                  Bridge.String_of_number (- 2 ^ 63); Bridge.String_of_number 0;
                  lit "gain"; lit "7"] Sample.pluginHost).1 = 1%Z
  /\ match (Plugins.plugin_set_parameter (- 2 ^ 63) 0 (lit "gain") (lit "7")
              Sample.pluginWorld).1 with
     | Bridge.Ok response => Plugins.isError response
     | Bridge.Throw _ => false
     end = true.
Proof.
  assert (E : Bridge.String_of_number (- 2 ^ 63) = lit "-9223372036854776000")
    by (vm_compute; reflexivity).
  unfold Plugins.plugin_set_parameter, Bridge.setPluginParameter.
  rewrite !E. split; reflexivity.
Qed.

(** A C major chord on a fresh port. *)
Example c_major_chord :
  (MidiTools.midi_send_chord [60; 64; 67]%Z None None None
     (Midi.mkSession (Some (Midi.mkOutput [])) [])).2
  = Midi.mkSession
      (Some (Midi.mkOutput
               [[144; 60; 80]; [144; 64; 80]; [144; 67; 80];
                [128; 60; 0]; [128; 64; 0]; [128; 67; 0]]%Z))
      [Midi.Message [144; 60; 80]%Z; Midi.Message [144; 64; 80]%Z;
       Midi.Message [144; 67; 80]%Z; Midi.Sleep 1000;
       Midi.Message [128; 60; 0]%Z; Midi.Message [128; 64; 0]%Z;
       Midi.Message [128; 67; 0]%Z].
Proof. vm_compute. reflexivity. Qed.

End Instances.
